(** * Crawl loops of the Sri Lankan tourism scrapers

    A shallow embedding of the crawling code of the repository:
    - [scrape/scrape_srilanka.py]: [allowed], [same_domain], [normalize_url],
      [find_all_links], [find_all_images], [download_image], [crawl];
    - [scrape/thecommonwanderer.py]: [allowed], [normalize_link],
      [extract_page], [crawl];
    - [scrape/ella_travel_guide.py]: [TripAdvisorEllaScraper.get_page],
      [extract_images], [flatten_data_for_csv];
    - [scrape/sl_tourism_scrape.py]: [can_fetch_url], [safe_filename],
      [get_total_pages], [collect_attraction_links],
      [find_category_links], [find_attractions_listing],
      [parse_attraction_page], [main];
    - [scrape/scrape_ft_travel.py]: [can_fetch],
      [load_soup_from_local_or_web], [parse_listing],
      [fetch_article_details], [download_images], [main].

    Conventions.  A Python [str] is a [string]; one element of the string
    stands for one character of the Python string.  A Python [set] is a
    [gset], iterated in the order of [elements] (Python leaves the order
    open as well).  A call that may raise returns an [option]: [None] is a
    raised exception.  The network, the robots parser, the HTML parser, the
    URL parser and the file system are the environment: a record of
    functions that give the outcome of each library call.  A loop of the
    code is a function from state to state, with the outcome [Raised] where
    an exception that nothing catches ends it. *)

From Stdlib Require Import ZArith Lia Ascii String.
From stdpp Require Import base tactics option list gmap strings pretty.

Local Open Scope string_scope.
Local Open Scope list_scope.

(** ** Python string operations used by the scripts *)

Module PyStr.

(** [s.startswith(p)] *)
Fixpoint startswith (s p : string) : bool :=
  match p with
  | EmptyString => true
  | String c p' =>
      match s with
      | EmptyString => false
      | String d s' => if Ascii.eqb c d then startswith s' p' else false
      end
  end.

(** [s.endswith(p)] *)
Fixpoint endswith (s p : string) : bool :=
  if String.eqb s p then true
  else match s with
       | EmptyString => false
       | String _ s' => endswith s' p
       end.

(** [s.split('#')[0]]: the part of [s] before its first ['#'] *)
Fixpoint split_hash_0 (s : string) : string :=
  match s with
  | EmptyString => EmptyString
  | String c s' =>
      if Ascii.eqb c "#"%char then EmptyString else String c (split_hash_0 s')
  end.

(** [s[:n]] for [n >= 0] *)
Fixpoint slice_to (n : N) (s : string) : string :=
  match s with
  | EmptyString => EmptyString
  | String c s' =>
      if (n =? 0)%N then EmptyString else String c (slice_to (N.pred n) s')
  end.

(** ['#' in s] *)
Fixpoint has_hash (s : string) : bool :=
  match s with
  | EmptyString => false
  | String c s' => if Ascii.eqb c "#"%char then true else has_hash s'
  end.

(** The truth value of a string: [not s] is [true] for the empty string. *)
Definition truthy (s : string) : bool :=
  match s with EmptyString => false | _ => true end.

End PyStr.

(** ** [urllib.parse.urljoin]

    [urljoin(base, url)] opens with two shortcuts, [if not base: return url]
    and [if not url: return base]; the resolution of a non-empty reference
    against a non-empty base is the library's and stays a parameter.  The
    library parses both arguments and raises [ValueError] on a malformed
    one, as on the reference ["http://[::1"]: the parameter gives [None]
    then. *)

Module UrlLib.

Section Urljoin.
Variable resolve : string -> string -> option string.

Definition urljoin (base url : string) : option string :=
  if negb (PyStr.truthy base) then Some url
  else if negb (PyStr.truthy url) then Some base
  else resolve base url.
End Urljoin.

End UrlLib.

(** ** scrape/scrape_srilanka.py *)

Module ScrapeSrilanka.

(** What the crawl reads off a parsed page ([BeautifulSoup(resp.text)]). *)
Record Soup := {
  soup_title : string;              (* line 139: the stripped <title>, or "" *)
  soup_text : string;               (* [extract_text(soup)] *)
  soup_hrefs : list string;         (* [a["href"]] of [soup.find_all("a", href=True)] *)
  soup_img_srcs : list (option string)
    (* per <img>: [img.get("src") or img.get("data-src") or img.get("data-lazy-src")] *)
}.

(** Module constants that the claims quantify over. *)
Record Config := {
  MAX_PAGES : nat;
  DOWNLOAD_IMAGES : bool
}.

Definition default_config : Config :=
  {| MAX_PAGES := 200; DOWNLOAD_IMAGES := true |}.

(** The environment: outcome of each library call. *)
Record Env := {
  rp_can_fetch : string -> option bool;      (* [rp.can_fetch(USER_AGENT, url)] *)
  netloc : string -> string;                 (* [urlparse(url).netloc] *)
  registered_domain : string;                (* [tldextract.extract(START_URL).registered_domain] *)
  url_resolve : string -> string -> option string;
    (* [urljoin] on non-empty arguments; [None]: it raises [ValueError] *)
  session_get : string -> option Soup;
    (* lines 127-128 and 137: [session.get], [raise_for_status], parse *)
  image_get : string -> option string;
    (* lines 87-88: [session.get(url, stream=True)], [raise_for_status] *)
  out_path_for : gset string -> string -> string;
    (* lines 90-98: file name from the URL, suffixed until no such file exists *)
  file_open : string -> option unit;         (* line 99 *)
  file_write : string -> string -> option unit  (* lines 100-102 *)
}.

Inductive Request :=
  | PageGet (url : string)
  | ImageGet (url : string).

#[global] Instance Request_eq_dec : EqDecision Request.
Proof. solve_decision. Defined.

Record PageRecord := {
  rec_url : string;
  rec_title : string;
  rec_text_snippet : string;
  rec_all_images : list string;
  rec_downloaded_images : list (string * string);   (* url, saved_path *)
  rec_outbound_links_count : nat
}.

(** The local variables of [crawl], the output file, the files of the
    images directory, and the log of the HTTP requests issued. *)
Record State := {
  visited : gset string;
  q : list string;
  pages_crawled : nat;
  out_f : list PageRecord;
  files : gset string;
  requests : list Request
}.

(** How an iteration of the [while] ends: normally, or with an exception
    that no handler of [crawl] catches; the state is the one it leaves. *)
Inductive Step :=
  | Next (s : State)
  | Raised (s : State).

(** How a run of the [while] ends. *)
Inductive Run :=
  | Done (s : State)
  | Crashed (s : State)
  | OutOfFuel.

(** The page GETs of a request log, in order. *)
Definition page_gets (log : list Request) : list string :=
  omap (λ r, match r with PageGet u => Some u | ImageGet _ => None end) log.

Section Code.
Context (cfg : Config) (env : Env).

(** [None] when [urljoin] raises *)
Definition urljoin : string -> string -> option string :=
  UrlLib.urljoin (url_resolve env).

(** lines 42-47 *)
Definition allowed (url : string) : bool :=
  match rp_can_fetch env url with
  | Some b => b
  | None => false
  end.

(** lines 49-50 *)
Definition same_domain (url : string) : bool :=
  PyStr.endswith (netloc env url) (registered_domain env).

(** lines 52-58; [link] is [None] when the attribute is missing.  The
    result is [None] when [urljoin] raises, [Some None] when the function
    returns [None], [Some (Some u)] when it returns the URL [u]. *)
Definition normalize_url (base : string) (link : option string)
    : option (option string) :=
  match link with
  | None => Some None
  | Some link =>
      if negb (PyStr.truthy link) then Some None
      else if PyStr.startswith link "javascript:"
              || PyStr.startswith link "mailto:"
              || PyStr.startswith link "tel:" then Some None
      else u ← urljoin base (PyStr.split_hash_0 link); Some (Some u)
  end.

(** The truth value of what [normalize_url] returns ([if u]). *)
Definition truthy_opt (u : option string) : bool :=
  match u with
  | Some s => PyStr.truthy s
  | None => false
  end.

(** lines 68-74; [None] when [normalize_url] raises *)
Fixpoint find_all_links_from (hrefs : list string) (base : string)
    (links : gset string) : option (gset string) :=
  match hrefs with
  | [] => Some links
  | href :: rest =>
      u ← normalize_url base (Some href);
      match u with
      | Some u =>
          if PyStr.truthy u && same_domain u
          then find_all_links_from rest base ({[u]} ∪ links)
          else find_all_links_from rest base links
      | None => find_all_links_from rest base links
      end
  end.

Definition find_all_links (soup : Soup) (base : string)
    : option (gset string) :=
  find_all_links_from (soup_hrefs soup) base ∅.

(** lines 76-83; [None] when [normalize_url] raises *)
Fixpoint find_all_images_from (srcs : list (option string)) (base : string)
    (imgs : gset string) : option (gset string) :=
  match srcs with
  | [] => Some imgs
  | src :: rest =>
      u ← normalize_url base src;
      match u with
      | Some u =>
          if PyStr.truthy u
          then find_all_images_from rest base ({[u]} ∪ imgs)
          else find_all_images_from rest base imgs
      | None => find_all_images_from rest base imgs
      end
  end.

Definition find_all_images (soup : Soup) (base : string)
    : option (gset string) :=
  find_all_images_from (soup_img_srcs soup) base ∅.

(** lines 85-106: the [try] block, then the handler that turns every
    exception into [None].  The second component is the images directory
    afterwards: [open] creates the file even when a later write raises. *)
Definition download_image (fs : gset string) (url : string)
    : option string * gset string :=
  match image_get env url with
  | None => (None, fs)
  | Some content =>
      let out_path := out_path_for env fs url in
      match file_open env out_path with
      | None => (None, fs)
      | Some _ =>
          match file_write env out_path content with
          | None => (None, {[out_path]} ∪ fs)
          | Some _ => (Some out_path, {[out_path]} ∪ fs)
          end
      end
  end.

(** lines 147-153: the loop over [images] *)
Fixpoint download_loop (images : list string) (fs : gset string)
    (downloaded : list (string * string)) (log : list Request)
    : list (string * string) * gset string * list Request :=
  match images with
  | [] => (downloaded, fs, log)
  | img_url :: rest =>
      if allowed img_url then
        let '(saved, fs') := download_image fs img_url in
        let downloaded' :=
          if truthy_opt saved
          then downloaded ++ [(img_url, default "" saved)]
          else downloaded in
        download_loop rest fs' downloaded' (log ++ [ImageGet img_url])
      else download_loop rest fs downloaded log
  end.

(** lines 145-153 *)
Definition download_images (images : list string) (fs : gset string)
    (log : list Request)
    : list (string * string) * gset string * list Request :=
  if DOWNLOAD_IMAGES cfg && bool_decide (images ≠ [])
  then download_loop images fs [] log
  else ([], fs, log).

(** The entry of one image in [downloaded] (lines 148-151), the images
    directory being [fs] when its turn comes: none when robots.txt denies
    the image or [download_image] returns no path. *)
Definition image_entry (fs : gset string) (img_url : string)
    : option (string * string) :=
  if allowed img_url then
    match (download_image fs img_url).1 with
    | Some saved => if PyStr.truthy saved then Some (img_url, saved) else None
    | None => None
    end
  else None.

(** The images directory before the turn of each image of the loop. *)
Fixpoint dirs_before (images : list string) (fs : gset string)
    : list (gset string) :=
  match images with
  | [] => []
  | img_url :: rest =>
      fs :: dirs_before rest
              (if allowed img_url then (download_image fs img_url).2 else fs)
  end.

(** lines 167-170 *)
Fixpoint enqueue (links : list string) (visited : gset string)
    (q : list string) : list string :=
  match links with
  | [] => q
  | link :: rest =>
      if bool_decide (link ∉ visited)
      then enqueue rest visited (q ++ [link])
      else enqueue rest visited q
  end.

(** line 115: the condition of the [while] *)
Definition loop_cond (s : State) : bool :=
  bool_decide (q s ≠ []) && (pages_crawled s <? MAX_PAGES cfg)%nat.

(** [s] with the head of the queue popped: what an iteration that does not
    reach line 144 leaves. *)
Definition popped (s : State) (q' : list string) (vis : gset string)
    (pages : nat) (log : list Request) : State :=
  {| visited := vis; q := q'; pages_crawled := pages; out_f := out_f s;
     files := files s; requests := log |}.

(** lines 144-174: the page, once its images [imgs] and its links [links]
    are found *)
Definition write_page (s : State) (url : string) (q' : list string)
    (soup : Soup) (imgs links : gset string) : State :=
  let log := requests s ++ [PageGet url] in
  let images := elements imgs in
  let '(downloaded, fs', log') := download_images images (files s) log in
  let record :=
    {| rec_url := url;
       rec_title := soup_title soup;
       rec_text_snippet := PyStr.slice_to 10000 (soup_text soup);
       rec_all_images := images;
       rec_downloaded_images := downloaded;
       rec_outbound_links_count := size links |} in
  {| visited := {[url]} ∪ visited s;
     q := enqueue (elements links) (visited s) q';
     pages_crawled := pages_crawled s + 1;
     out_f := out_f s ++ [record];
     files := fs';
     requests := log' |}.

(** The state that an exception of lines 141-142 leaves: the URL is
    popped and was requested, and nothing else has changed. *)
Definition page_raised (s : State) (url : string) (q' : list string)
    : State :=
  popped s q' (visited s) (pages_crawled s) (requests s ++ [PageGet url]).

(** lines 137-174: a page whose GET succeeded.  [find_all_images] and
    [find_all_links] (lines 141-142) are called outside any [try]: when
    [urljoin] raises in one of them the exception ends [crawl]. *)
Definition process_page (s : State) (url : string) (q' : list string)
    (soup : Soup) : Step :=
  match find_all_images soup url with
  | None => Raised (page_raised s url q')
  | Some imgs =>
      match find_all_links soup url with
      | None => Raised (page_raised s url q')
      | Some links => Next (write_page s url q' soup imgs links)
      end
  end.

(** lines 116-184: one iteration of the [while] *)
Definition loop_body (s : State) : Step :=
  match q s with
  | [] => Next s
  | url :: q' =>
      if bool_decide (url ∈ visited s) then
        Next (popped s q' (visited s) (pages_crawled s) (requests s))
      else if negb (same_domain url) then
        Next (popped s q' (visited s) (pages_crawled s) (requests s))
      else if negb (allowed url) then
        Next (popped s q' ({[url]} ∪ visited s) (pages_crawled s)
                (requests s))
      else
        match session_get env url with
        | None =>
            Next (popped s q' ({[url]} ∪ visited s) (pages_crawled s + 1)
                    (requests s ++ [PageGet url]))
        | Some soup => process_page s url q' soup
        end
  end.

(** The branches of an iteration of the [while], one constructor each:
    the [continue]s of lines 118, 120, 124 and 135, the exception of lines
    141-142, and the page. *)
Inductive iteration (s : State) : Step -> Prop :=
  | iter_visited url q' :
      q s = url :: q' -> url ∈ visited s ->
      iteration s (Next (popped s q' (visited s) (pages_crawled s)
                           (requests s)))
  | iter_other_domain url q' :
      q s = url :: q' -> url ∉ visited s -> same_domain url = false ->
      iteration s (Next (popped s q' (visited s) (pages_crawled s)
                           (requests s)))
  | iter_disallowed url q' :
      q s = url :: q' -> url ∉ visited s -> same_domain url = true ->
      allowed url = false ->
      iteration s (Next (popped s q' ({[url]} ∪ visited s) (pages_crawled s)
                           (requests s)))
  | iter_fetch_error url q' :
      q s = url :: q' -> url ∉ visited s -> same_domain url = true ->
      allowed url = true -> session_get env url = None ->
      iteration s (Next (popped s q' ({[url]} ∪ visited s)
                           (pages_crawled s + 1)
                           (requests s ++ [PageGet url])))
  | iter_page_raised url q' soup :
      q s = url :: q' -> url ∉ visited s -> same_domain url = true ->
      allowed url = true -> session_get env url = Some soup ->
      find_all_images soup url = None \/ find_all_links soup url = None ->
      iteration s (Raised (page_raised s url q'))
  | iter_page url q' soup imgs links :
      q s = url :: q' -> url ∉ visited s -> same_domain url = true ->
      allowed url = true -> session_get env url = Some soup ->
      find_all_images soup url = Some imgs ->
      find_all_links soup url = Some links ->
      iteration s (Next (write_page s url q' soup imgs links)).

(** The bookkeeping of [crawl] between two iterations: a page is requested
    at most once, and only when it is not in [visited]; a record is written
    at most once per page; [pages_crawled] counts the page requests and
    stays within the budget. *)
Definition crawl_inv (s : State) : Prop :=
  NoDup (page_gets (requests s)) /\
  (forall u, u ∈ page_gets (requests s) -> u ∈ visited s) /\
  NoDup (map rec_url (out_f s)) /\
  (forall u, u ∈ map rec_url (out_f s) -> u ∈ visited s) /\
  length (page_gets (requests s)) = pages_crawled s /\
  pages_crawled s <= MAX_PAGES cfg.

(** What is left of it in the state an exception leaves, where the page
    that raised was requested and is neither counted nor in [visited]. *)
Definition reached_inv (s : State) : Prop :=
  NoDup (page_gets (requests s)) /\
  NoDup (map rec_url (out_f s)) /\
  (forall u, u ∈ map rec_url (out_f s) -> u ∈ visited s) /\
  pages_crawled s <= length (page_gets (requests s)) /\
  length (page_gets (requests s)) <= MAX_PAGES cfg.

(** The state after at most [n] iterations of the [while]; an exception
    ends them. *)
Fixpoint iterate (n : nat) (s : State) : State :=
  match n with
  | 0 => s
  | S n' =>
      if loop_cond s then
        match loop_body s with
        | Next s' => iterate n' s'
        | Raised s' => s'
        end
      else s
  end.

(** The [while] of lines 115-184, run to its end, normal or not;
    [OutOfFuel] when [fuel] iterations do not reach it. *)
Fixpoint crawl_loop (fuel : nat) (s : State) : Run :=
  if loop_cond s then
    match fuel with
    | 0 => OutOfFuel
    | S fuel' =>
        match loop_body s with
        | Next s' => crawl_loop fuel' s'
        | Raised s' => Crashed s'
        end
    end
  else Done s.

(** lines 109-111; [fs] is the images directory as the crawl finds it *)
Definition init (start_url : string) (fs : gset string) : State :=
  {| visited := ∅; q := [start_url]; pages_crawled := 0; out_f := [];
     files := fs; requests := [] |}.

(** lines 108-187 *)
Definition crawl (fuel : nat) (start_url : string) (fs : gset string)
    : Run :=
  crawl_loop fuel (init start_url fs).

End Code.

End ScrapeSrilanka.

(** ** scrape/thecommonwanderer.py *)

Module CommonWanderer.

(** What [extract_page] reads off the parsed page. *)
Record Soup := {
  soup_title : string;       (* line 48 *)
  soup_datetime : string;    (* lines 49-52: the <time datetime>, or "" *)
  soup_main : option (string * list (option string))
    (* line 54: the main region, if any: [extract_text(main)] and, per <img>,
       [img.get("src") or img.get("data-src")] *)
}.

Record Env := {
  rp_can_fetch : string -> option bool;      (* [rp.can_fetch(USER_AGENT, url)] *)
  same_site : string -> bool;                (* lines 31-32 *)
  url_resolve : string -> string -> option string;
    (* [urljoin] on non-empty arguments; [None]: it raises [ValueError] *)
  session_get : string -> option Soup;
    (* lines 45-47: [session.get], [raise_for_status], parse *)
  requests_get : string -> option (list string)
    (* lines 88-89: [requests.get(url).text], parsed; the [a["href"]] values *)
}.

Inductive Request :=
  | ExtractGet (url : string)   (* the GET of [extract_page], line 45 *)
  | LinksGet (url : string).    (* the second GET of the page, line 88 *)

Record PageRecord := {
  rec_url : string;
  rec_title : string;
  rec_publish_date : string;
  rec_text : string;
  rec_images : list string
}.

Record State := {
  visited : gset string;
  q : list string;
  fout : list PageRecord;
  requests : list Request
}.

(** How an iteration of the [while] ends: normally, or with an exception
    that no handler of [crawl] catches. *)
Inductive Step :=
  | Next (s : State)
  | Raised (s : State).

(** How a run of the [while] ends. *)
Inductive Run :=
  | Done (s : State)
  | Crashed (s : State)
  | OutOfFuel.

(** The pages handed to [extract_page], in order. *)
Definition extract_gets (log : list Request) : list string :=
  omap (λ r, match r with ExtractGet u => Some u | LinksGet _ => None end) log.

Section Code.
Context (MAX_PAGES : nat) (env : Env).

(** [None] when [urljoin] raises *)
Definition urljoin : string -> string -> option string :=
  UrlLib.urljoin (url_resolve env).

(** lines 34-37.  The result is [None] when [urljoin] raises, [Some None]
    when the function returns [None], [Some (Some u)] when it returns the
    URL [u]. *)
Definition normalize_link (base link : string) : option (option string) :=
  if negb (PyStr.truthy link)
     || PyStr.startswith link "javascript:"
     || PyStr.startswith link "mailto:" then Some None
  else u ← urljoin base (PyStr.split_hash_0 link); Some (Some u).

(** lines 56-61; [None] when [urljoin] raises *)
Fixpoint main_images (url : string) (srcs : list (option string))
    : option (list string) :=
  match srcs with
  | [] => Some []
  | src :: rest =>
      match src with
      | Some src =>
          if PyStr.truthy src then
            u ← urljoin url src;
            images ← main_images url rest;
            Some (u :: images)
          else main_images url rest
      | None => main_images url rest
      end
  end.

(** lines 44-62; [None] when the function raises: the GET,
    [raise_for_status], or [urljoin] on the source of an image *)
Definition extract_page (url : string) : option PageRecord :=
  soup ← session_get env url;
  let text := match soup_main soup with Some (t, _) => t | None => "" end in
  images ← match soup_main soup with
           | Some (_, srcs) => main_images url srcs
           | None => Some []
           end;
  Some {| rec_url := url; rec_title := soup_title soup;
          rec_publish_date := soup_datetime soup;
          rec_text := PyStr.slice_to 20000 text;
          rec_images := images |}.

(** lines 89-92: the queue when the loop ends, and whether it ended
    normally ([true]) or with [normalize_link] raising ([false]) *)
Fixpoint enqueue (url : string) (hrefs : list string)
    (visited : gset string) (q : list string) : list string * bool :=
  match hrefs with
  | [] => (q, true)
  | href :: rest =>
      match normalize_link url href with
      | None => (q, false)
      | Some (Some link) =>
          if PyStr.truthy link && bool_decide (link ∉ visited)
             && same_site env link
          then enqueue url rest visited (q ++ [link])
          else enqueue url rest visited q
      | Some None => enqueue url rest visited q
      end
  end.

(** line 69 *)
Definition loop_cond (s : State) : bool :=
  bool_decide (q s ≠ []) && (size (visited s) <? MAX_PAGES)%nat.

(** lines 70-94 *)
Definition loop_body (s : State) : Step :=
  match q s with
  | [] => Next s
  | url :: q' =>
      let skip := Next {| visited := {[url]} ∪ visited s; q := q';
                          fout := fout s; requests := requests s |} in
      if bool_decide (url ∈ visited s) then skip
      else if negb (same_site env url) then skip
      else
        match rp_can_fetch env url with
        | None => Raised {| visited := visited s; q := q';
                            fout := fout s; requests := requests s |}
        | Some false => skip
        | Some true =>
            let log := requests s ++ [ExtractGet url] in
            match extract_page url with
            | None =>
                Next {| visited := {[url]} ∪ visited s; q := q';
                        fout := fout s; requests := log |}
            | Some record =>
                let visited' := {[url]} ∪ visited s in
                let fout' := fout s ++ [record] in
                let log' := log ++ [LinksGet url] in
                match requests_get env url with
                | None =>
                    Raised {| visited := visited'; q := q';
                              fout := fout'; requests := log' |}
                | Some hrefs =>
                    match enqueue url hrefs visited' q' with
                    | (q'', true) =>
                        Next {| visited := visited'; q := q'';
                                fout := fout'; requests := log' |}
                    | (q'', false) =>
                        Raised {| visited := visited'; q := q'';
                                  fout := fout'; requests := log' |}
                    end
                end
            end
        end
  end.

(** The branches of an iteration of the [while], one constructor each. *)
Inductive iteration (s : State) : Step -> Prop :=
  | iter_skip url q' :
      q s = url :: q' ->
      url ∈ visited s \/ same_site env url = false
        \/ rp_can_fetch env url = Some false ->
      iteration s (Next {| visited := {[url]} ∪ visited s; q := q';
                           fout := fout s; requests := requests s |})
  | iter_robots_raise url q' :
      q s = url :: q' -> url ∉ visited s -> same_site env url = true ->
      rp_can_fetch env url = None ->
      iteration s (Raised {| visited := visited s; q := q';
                             fout := fout s; requests := requests s |})
  | iter_extract_error url q' :
      q s = url :: q' -> url ∉ visited s -> same_site env url = true ->
      rp_can_fetch env url = Some true -> extract_page url = None ->
      iteration s (Next {| visited := {[url]} ∪ visited s; q := q';
                           fout := fout s;
                           requests := requests s ++ [ExtractGet url] |})
  | iter_links_raise url q' record :
      q s = url :: q' -> url ∉ visited s -> same_site env url = true ->
      rp_can_fetch env url = Some true -> extract_page url = Some record ->
      requests_get env url = None ->
      iteration s (Raised {| visited := {[url]} ∪ visited s; q := q';
                             fout := fout s ++ [record];
                             requests := (requests s ++ [ExtractGet url])
                                           ++ [LinksGet url] |})
  | iter_enqueue_raise url q' record hrefs q'' :
      q s = url :: q' -> url ∉ visited s -> same_site env url = true ->
      rp_can_fetch env url = Some true -> extract_page url = Some record ->
      requests_get env url = Some hrefs ->
      enqueue url hrefs ({[url]} ∪ visited s) q' = (q'', false) ->
      iteration s (Raised {| visited := {[url]} ∪ visited s; q := q'';
                             fout := fout s ++ [record];
                             requests := (requests s ++ [ExtractGet url])
                                           ++ [LinksGet url] |})
  | iter_page url q' record hrefs q'' :
      q s = url :: q' -> url ∉ visited s -> same_site env url = true ->
      rp_can_fetch env url = Some true -> extract_page url = Some record ->
      requests_get env url = Some hrefs ->
      enqueue url hrefs ({[url]} ∪ visited s) q' = (q'', true) ->
      iteration s (Next {| visited := {[url]} ∪ visited s; q := q'';
                           fout := fout s ++ [record];
                           requests := (requests s ++ [ExtractGet url])
                                         ++ [LinksGet url] |}).

(** The bookkeeping of [crawl]: a page is handed to [extract_page] at most
    once, and only when it is not in [visited]; a record is written at most
    once per page; [visited] holds at least as many URLs as pages were
    requested, and the requests stay within the budget. *)
Definition crawl_inv (s : State) : Prop :=
  NoDup (extract_gets (requests s)) /\
  (forall u, u ∈ extract_gets (requests s) -> u ∈ visited s) /\
  NoDup (map rec_url (fout s)) /\
  (forall u, u ∈ map rec_url (fout s) -> u ∈ visited s) /\
  length (extract_gets (requests s)) <= size (visited s) /\
  length (extract_gets (requests s)) <= MAX_PAGES.

(** The [while] of lines 69-94. *)
Fixpoint crawl_loop (fuel : nat) (s : State) : Run :=
  if loop_cond s then
    match fuel with
    | 0 => OutOfFuel
    | S fuel' =>
        match loop_body s with
        | Next s' => crawl_loop fuel' s'
        | Raised s' => Crashed s'
        end
    end
  else Done s.

(** The state after at most [n] iterations of the [while]. *)
Fixpoint iterate (n : nat) (s : State) : State :=
  match n with
  | 0 => s
  | S n' =>
      if loop_cond s then
        match loop_body s with
        | Next s' => iterate n' s'
        | Raised s' => s'
        end
      else s
  end.

(** lines 65-66 *)
Definition init (start_pages : list string) : State :=
  {| visited := ∅; q := start_pages; fout := []; requests := [] |}.

(** lines 64-96 *)
Definition crawl (fuel : nat) (start_pages : list string) : Run :=
  crawl_loop fuel (init start_pages).

End Code.

End CommonWanderer.

(** ** scrape/ella_travel_guide.py: [TripAdvisorEllaScraper.get_page] *)

Module Ella.

(** The outcome of [self.session.get(url, timeout=15)]. *)
Inductive Response :=
  | Status (code : Z) (content : string)
  | Timeout                 (* [requests.exceptions.Timeout] *)
  | ConnectionError         (* [requests.exceptions.ConnectionError] *)
  | OtherException.

Inductive Event :=
  | Delay (secs : Z)          (* line 46 *)
  | Get (url : string)        (* line 47 *)
  | ForbiddenWait (secs : Z)  (* line 51 *)
  | Backoff (secs : Z).       (* line 68 *)

#[global] Instance Event_eq_dec : EqDecision Event.
Proof. solve_decision. Defined.

Section Code.
(** The server: its answer to the request of each attempt. *)
Context (server : Z -> Response).

(** [response.raise_for_status()] raises on 4xx and 5xx. *)
Definition raises_for_status (code : Z) : bool :=
  (400 <=? code)%Z && (code <? 600)%Z.

(** lines 43-71: the iterations of the [for] from [attempt] on, [todo]
    of them left; the events, and the page or [None]. *)
Fixpoint attempts (url : string) (max_retries : Z) (attempt : Z)
    (todo : nat) : list Event * option string :=
  match todo with
  | 0 => ([], None)
  | S todo' =>
      let pre := [Delay (2 + attempt); Get url] in
      let retry (wait : list Event) :=
        let '(evs, r) := attempts url max_retries (attempt + 1) todo' in
        (pre ++ wait ++ evs, r) in
      let failed :=
        retry (if (attempt <? max_retries - 1)%Z
               then [Backoff (5 * (attempt + 1))] else []) in
      match server attempt with
      | Status code content =>
          if (code =? 403)%Z then retry [ForbiddenWait 5]
          else if (code =? 404)%Z then (pre, None)
          else if raises_for_status code then failed
          else (pre, Some content)
      | Timeout | ConnectionError | OtherException => failed
      end
  end.

(** lines 41-71 *)
Definition get_page (url : string) (max_retries : Z)
    : list Event * option string :=
  attempts url max_retries 0 (Z.to_nat max_retries).

End Code.

(** [max_retries=3], the default of the signature (line 41). *)
Definition default_max_retries : Z := 3.

(** The attempt's outcome is one of the retryable failures: a 5xx status,
    a timeout or a connection error. *)
Definition retryable (r : Response) : bool :=
  match r with
  | Status code _ => (500 <=? code)%Z && (code <? 600)%Z
  | Timeout | ConnectionError => true
  | OtherException => false
  end.

(** The HTTP requests in a list of events. *)
Definition gets (evs : list Event) : list string :=
  omap (λ e, match e with Get u => Some u | _ => None end) evs.

(** The waits between attempts in a list of events. *)
Definition backoffs (evs : list Event) : list Z :=
  omap (λ e, match e with Backoff n => Some n | _ => None end) evs.

End Ella.

(** ** The robots gates of scrape/sl_tourism_scrape.py and
       scrape/scrape_ft_travel.py *)

Module RobotsGate.

(** A fresh [RobotFileParser]: whether [rp.read()] returns, and what
    [rp.can_fetch(ua, url)] answers after it. *)
Record Parser := {
  rp_read : option unit;
  rp_can_fetch : string -> string -> option bool
}.

(** sl_tourism_scrape.py, lines 52-62 *)
Definition can_fetch_url (rp : Parser) (url_to_check : string) (ua : string)
    : bool :=
  match (_ ← rp_read rp; rp_can_fetch rp ua url_to_check) with
  | Some b => b
  | None => true
  end.

(** scrape_ft_travel.py, lines 37-47 *)
Definition can_fetch (rp : Parser) (url : string) (ua : string) : bool :=
  match (_ ← rp_read rp; rp_can_fetch rp ua url) with
  | Some b => b
  | None => true
  end.

End RobotsGate.


(** ** The URL of a request *)

Definition request_url (r : ScrapeSrilanka.Request) : string :=
  match r with
  | ScrapeSrilanka.PageGet u => u
  | ScrapeSrilanka.ImageGet u => u
  end.

Definition cw_request_url (r : CommonWanderer.Request) : string :=
  match r with
  | CommonWanderer.ExtractGet u => u
  | CommonWanderer.LinksGet u => u
  end.

(** ** A small site, to run the code on *)

Module Fixture.

Definition home : string := "https://www.srilanka.travel/".
Definition beaches : string := "https://www.srilanka.travel/beaches".
Definition admin : string := "https://www.srilanka.travel/admin".
Definition broken : string := "https://www.srilanka.travel/broken".
Definition img_a : string := "https://www.srilanka.travel/img/a.jpg".
Definition img_b : string := "https://www.srilanka.travel/img/b.jpg".

(** An href that [urljoin] raises [ValueError: Invalid IPv6 URL] on. *)
Definition malformed : string := "http://[::1".

Definition soup_home : ScrapeSrilanka.Soup :=
  {| ScrapeSrilanka.soup_title := "Sri Lanka";
     ScrapeSrilanka.soup_text := "Welcome to Sri Lanka";
     ScrapeSrilanka.soup_hrefs :=
       ["/beaches"; "#top"; "/beaches#map"; "/admin";
        "mailto:info@srilanka.travel"];
     ScrapeSrilanka.soup_img_srcs := [Some "/img/a.jpg"; None; Some "/img/b.jpg"] |}.

Definition soup_beaches : ScrapeSrilanka.Soup :=
  {| ScrapeSrilanka.soup_title := "Beaches";
     ScrapeSrilanka.soup_text := "Golden beaches";
     ScrapeSrilanka.soup_hrefs := ["/"; "/beaches"];
     ScrapeSrilanka.soup_img_srcs := [] |}.

(** A page with a malformed link. *)
Definition soup_broken : ScrapeSrilanka.Soup :=
  {| ScrapeSrilanka.soup_title := "Broken";
     ScrapeSrilanka.soup_text := "A page with a bad link";
     ScrapeSrilanka.soup_hrefs := ["/beaches"; malformed];
     ScrapeSrilanka.soup_img_srcs := [Some "/img/b.jpg"] |}.

(** Resolution against a page of the site [origin]: a rooted path is put
    after the origin, the malformed reference raises, anything else is
    taken to be absolute. *)
Definition resolve_at (origin base ref : string) : option string :=
  if PyStr.startswith ref "/" then Some (origin +:+ ref)
  else if String.eqb ref malformed then None
  else Some ref.

Definition resolve : string -> string -> option string :=
  resolve_at "https://www.srilanka.travel".

(** A site whose robots.txt denies [/admin], whose image [a.jpg] cannot be
    downloaded and whose other pages and images answer. *)
Definition env : ScrapeSrilanka.Env :=
  {| ScrapeSrilanka.rp_can_fetch :=
       λ u, Some (negb (String.eqb u admin));
     ScrapeSrilanka.netloc :=
       λ u, if PyStr.startswith u "https://www.srilanka.travel"
            then "www.srilanka.travel" else "elsewhere.example";
     ScrapeSrilanka.registered_domain := "srilanka.travel";
     ScrapeSrilanka.url_resolve := resolve;
     ScrapeSrilanka.session_get :=
       λ u, if String.eqb u home then Some soup_home
            else if String.eqb u beaches then Some soup_beaches
            else if String.eqb u broken then Some soup_broken
            else None;
     ScrapeSrilanka.image_get :=
       λ u, if String.eqb u img_a then None else Some "bytes";
     ScrapeSrilanka.out_path_for :=
       λ _ u, if String.eqb u img_b then "images/b.jpg" else "images/a.jpg";
     ScrapeSrilanka.file_open := λ _, Some ();
     ScrapeSrilanka.file_write := λ _ _, Some () |}.

(** The same site with a robots parser whose every query raises. *)
Definition env_robots_raise : ScrapeSrilanka.Env :=
  {| ScrapeSrilanka.rp_can_fetch := λ _, None;
     ScrapeSrilanka.netloc := ScrapeSrilanka.netloc env;
     ScrapeSrilanka.registered_domain := "srilanka.travel";
     ScrapeSrilanka.url_resolve := resolve;
     ScrapeSrilanka.session_get := ScrapeSrilanka.session_get env;
     ScrapeSrilanka.image_get := ScrapeSrilanka.image_get env;
     ScrapeSrilanka.out_path_for := ScrapeSrilanka.out_path_for env;
     ScrapeSrilanka.file_open := λ _, Some ();
     ScrapeSrilanka.file_write := λ _ _, Some () |}.

Definition cfg : ScrapeSrilanka.Config :=
  {| ScrapeSrilanka.MAX_PAGES := 3; ScrapeSrilanka.DOWNLOAD_IMAGES := true |}.

(** [crawl] about to pop [url], nothing visited yet. *)
Definition at_url (url : string) : ScrapeSrilanka.State :=
  ScrapeSrilanka.init url ∅.

(** A site none of whose pages can be fetched. *)
Definition cw_env : CommonWanderer.Env :=
  {| CommonWanderer.rp_can_fetch := λ _, Some true;
     CommonWanderer.same_site := λ u, PyStr.startswith u "https://www.thecommonwanderer.com";
     CommonWanderer.url_resolve :=
       resolve_at "https://www.thecommonwanderer.com";
     CommonWanderer.session_get := λ _, None;
     CommonWanderer.requests_get := λ _, Some [] |}.

Definition cw_page : string := "https://www.thecommonwanderer.com/sri-lanka".

(** The same site with one page that answers; its links are [hrefs]. *)
Definition cw_env_page (hrefs : list string) : CommonWanderer.Env :=
  {| CommonWanderer.rp_can_fetch := λ _, Some true;
     CommonWanderer.same_site := CommonWanderer.same_site cw_env;
     CommonWanderer.url_resolve := CommonWanderer.url_resolve cw_env;
     CommonWanderer.session_get :=
       λ u, if String.eqb u cw_page
            then Some {| CommonWanderer.soup_title := "Sri Lanka";
                         CommonWanderer.soup_datetime := EmptyString;
                         CommonWanderer.soup_main :=
                           Some ("Two weeks in Sri Lanka", []) |}
            else None;
     CommonWanderer.requests_get := λ _, Some hrefs |}.

(** The page graph of the spec's example: A links to B, C and D, and B links
    back to A. *)
Definition page_of (links : list string) : ScrapeSrilanka.Soup :=
  {| ScrapeSrilanka.soup_title := EmptyString;
     ScrapeSrilanka.soup_text := EmptyString;
     ScrapeSrilanka.soup_hrefs := links;
     ScrapeSrilanka.soup_img_srcs := [] |}.

Definition graph_env : ScrapeSrilanka.Env :=
  {| ScrapeSrilanka.rp_can_fetch := λ _, Some true;
     ScrapeSrilanka.netloc := λ _, "www.srilanka.travel";
     ScrapeSrilanka.registered_domain := "srilanka.travel";
     ScrapeSrilanka.url_resolve := resolve;
     ScrapeSrilanka.session_get :=
       λ u, if String.eqb u "https://www.srilanka.travel/a"
            then Some (page_of ["/b"; "/c"; "/d"])
            else if String.eqb u "https://www.srilanka.travel/b"
            then Some (page_of ["/a"])
            else Some (page_of []);
     ScrapeSrilanka.image_get := λ _, None;
     ScrapeSrilanka.out_path_for := λ _ u, u;
     ScrapeSrilanka.file_open := λ _, Some ();
     ScrapeSrilanka.file_write := λ _ _, Some () |}.

(** A robots parser whose [read] raises. *)
Definition rp_unreadable : RobotsGate.Parser :=
  {| RobotsGate.rp_read := None;
     RobotsGate.rp_can_fetch := λ _ _, Some false |}.

(** A server that answers every request with 503. *)
Definition server_503 (attempt : Z) : Ella.Response :=
  Ella.Status 503 "Service Unavailable".

End Fixture.

(** Case analysis on the branch an iteration of scrape_srilanka.py's loop
    took: the four [continue]s and the page, then the exception. *)
Ltac iteration_inv H :=
  inversion H as [url q' Hq Hvis Hs
                 |url q' Hq Hvis Hdom Hs
                 |url q' Hq Hvis Hdom Hrob Hs
                 |url q' Hq Hvis Hdom Hrob Hget Hs
                 |url q' soup Hq Hvis Hdom Hrob Hget Hraise Hs
                 |url q' soup imgs links Hq Hvis Hdom Hrob Hget Himgs Hlinks Hs];
  subst; clear H.

Ltac iteration_cases H :=
  first [ destruct H as [H|H]; iteration_inv H | iteration_inv H ].

(** ** More on the event log of [get_page] *)

Module EllaLog.

(** The waits before the requests (line 46), in order. *)
Definition delays (evs : list Ella.Event) : list Z :=
  omap (λ e, match e with Ella.Delay n => Some n | _ => None end) evs.

(** The waits after a 403 (line 51), in order. *)
Definition forbidden_waits (evs : list Ella.Event) : list Z :=
  omap (λ e, match e with Ella.ForbiddenWait n => Some n | _ => None end) evs.

(** The attempt goes on to the next one: a 403 ([continue], line 52), a
    status that [raise_for_status] raises on other than 404, or an exception
    of [session.get]. *)
Definition goes_on (r : Ella.Response) : bool :=
  match r with
  | Ella.Status code _ =>
      (code =? 403)%Z || (negb (code =? 404)%Z && Ella.raises_for_status code)
  | _ => true
  end.

(** What an attempt that does not go on returns: [None] for a 404 (line 55),
    the page otherwise (line 58). *)
Definition returned (r : Ella.Response) : option string :=
  match r with
  | Ella.Status code content => if (code =? 404)%Z then None else Some content
  | _ => None
  end.

(** The wait after an attempt that goes on: 5 seconds after a 403, else
    the backoff of line 68, which the last attempt skips. *)
Definition wait_after (max_retries attempt : Z) (r : Ella.Response)
    : list Ella.Event :=
  let backoff :=
    if (attempt <? max_retries - 1)%Z
    then [Ella.Backoff (5 * (attempt + 1))] else [] in
  match r with
  | Ella.Status code _ =>
      if (code =? 403)%Z then [Ella.ForbiddenWait 5] else backoff
  | _ => backoff
  end.

(** The events of the attempt number [k] when it fails and is retried:
    the wait before the request, the request, and the backoff, which the
    last attempt does not take. *)
Definition failed_attempt (url : string) (max_retries k : Z)
    : list Ella.Event :=
  [Ella.Delay (2 + k); Ella.Get url]
    ++ (if (k <? max_retries - 1)%Z then [Ella.Backoff (5 * (k + 1))] else []).

(** A server that fails twice, with a 503 and a timeout, and then answers. *)
Definition server_recovers (attempt : Z) : Ella.Response :=
  if (attempt =? 0)%Z then Ella.Status 503 "Service Unavailable"
  else if (attempt =? 1)%Z then Ella.Timeout
  else Ella.Status 200 "<html>Ella</html>".

(** A server that answers 403 to everything. *)
Definition server_403 (attempt : Z) : Ella.Response :=
  Ella.Status 403 "Forbidden".

(** A server that fails once and then has no such page. *)
Definition server_gone (attempt : Z) : Ella.Response :=
  if (attempt =? 0)%Z then Ella.ConnectionError
  else Ella.Status 404 "Not Found".

End EllaLog.

(** ** More on the request log of scrape_srilanka.py *)

(** The image GETs of a request log, in order. *)
Definition image_gets (log : list ScrapeSrilanka.Request) : list string :=
  omap (λ r, match r with
             | ScrapeSrilanka.ImageGet u => Some u
             | ScrapeSrilanka.PageGet _ => None
             end) log.

(** The fixture's configuration with [DOWNLOAD_IMAGES = False]. *)
Definition cfg_no_images : ScrapeSrilanka.Config :=
  {| ScrapeSrilanka.MAX_PAGES := 3; ScrapeSrilanka.DOWNLOAD_IMAGES := false |}.

(** Two pages of another site, and one of the site. *)
Definition cw_off_site : list string :=
  ["https://example.com/a"; "https://example.com/b"].

Definition cw_on_site : list string :=
  ["https://www.thecommonwanderer.com/sri-lanka"].

(** ** More Python string and list operations *)

Module PyStr2.

(** [sub in s] *)
Fixpoint contains (s sub : string) : bool :=
  if PyStr.startswith s sub then true
  else match s with
       | EmptyString => false
       | String _ s' => contains s' sub
       end.

(** [c.isspace()], which is also what [\s] matches, for the characters
    below U+0100: TAB to CR, FS to US, space, NEL and the no-break space. *)
Definition is_space (c : ascii) : bool :=
  let n := N_of_ascii c in
  ((9 <=? n) && (n <=? 13) || (28 <=? n) && (n <=? 32)
   || (n =? 133) || (n =? 160))%N.

(** [s.lstrip()] *)
Fixpoint lstrip (s : string) : string :=
  match s with
  | EmptyString => EmptyString
  | String c s' => if is_space c then lstrip s' else s
  end.

(** [s.rstrip()] *)
Fixpoint rstrip (s : string) : string :=
  match s with
  | EmptyString => EmptyString
  | String c s' =>
      match rstrip s' with
      | EmptyString => if is_space c then EmptyString else String c EmptyString
      | r => String c r
      end
  end.

(** [s.strip()] *)
Definition strip (s : string) : string := rstrip (lstrip s).

(** [sep.join(l)] *)
Fixpoint join (sep : string) (l : list string) : string :=
  match l with
  | [] => EmptyString
  | [x] => x
  | x :: rest => x +:+ sep +:+ join sep rest
  end.

(** [l[:n]] for any integer [n]: a negative [n] counts from the end. *)
Definition slice_list {A : Type} (n : Z) (l : list A) : list A :=
  if (n <? 0)%Z then take (length l - Z.to_nat (- n)) l
  else take (Z.to_nat n) l.

(** The first character of a string, if any. *)
Definition first_char (s : string) : option ascii :=
  match s with
  | EmptyString => None
  | String c _ => Some c
  end.

(** The last character of a string, if any. *)
Fixpoint last_char (s : string) : option ascii :=
  match s with
  | EmptyString => None
  | String c EmptyString => Some c
  | String _ s' => last_char s'
  end.

End PyStr2.

(** ** scrape/ella_travel_guide.py: [extract_images] and
       [flatten_data_for_csv] *)

Module EllaImages.

(** An <img> tag, as [extract_images] reads it. *)
Record ImgTag := {
  tag_src : option string;
    (* [img.get('src') or img.get('data-src') or img.get('data-lazy-src')] *)
  tag_alt : string;      (* [img.get('alt', '')] *)
  tag_title : string;    (* [img.get('title', '')] *)
  tag_width : string;    (* [img.get('width', '')] *)
  tag_height : string    (* [img.get('height', '')] *)
}.

(** The dict that [extract_images] builds for an image (lines 95-101). *)
Record Image := {
  url : string;
  alt : string;
  title : string;
  width : string;
  height : string
}.

(** [self.base_url] (line 22) *)
Definition base_url : string := "https://www.tripadvisor.com".

(** lines 84-89: the URL formats; [None] is the [continue] of line 89 *)
Definition absolute_src (src : string) : option string :=
  if PyStr.startswith src "//" then Some ("https:" +:+ src)
  else if PyStr.startswith src "/" then Some (base_url +:+ src)
  else if negb (PyStr.startswith src "http") then None
  else Some src.

(** line 92: [any(dim in src for dim in ['16x16', '32x32', 'icon', 'logo'])] *)
Definition looks_like_icon (src : string) : bool :=
  existsb (PyStr2.contains src) ["16x16"; "32x32"; "icon"; "logo"].

(** lines 80-101: the loop over the tags *)
Fixpoint images_of_tags (tags : list ImgTag) : list Image :=
  match tags with
  | [] => []
  | img :: rest =>
      match tag_src img with
      | Some src =>
          if PyStr.truthy src then
            match absolute_src src with
            | Some src' =>
                if looks_like_icon src' then images_of_tags rest
                else {| url := src';
                        alt := PyStr2.strip (tag_alt img);
                        title := PyStr2.strip (tag_title img);
                        width := tag_width img;
                        height := tag_height img |} :: images_of_tags rest
            | None => images_of_tags rest
            end
          else images_of_tags rest
      | None => images_of_tags rest
      end
  end.

(** lines 73-103; [soup] is [None] or the <img> tags of the element, in
    document order ([soup.find_all('img')]) *)
Definition extract_images (soup : option (list ImgTag)) (limit : Z)
    : list Image :=
  match soup with
  | None => []
  | Some img_tags => images_of_tags (PyStr2.slice_list limit img_tags)
  end.

(** [limit=10], the default of the signature (line 73). *)
Definition default_limit : Z := 10.

(** A value of an item of [self.all_data]. *)
Inductive Value :=
  | VStr (s : string)
  | VInt (n : Z)
  | VImages (imgs : list Image).

(** The truth value of a value. *)
Definition value_truthy (v : Value) : bool :=
  match v with
  | VStr s => PyStr.truthy s
  | VInt n => negb (n =? 0)%Z
  | VImages imgs => match imgs with [] => false | _ => true end
  end.

(** [' | '.join(filter(None, l))] *)
Definition join_nonempty (l : list string) : string :=
  PyStr2.join " | " (List.filter PyStr.truthy l).

(** lines 675-701: one item; [None] when the item's ['images'] is truthy
    and yet no list of images, which makes line 682 or 683 raise *)
Definition flatten_row (item : gmap string Value) : option (gmap string Value) :=
  let finish (row : gmap string Value) := delete "images" row in
  match item !! "images" with
  | Some v =>
      if value_truthy v then
        match v with
        | VImages imgs =>
            let first5 := PyStr2.slice_list 5 imgs in
            Some (finish
              (<["total_images" := VInt (Z.of_nat (length imgs))]>
              (<["image_titles" := VStr (join_nonempty (title <$> first5))]>
              (<["image_alt_texts" := VStr (join_nonempty (alt <$> first5))]>
              (<["image_urls" := VStr (join_nonempty (url <$> first5))]>
                 item)))))
        | _ => None
        end
      else
        Some (finish
          (<["total_images" := VInt 0]>
          (<["image_titles" := VStr EmptyString]>
          (<["image_alt_texts" := VStr EmptyString]>
          (<["image_urls" := VStr EmptyString]> item)))))
  | None =>
      Some (<["total_images" := VInt 0]>
           (<["image_titles" := VStr EmptyString]>
           (<["image_alt_texts" := VStr EmptyString]>
           (<["image_urls" := VStr EmptyString]> item))))
  end.

(** lines 671-703 *)
Definition flatten_data_for_csv (all_data : list (gmap string Value))
    : option (list (gmap string Value)) :=
  mapM flatten_row all_data.

(** The keys that [flatten_data_for_csv] writes or deletes. *)
Definition touched_keys : list string :=
  ["images"; "image_urls"; "image_alt_texts"; "image_titles"; "total_images"].

(** The images list of an item, [[]] when it has none. *)
Definition images_of (item : gmap string Value) : list Image :=
  match item !! "images" with
  | Some (VImages imgs) => imgs
  | _ => []
  end.

(** The item's ['images'], when there is one, is a list of images. *)
Definition well_formed (item : gmap string Value) : bool :=
  match item !! "images" with
  | Some (VImages _) | None => true
  | Some _ => false
  end.

(** Some <img> tags: an icon, a rooted path, a protocol-relative URL, a
    relative path, a tag without source, an absolute URL. *)
Definition sample_tags : list ImgTag :=
  [ {| tag_src := Some "https://static.tacdn.com/img2/icon.png";
       tag_alt := EmptyString; tag_title := EmptyString;
       tag_width := "16"; tag_height := "16" |};
    {| tag_src := Some "/img/ella-rock.jpg";
       tag_alt := "  Ella Rock "; tag_title := EmptyString;
       tag_width := "640"; tag_height := "480" |};
    {| tag_src := Some "//media.tacdn.com/nine-arch.jpg";
       tag_alt := "Nine Arch Bridge"; tag_title := " Bridge";
       tag_width := EmptyString; tag_height := EmptyString |};
    {| tag_src := Some "img/relative.jpg";
       tag_alt := EmptyString; tag_title := EmptyString;
       tag_width := EmptyString; tag_height := EmptyString |};
    {| tag_src := None;
       tag_alt := EmptyString; tag_title := EmptyString;
       tag_width := EmptyString; tag_height := EmptyString |};
    {| tag_src := Some "https://media.tacdn.com/falls.jpg";
       tag_alt := "Ravana Falls"; tag_title := EmptyString;
       tag_width := EmptyString; tag_height := EmptyString |} ].

(** An item with images, as [scrape_hotels] builds them, and one without,
    as [scrape_flights_cruises] does. *)
Definition sample_items : list (gmap string Value) :=
  [ <["section" := VStr "Hotels"]>
      (<["title" := VStr "98 Acres Resort"]>
      (<["images" := VImages (extract_images (Some sample_tags) 5)]> ∅));
    <["section" := VStr "Flights"]>
      (<["title" := VStr "Flights to Ella, Sri Lanka"]> ∅) ].

End EllaImages.

(** ** scrape/sl_tourism_scrape.py: [safe_filename], and the order-keeping
       deduplication of [collect_attraction_links] and [parse_listing] *)

Module PyStr3.

(** [all(p(c) for c in s)] *)
Fixpoint all_chars (p : ascii -> bool) (s : string) : bool :=
  match s with
  | EmptyString => true
  | String c s' => p c && all_chars p s'
  end.

(** [s.lstrip('_')] *)
Fixpoint lstrip_underscores (s : string) : string :=
  match s with
  | EmptyString => EmptyString
  | String c s' => if Ascii.eqb c "_" then lstrip_underscores s' else s
  end.

(** [s.rstrip('_')] *)
Fixpoint rstrip_underscores (s : string) : string :=
  match s with
  | EmptyString => EmptyString
  | String c s' =>
      match rstrip_underscores s' with
      | EmptyString =>
          if Ascii.eqb c "_" then EmptyString else String c EmptyString
      | r => String c r
      end
  end.

(** [s.strip('_')] *)
Definition strip_underscores (s : string) : string :=
  rstrip_underscores (lstrip_underscores s).

(** [s.split(c)[0]]: the part of [s] before its first [c] *)
Fixpoint before_char (c : ascii) (s : string) : string :=
  match s with
  | EmptyString => EmptyString
  | String d s' =>
      if Ascii.eqb d c then EmptyString else String d (before_char c s')
  end.

End PyStr3.

Module SlTourism.

(** The nine characters of the class replaced on line 48: colon,
    backslash, slash, star, question mark, double quote (code 34), the two
    angle brackets and the bar. *)
Definition is_reserved (c : ascii) : bool :=
  existsb (Ascii.eqb c)
    [":"; "\"; "/"; "*"; "?"; ascii_of_N 34; "<"; ">"; "|"]%char.

(** line 48: each reserved character becomes an underscore *)
Fixpoint sub_reserved (s : string) : string :=
  match s with
  | EmptyString => EmptyString
  | String c s' =>
      String (if is_reserved c then "_"%char else c) (sub_reserved s')
  end.

(** [re.sub(r'\s+', '_', s)], from a place inside a run of white space
    ([in_run]) or not: each run becomes one underscore *)
Fixpoint sub_spaces_from (in_run : bool) (s : string) : string :=
  match s with
  | EmptyString => EmptyString
  | String c s' =>
      if PyStr2.is_space c then
        if in_run then sub_spaces_from true s'
        else String "_" (sub_spaces_from true s')
      else String c (sub_spaces_from false s')
  end.

Definition sub_spaces (s : string) : string := sub_spaces_from false s.

Section SafeFilename.
(** [urllib.parse.unquote] *)
Variable unquote : string -> string.

(** lines 46-50 *)
Definition safe_filename (s : string) : string :=
  let s := unquote s in
  let s := sub_reserved s in
  let s := PyStr3.strip_underscores (sub_spaces s) in
  if PyStr.truthy s then PyStr.slice_to 180 s else "file".
End SafeFilename.

(** [unquote] on a string without percent escapes. *)
Definition no_escapes (s : string) : string := s.

Section Dedupe.
Context {A : Type} (key : A -> string).

(** sl_tourism_scrape.py lines 125-130 and scrape_ft_travel.py lines
    114-119: the loop, from a set [seen] and a list [out] *)
Fixpoint dedupe_from (items : list A) (seen : gset string) (out : list A)
    : list A :=
  match items with
  | [] => out
  | x :: rest =>
      if bool_decide (key x ∉ seen)
      then dedupe_from rest ({[key x]} ∪ seen) (out ++ [x])
      else dedupe_from rest seen out
  end.

Definition dedupe (items : list A) : list A := dedupe_from items ∅ [].
End Dedupe.

(** *** [collect_attraction_links] *)

(** line 28 *)
Definition BASE : string := "https://www.srilanka.travel".

(** What the code reads off a listing page ([get_soup(url)]). *)
Record ListingSoup := {
  page_numbers : list Z;
    (* lines 89-95: [int(t)] for the stripped text [t] of each <a> with
       [t.isdigit()] *)
  view_more_hrefs : list (option string);
    (* line 116: [a.get("href")] of each <a> whose string matches
       [view\s*more] *)
  attraction_hrefs : list string
    (* line 121: [tile.get("href")] of each match of [a[href*='attraction']] *)
}.

Record Env := {
  url_resolve : string -> string -> option string;
    (* [urljoin] on a non-empty base and a non-empty reference; [None]: it
       raises [ValueError] *)
  robots : string -> RobotsGate.Parser;
    (* the parser that [can_fetch_url] creates when asked about a URL *)
  get_soup : string -> option ListingSoup
    (* lines 41-44; [None]: [session.get] or [raise_for_status] raises *)
}.

Section Collect.
Variable env : Env.

(** [None] when [urljoin] raises *)
Definition urljoin : string -> string -> option string :=
  UrlLib.urljoin (url_resolve env).

(** lines 52-62, with the default [ua="*"] *)
Definition can_fetch_url (url_to_check : string) : bool :=
  RobotsGate.can_fetch_url (robots env url_to_check) url_to_check "*".

(** [max(nums)] of a non-empty list *)
Definition max_of (n : Z) (nums : list Z) : Z := foldr Z.max n nums.

(** lines 86-96; [None] when [get_soup] raises *)
Definition get_total_pages (listing_url : string) : option Z :=
  soup ← get_soup env listing_url;
  Some (match page_numbers soup with
        | [] => 1%Z
        | n :: nums => max_of n nums
        end).

(** lines 107-110 *)
Definition page_url (base : string) (p : Z) : string :=
  if (p =? 1)%Z then base else base +:+ "?page=" +:+ pretty p.

(** lines 116-119; [None] when [urljoin] raises *)
Fixpoint view_more_links (hrefs : list (option string))
    : option (list string) :=
  match hrefs with
  | [] => Some []
  | href :: rest =>
      match href with
      | Some h =>
          if PyStr.truthy h then
            u ← urljoin BASE h;
            links ← view_more_links rest;
            Some (u :: links)
          else view_more_links rest
      | None => view_more_links rest
      end
  end.

(** lines 121-122; [None] when [urljoin] raises *)
Fixpoint tile_links (hrefs : list string) : option (list string) :=
  match hrefs with
  | [] => Some []
  | h :: rest =>
      u ← urljoin BASE h;
      links ← tile_links rest;
      Some (u :: links)
  end.

(** lines 116-122: what one listing page adds to [links]; [None] when
    [urljoin] raises on one of its hrefs *)
Definition page_links (soup : ListingSoup) : option (list string) :=
  more ← view_more_links (view_more_hrefs soup);
  tiles ← tile_links (attraction_hrefs soup);
  Some (more ++ tiles).

(** lines 106-123: the loop over the page numbers.  The result is the
    list [links], or [None] when [get_soup] or [urljoin] raises, and the
    URLs that [get_soup] was called on, in order. *)
Fixpoint pages_loop (ps : list Z) (base : string) (links : list string)
    (fetched : list string) : option (list string) * list string :=
  match ps with
  | [] => (Some links, fetched)
  | p :: rest =>
      let page_url := page_url base p in
      if negb (can_fetch_url page_url) then
        pages_loop rest base links fetched
      else
        match get_soup env page_url with
        | None => (None, fetched ++ [page_url])
        | Some soup =>
            match page_links soup with
            | None => (None, fetched ++ [page_url])
            | Some new =>
                pages_loop rest base (links ++ new) (fetched ++ [page_url])
            end
        end
  end.

(** [range(1, total+1)] *)
Definition range_1 (total : Z) : list Z :=
  (fun i => Z.of_nat i) <$> seq 1 (Z.to_nat total).

(** The truth value of [max_pages], [None] or an integer. *)
Definition max_pages_truthy (max_pages : option Z) : option Z :=
  match max_pages with
  | Some m => if (m =? 0)%Z then None else Some m
  | None => None
  end.

(** lines 98-132 *)
Definition collect_attraction_links (listing_url : string)
    (max_pages : option Z) : option (list string) * list string :=
  let base := PyStr3.before_char "?" listing_url in
  match get_total_pages listing_url with
  | None => (None, [listing_url])
  | Some total =>
      let total :=
        match max_pages_truthy max_pages with
        | Some m => Z.min total m
        | None => total
        end in
      match pages_loop (range_1 total) base [] [listing_url] with
      | (Some links, fetched) => (Some (dedupe id links), fetched)
      | (None, fetched) => (None, fetched)
      end
  end.
End Collect.

(** A listing of three pages whose second page robots.txt denies. *)
Definition sample_listing : string :=
  "https://www.srilanka.travel/tourist-attractions?lang=en".

Definition sample_soup (hrefs : list string) : ListingSoup :=
  {| page_numbers := [1; 2; 3]%Z;
     view_more_hrefs := Some <$> hrefs;
     attraction_hrefs := hrefs |}.

Definition sample_env : Env :=
  {| url_resolve := fun base ref => Some (base +:+ ref);
     robots := fun _ =>
       {| RobotsGate.rp_read := Some ();
          RobotsGate.rp_can_fetch := fun _ u =>
            Some (negb (PyStr2.contains u "page=2")) |};
     get_soup := fun u =>
       if PyStr2.contains u "page=3"
       then Some (sample_soup ["/attraction/ella"; "/attraction/galle"])
       else Some (sample_soup ["/attraction/sigiriya"; "/attraction/ella"]) |}.

End SlTourism.

(** ** scrape/scrape_ft_travel.py *)

Module FtTravel.

(** lines 22-23, 27 *)
Definition BASE : string := "https://www.ft.lk".
Definition LISTING : string := "https://www.ft.lk/travel-tourism/27".
Definition IM_DIR : string := "output/images".

(** The characters that the class of line 164 keeps: letters, digits,
    underscore, hyphen and dot. *)
Definition is_name_char (c : ascii) : bool :=
  let n := N_of_ascii c in
  ((65 <=? n) && (n <=? 90) || (97 <=? n) && (n <=? 122)
   || (48 <=? n) && (n <=? 57) || (n =? 95) || (n =? 45) || (n =? 46))%N.

(** line 164: every other character becomes an underscore *)
Fixpoint sub_unsafe (s : string) : string :=
  match s with
  | EmptyString => EmptyString
  | String c s' =>
      String (if is_name_char c then c else "_"%char) (sub_unsafe s')
  end.

(** line 164 *)
Definition safe_name (title_prefix : string) : string :=
  PyStr.slice_to 120 (sub_unsafe title_prefix).

(** line 165 *)
Definition fname (title_prefix : string) (idx : nat) (ext : string)
    : string :=
  safe_name title_prefix +:+ "_" +:+ pretty idx +:+ ext.

(** lines 166 and 177: [str(IM_DIR / fname)]; the name has no slash, so
    the path is the directory, a slash and the name *)
Definition out_path (fname : string) : string := IM_DIR +:+ "/" +:+ fname.

(** [s.replace(" ", "_")] *)
Fixpoint replace_spaces (s : string) : string :=
  match s with
  | EmptyString => EmptyString
  | String c s' =>
      String (if Ascii.eqb c " " then "_"%char else c) (replace_spaces s')
  end.

(** [list(dict.fromkeys(l))]: the keys of the dict in the order in which
    they were first inserted, from the keys [d] already there *)
Fixpoint fromkeys (l : list string) (d : list string) : list string :=
  match l with
  | [] => d
  | k :: rest =>
      if bool_decide (k ∈ d) then fromkeys rest d
      else fromkeys rest (d ++ [k])
  end.

(** An article of the listing: the dict of lines 106-111. *)
Record Article := {
  title : string;
  listing_url : string;
  thumbnail_url : string;
  date : string
}.

(** The listing page: the articles that the loop over the tiles (lines
    74-113) appends, before deduplication. *)
Record ListingSoup := {
  tile_articles : list Article
}.

(** What [fetch_article_details] reads off an article page. *)
Record ArticleSoup := {
  selected : list (option string);
    (* per selector of line 140, in order: [None] when [soup.select_one(sel)]
       finds nothing, else [node.get_text("\n\n", strip=True)] *)
  paras : list string;
    (* [p.get_text(" ", strip=True)] of [soup.find_all("p")] *)
  img_srcs : list (option string)
    (* per <img>: [img.get("src") or img.get("data-src")] *)
}.

(** The dict that [fetch_article_details] returns. *)
Record Details := {
  description : string;
  article_images : list string
}.

(** A row of the CSV (lines 202-210). *)
Record Row := {
  row_title : string;
  row_date : string;
  row_listing_url : string;
  row_thumbnail_url : string;
  row_description : string;
  row_article_image_urls : string;
  row_image_files : string
}.

Inductive Request :=
  | ListingGet (url : string)    (* line 57 *)
  | ArticleGet (url : string)    (* line 129 *)
  | ImageGet (url : string).     (* line 168 *)

Record Env := {
  url_resolve : string -> string -> option string;
    (* [urljoin] on a non-empty base and a non-empty reference; [None]: it
       raises [ValueError] *)
  robots : string -> RobotsGate.Parser;
    (* the parser that [can_fetch] creates when asked about a URL *)
  local_exists : bool;           (* [os.path.exists(LOCAL_SOURCE)] *)
  local_read : option ListingSoup;
    (* lines 53-55; [None]: reading the saved page raises *)
  listing_get : option ListingSoup;
    (* lines 57-59; [None]: [session.get] or [raise_for_status] raises *)
  page_get : string -> option ArticleSoup;
    (* lines 129-130, 135; [None]: the request raises *)
  url_ext : string -> option string;
    (* [os.path.splitext(urlparse(url).path)[1]]; [None]: [urlparse] raises *)
  image_get : string -> option unit;
    (* lines 168-169; [None]: the request raises *)
  file_open : string -> option unit;
    (* line 170; [None]: [open(outp, "wb")] raises *)
  write_chunks : string -> string -> option unit
    (* lines 171-173, for a URL and a path; [None]: reading or writing a
       chunk raises *)
}.

(** The images directory and the requests made so far. *)
Record World := {
  files : gset string;
  requests : list Request
}.

Definition request (r : Request) (w : World) : World :=
  {| files := files w; requests := requests w ++ [r] |}.

Definition create (path : string) (w : World) : World :=
  {| files := {[path]} ∪ files w; requests := requests w |}.

Section Code.
Variable env : Env.

(** [None] when [urljoin] raises *)
Definition urljoin : string -> string -> option string :=
  UrlLib.urljoin (url_resolve env).

(** lines 37-47, with the default [ua="*"] *)
Definition can_fetch (url : string) : bool :=
  RobotsGate.can_fetch (robots env url) url "*".

(** lines 50-60 *)
Definition load_soup_from_local_or_web (w : World)
    : option ListingSoup * World :=
  if local_exists env then (local_read env, w)
  else (listing_get env, request (ListingGet LISTING) w).

(** lines 113-121 *)
Definition parse_listing (soup : ListingSoup) : list Article :=
  SlTourism.dedupe listing_url (tile_articles soup).

Definition empty_details : Details :=
  {| description := ""; article_images := [] |}.

(** lines 140-144: the text of the first selector that matches *)
Fixpoint first_selected (sel : list (option string)) : string :=
  match sel with
  | [] => ""
  | Some txt :: _ => txt
  | None :: rest => first_selected rest
  end.

(** Two line feeds. *)
Definition blank_line : string :=
  String (ascii_of_N 10) (String (ascii_of_N 10) EmptyString).

(** lines 137-149 *)
Definition article_body (soup : ArticleSoup) : string :=
  let body := first_selected (selected soup) in
  if negb (PyStr.truthy body) then
    match paras soup with
    | [] => body
    | _ => PyStr2.join blank_line (PyStr2.slice_list 8 (paras soup))
    end
  else body.

(** lines 151-155; [None] when [urljoin] raises *)
Fixpoint image_urls (srcs : list (option string)) : option (list string) :=
  match srcs with
  | [] => Some []
  | src :: rest =>
      match src with
      | Some s =>
          if PyStr.truthy s then
            u ← urljoin BASE s;
            imgs ← image_urls rest;
            Some (u :: imgs)
          else image_urls rest
      | None => image_urls rest
      end
  end.

(** lines 123-157.  The result is [None] when the function raises: the
    [urljoin] of line 154 is outside the [try]. *)
Definition fetch_article_details (url : string) (w : World)
    : option Details * World :=
  if negb (can_fetch url) then (Some empty_details, w)
  else
    let w := request (ArticleGet url) w in
    match page_get env url with
    | None => (Some empty_details, w)
    | Some soup =>
        (imgs ← image_urls (img_srcs soup);
         Some {| description := article_body soup;
                 article_images := fromkeys imgs [] |},
         w)
    end.

(** lines 162-179: one round of the loop; the path is [Some] when line
    177 appends it to [files] *)
Definition download_one (idx : nat) (url : string) (title_prefix : string)
    (w : World) : option string * World :=
  match url_ext env url with
  | None => (None, w)
  | Some e =>
      let ext := if PyStr.truthy e then e else ".jpg" in
      let outp := out_path (fname title_prefix idx ext) in
      if bool_decide (outp ∈ files w) then (Some outp, w)
      else
        let w := request (ImageGet url) w in
        match image_get env url with
        | None => (None, w)
        | Some _ =>
            match file_open env outp with
            | None => (None, w)
            | Some _ =>
                let w := create outp w in
                match write_chunks env url outp with
                | None => (None, w)
                | Some _ => (Some outp, w)
                end
            end
        end
  end.

(** The path that round [idx] of the loop uses for [url] (lines 163-166),
    if [urlparse] accepts the URL. *)
Definition target (title_prefix : string) (idx : nat) (url : string)
    : option string :=
  e ← url_ext env url;
  Some (out_path (fname title_prefix idx
                    (if PyStr.truthy e then e else ".jpg"))).

(** The paths of the rounds from [idx] on. *)
Fixpoint targets_from (idx : nat) (urls : list string)
    (title_prefix : string) : list (option string) :=
  match urls with
  | [] => []
  | url :: rest =>
      target title_prefix idx url :: targets_from (S idx) rest title_prefix
  end.

(** lines 161-179: the loop, from index [idx] *)
Fixpoint download_from (idx : nat) (urls : list string)
    (title_prefix : string) (acc : list string) (w : World)
    : list string * World :=
  match urls with
  | [] => (acc, w)
  | url :: rest =>
      match download_one idx url title_prefix w with
      | (Some outp, w') =>
          download_from (S idx) rest title_prefix (acc ++ [outp]) w'
      | (None, w') => download_from (S idx) rest title_prefix acc w'
      end
  end.

(** lines 159-179 *)
Definition download_images (urls : list string) (title_prefix : string)
    (max_per_item : Z) (w : World) : list string * World :=
  download_from 0 (PyStr2.slice_list max_per_item urls) title_prefix [] w.

(** lines 196-199 *)
Definition to_dl (item : Article) (details : Details) : list string :=
  (if PyStr.truthy (thumbnail_url item) then [thumbnail_url item] else [])
  ++ article_images details.

(** line 200: [item.get("title","").replace(" ","_")[:80]] *)
Definition title_prefix_of (item : Article) : string :=
  PyStr.slice_to 80 (replace_spaces (title item)).

(** lines 192-211: one round of the loop over the articles; [None] when
    [fetch_article_details] raises, which [main] does not catch *)
Definition row_of (item : Article) (download_images_flag : bool) (w : World)
    : option Row * World :=
  match fetch_article_details (listing_url item) w with
  | (None, w) => (None, w)
  | (Some details, w) =>
      let '(downloaded, w) :=
        if download_images_flag
        then download_images (to_dl item details) (title_prefix_of item) 6 w
        else ([], w) in
      (Some {| row_title := title item;
               row_date := date item;
               row_listing_url := listing_url item;
               row_thumbnail_url := thumbnail_url item;
               row_description := description details;
               row_article_image_urls :=
                 PyStr2.join " | " (article_images details);
               row_image_files := PyStr2.join " | " downloaded |},
       w)
  end.

(** lines 191-211; [None] when a round raises *)
Fixpoint rows_from (listing : list Article) (download_images_flag : bool)
    (rows : list Row) (w : World) : option (list Row) * World :=
  match listing with
  | [] => (Some rows, w)
  | item :: rest =>
      match row_of item download_images_flag w with
      | (None, w') => (None, w')
      | (Some row, w') =>
          rows_from rest download_images_flag (rows ++ [row]) w'
      end
  end.

(** How [main] ends: it returns at line 185, it raises (while loading the
    listing, or in [fetch_article_details]: nothing is saved then), or it
    reaches line 213 with [rows]. *)
Inductive Outcome :=
  | Refused
  | Crashed
  | Saved (rows : list Row).

(** The truth value of [limit], [None] or an integer. *)
Definition limit_truthy (limit : option Z) : option Z :=
  match limit with
  | Some n => if (n =? 0)%Z then None else Some n
  | None => None
  end.

(** lines 181-215 *)
Definition main (limit : option Z) (download_images_flag : bool) (w : World)
    : Outcome * World :=
  if negb (can_fetch LISTING) then (Refused, w)
  else
    match load_soup_from_local_or_web w with
    | (None, w) => (Crashed, w)
    | (Some soup, w) =>
        let listing := parse_listing soup in
        let listing :=
          match limit_truthy limit with
          | Some n => PyStr2.slice_list n listing
          | None => listing
          end in
        match rows_from listing download_images_flag [] w with
        | (Some rows, w) => (Saved rows, w)
        | (None, w) => (Crashed, w)
        end
    end.
End Code.

Definition image_requests (log : list Request) : list string :=
  omap (fun r => match r with ImageGet u => Some u | _ => None end) log.




(** [c.isdigit()] for the ASCII digits *)
Definition is_digit (c : ascii) : bool :=
  let n := N_of_ascii c in ((48 <=? n) && (n <=? 57))%N.

(** [os.path.splitext] returns an extension that is empty or starts with
    a dot. *)
Definition ext_law (env : Env) : Prop :=
  forall url e, url_ext env url = Some e ->
                e = "" \/ PyStr.startswith e "." = true.

(** A site with two articles under three tiles; robots.txt denies the
    second article, and one image cannot be fetched. *)
Definition sample_article (n : string) : Article :=
  {| title := "Ella " +:+ n;
     listing_url := "https://www.ft.lk/travel-tourism/" +:+ n;
     thumbnail_url := "https://www.ft.lk/thumb/" +:+ n +:+ ".png";
     date := "Monday" |}.

Definition sample_ext (url : string) : option string :=
  if PyStr.endswith url ".png" then Some ".png"
  else if PyStr.endswith url ".jpeg" then Some ".jpeg"
  else Some "".

Definition sample_env : Env :=
  {| url_resolve := fun base ref =>
       if String.eqb ref Fixture.malformed then None else Some (base +:+ ref);
     robots := fun _ =>
       {| RobotsGate.rp_read := Some ();
          RobotsGate.rp_can_fetch := fun _ u =>
            Some (negb (PyStr.endswith u "/b")) |};
     local_exists := false;
     local_read := None;
     listing_get :=
       Some {| tile_articles :=
                 [sample_article "a"; sample_article "b";
                  sample_article "a"] |};
     page_get := fun _ =>
       Some {| selected := [None; Some "Body text"; None; None; None];
               paras := ["p1"; "p2"];
               img_srcs := [Some "/img/1.jpeg"; None; Some "/img/broken";
                            Some "/img/1.jpeg"; Some ""] |};
     url_ext := sample_ext;
     image_get := fun u =>
       if PyStr.endswith u "broken" then None else Some ();
     file_open := fun _ => Some ();
     write_chunks := fun _ _ => Some () |}.

(** The same site, with an article page one of whose images has a
    malformed source. *)
Definition sample_env_malformed : Env :=
  {| url_resolve := url_resolve sample_env;
     robots := robots sample_env;
     local_exists := false;
     local_read := None;
     listing_get := listing_get sample_env;
     page_get := fun _ =>
       Some {| selected := [Some "Body text"];
               paras := [];
               img_srcs := [Some "/img/1.jpeg"; Some Fixture.malformed] |};
     url_ext := sample_ext;
     image_get := image_get sample_env;
     file_open := fun _ => Some ();
     write_chunks := fun _ _ => Some () |}.

Definition empty_world : World := {| files := ∅; requests := [] |}.

End FtTravel.

(** ** scrape/scrape_srilanka.py: the file name of a downloaded image *)

Module SrilankaNames.

(** line 97: [f"{base}_{i}{ext}"] *)
Definition candidate (base ext : string) (i : nat) : string :=
  base +:+ "_" +:+ pretty i +:+ ext.

(** lines 95-98: the loop [while os.path.exists(out_path)], for at most
    [fuel] tests of the condition; [None] when they do not suffice *)
Fixpoint avoid_collisions (fuel : nat) (fs : gset string)
    (base ext : string) (i : nat) (out_path : string) : option string :=
  match fuel with
  | 0 => None
  | S fuel =>
      if bool_decide (out_path ∈ fs)
      then avoid_collisions fuel fs base ext (S i) (candidate base ext i)
      else Some out_path
  end.

(** lines 93-98, [base] and [ext] being [os.path.splitext(out_path)] *)
Definition fresh_path (fuel : nat) (fs : gset string)
    (out_path base ext : string) : option string :=
  avoid_collisions fuel fs base ext 1 out_path.

End SrilankaNames.

(** ** scrape/sl_tourism_scrape.py: [parse_attraction_page] and [main] *)

Module PyStr4.

(** [c.lower()] for the characters below U+0100: the letters A to Z and
    the accented capitals U+00C0 to U+00DE, the multiplication sign
    excepted, move up by 32. *)
Definition lower_char (c : ascii) : ascii :=
  let n := N_of_ascii c in
  if ((65 <=? n) && (n <=? 90) || (192 <=? n) && (n <=? 214)
      || (216 <=? n) && (n <=? 222))%N
  then ascii_of_N (n + 32) else c.

(** [s.lower()] *)
Fixpoint lower (s : string) : string :=
  match s with
  | EmptyString => EmptyString
  | String c s' => String (lower_char c) (lower s')
  end.

(** [if x not in l: l.append(x)] *)
Definition add_new (x : string) (l : list string) : list string :=
  if bool_decide (x ∈ l) then l else l ++ [x].

End PyStr4.

Module SlAttraction.

(** line 30 *)
Definition IMAGES_DIR : string := "output/images".

(** What the code reads off the home page (lines 67-73 and 78-82): for
    each <a> with an href, the href and [a.get_text(" ", strip=True)]. *)
Record HomeSoup := {
  anchors : list (string * string)
}.

(** What [parse_attraction_page] reads off an attraction page. *)
Record Soup := {
  title : option string;
    (* lines 146-147; [None]: [soup.title.string] is [None] and its
       [strip()] raises *)
  breadcrumb : string;            (* lines 150-161 *)
  description : string;           (* lines 163-177 *)
  img_srcs : list (option string);
    (* per <img>: [img.get("src") or img.get("data-src")] *)
  hrefs : list string;
    (* [a['href']] of [soup.find_all("a", href=True)] *)
  emails_found : list string;     (* line 199: [re.findall] *)
  phones_found : list string      (* line 200: [re.findall] *)
}.

(** The dict that [parse_attraction_page] returns (lines 230-240). *)
Record Item := {
  source_url : string;
  item_title : string;
  item_breadcrumb : string;
  item_description : string;
  image_urls : list string;
  image_files : list string;
  emails : list string;
  phones : list string;
  external_urls : list string
}.

Inductive Request :=
  | PageGet (url : string)      (* [get_soup] *)
  | ImageGet (url : string).    (* line 219 *)

Record Env := {
  listing_env : SlTourism.Env;
    (* [urljoin], robots.txt and the listing pages *)
  unquote : string -> string;
  home_get : nat -> option HomeSoup;
    (* [get_soup(BASE)], by the number of the call; [None]: it raises *)
  attraction_get : string -> option Soup;
    (* line 140; [None]: [get_soup] raises *)
  url_ext : string -> option string;
    (* [os.path.splitext(urlparse(url).path)[1]]; [None]: [urlparse] raises *)
  image_get : string -> option unit;
    (* lines 219-220; [None]: the request raises *)
  file_open : string -> option unit;
    (* line 221; [None]: [open(outpath, "wb")] raises *)
  write_chunks : string -> string -> option unit
    (* lines 222-224, for a URL and a path; [None]: a chunk raises *)
}.

(** The images directory and the requests made so far. *)
Record World := {
  files : gset string;
  requests : list Request
}.

Definition request (r : Request) (w : World) : World :=
  {| files := files w; requests := requests w ++ [r] |}.

Definition create (path : string) (w : World) : World :=
  {| files := {[path]} ∪ files w; requests := requests w |}.

Section Code.
Variable env : Env.

(** [None] when [urljoin] raises *)
Definition urljoin : string -> string -> option string :=
  SlTourism.urljoin (listing_env env).

Definition can_fetch_url : string -> bool :=
  SlTourism.can_fetch_url (listing_env env).

(** lines 180-187; [None] when [urljoin] raises *)
Fixpoint images_from_srcs (srcs : list (option string))
    (images : list string) : option (list string) :=
  match srcs with
  | [] => Some images
  | src :: rest =>
      match src with
      | Some s =>
          if PyStr.truthy s then
            u ← urljoin SlTourism.BASE s;
            images_from_srcs rest (PyStr4.add_new u images)
          else images_from_srcs rest images
      | None => images_from_srcs rest images
      end
  end.

(** line 192: [href.lower().endswith(('.jpg', '.jpeg', '.png', '.webp',
    '.gif'))] *)
Definition is_image_link (href : string) : bool :=
  existsb (PyStr.endswith (PyStr4.lower href))
    [".jpg"; ".jpeg"; ".png"; ".webp"; ".gif"].

(** lines 189-194; [None] when [urljoin] raises *)
Fixpoint images_from_hrefs (hrefs : list string) (images : list string)
    : option (list string) :=
  match hrefs with
  | [] => Some images
  | href :: rest =>
      if is_image_link href then
        u ← urljoin SlTourism.BASE href;
        images_from_hrefs rest (PyStr4.add_new u images)
      else images_from_hrefs rest images
  end.

(** lines 179-194: the list [images]; [None] when [urljoin] raises *)
Definition page_images (soup : Soup) : option (list string) :=
  images ← images_from_srcs (img_srcs soup) [];
  images_from_hrefs (hrefs soup) images.

(** lines 203-208 *)
Fixpoint external_from (hrefs : list string) (external_urls : list string)
    : list string :=
  match hrefs with
  | [] => external_urls
  | href :: rest =>
      if PyStr.startswith href "http"
         && negb (PyStr2.contains href SlTourism.BASE)
      then external_from rest (PyStr4.add_new href external_urls)
      else external_from rest external_urls
  end.

(** lines 215-217: the path of image [idx] *)
Definition outpath_of (title : string) (idx : nat) (ext : string) : string :=
  IMAGES_DIR +:+ "/"
  +:+ (SlTourism.safe_filename (unquote env) (title +:+ "_" +:+ pretty idx)
       +:+ ext).

(** lines 213-228: one round of the loop; the path is [Some] when line
    226 appends it to [downloaded] *)
Definition download_one (idx : nat) (img_url : string) (title : string)
    (w : World) : option string * World :=
  match url_ext env img_url with
  | None => (None, w)
  | Some e =>
      let ext := if PyStr.truthy e then e else ".jpg" in
      let outpath := outpath_of title idx ext in
      if bool_decide (outpath ∈ files w) then (Some outpath, w)
      else
        let w := request (ImageGet img_url) w in
        match image_get env img_url with
        | None => (None, w)
        | Some _ =>
            match file_open env outpath with
            | None => (None, w)
            | Some _ =>
                let w := create outpath w in
                match write_chunks env img_url outpath with
                | None => (None, w)
                | Some _ => (Some outpath, w)
                end
            end
        end
  end.

(** lines 213-228: the loop, from index [idx] *)
Fixpoint download_from (idx : nat) (images : list string) (title : string)
    (downloaded : list string) (w : World) : list string * World :=
  match images with
  | [] => (downloaded, w)
  | img_url :: rest =>
      match download_one idx img_url title w with
      | (Some outpath, w') =>
          download_from (S idx) rest title (downloaded ++ [outpath]) w'
      | (None, w') => download_from (S idx) rest title downloaded w'
      end
  end.

(** lines 134-240.  The result is [None] when the function raises (line
    147 on a page without a usable title, or [urljoin] at lines 184 and
    192, none of them in a [try]), [Some None] when it returns [None],
    [Some (Some item)] otherwise. *)
Definition parse_attraction_page (url : string) (download_images : bool)
    (max_images_per_attraction : Z) (w : World)
    : option (option Item) * World :=
  if negb (can_fetch_url url) then (Some None, w)
  else
    let w := request (PageGet url) w in
    match attraction_get env url with
    | None => (Some None, w)
    | Some soup =>
        match title soup with
        | None => (None, w)
        | Some title =>
          match page_images soup with
          | None => (None, w)
          | Some images =>
            let emails := FtTravel.fromkeys (emails_found soup) [] in
            let phones := FtTravel.fromkeys (phones_found soup) [] in
            let external_urls := external_from (hrefs soup) [] in
            let '(downloaded, w) :=
              if download_images
              then download_from 0
                     (PyStr2.slice_list max_images_per_attraction images)
                     title [] w
              else ([], w) in
            (Some (Some {| source_url := url;
                           item_title := title;
                           item_breadcrumb := breadcrumb soup;
                           item_description := description soup;
                           image_urls := images;
                           image_files := downloaded;
                           emails := emails;
                           phones := phones;
                           external_urls := external_urls |}),
             w)
          end
        end
    end.

(** line 66 *)
Definition categories : list string :=
  ["Wild"; "Pristine"; "Bliss"; "Scenic"; "Thrills"; "Festive"; "Heritage";
   "Essence"].

(** lines 70-72: the loop over the categories for one anchor; [None]
    when [urljoin] raises *)
Fixpoint note_categories (cats : list string) (href text : string)
    (found : gmap string string) : option (gmap string string) :=
  match cats with
  | [] => Some found
  | cat :: rest =>
      if PyStr2.contains text (PyStr4.lower cat)
         && bool_decide (found !! cat = None)
      then
        u ← urljoin SlTourism.BASE href;
        note_categories rest href text (<[cat := u]> found)
      else note_categories rest href text found
  end.

(** lines 68-72; [None] when [urljoin] raises *)
Fixpoint categories_from (anchors : list (string * string))
    (found : gmap string string) : option (gmap string string) :=
  match anchors with
  | [] => Some found
  | (href, text) :: rest =>
      found' ← note_categories categories href (PyStr4.lower text) found;
      categories_from rest found'
  end.

(** lines 64-74, as call number [n] of [get_soup(BASE)]; [None]: raises *)
Definition find_category_links (n : nat) : option (gmap string string) :=
  soup ← home_get env n;
  categories_from (anchors soup) ∅.

(** lines 79-82: the href of the first anchor that matches, if any *)
Fixpoint first_attractions_link (anchors : list (string * string))
    : option string :=
  match anchors with
  | [] => None
  | (href, _) :: rest =>
      if PyStr2.contains (PyStr4.lower href) "attract"
      then Some href
      else first_attractions_link rest
  end.

(** lines 76-84, as call number [n] of [get_soup(BASE)]; [None]: raises *)
Definition find_attractions_listing (n : nat) : option string :=
  soup ← home_get env n;
  match first_attractions_link (anchors soup) with
  | Some href => urljoin SlTourism.BASE href
  | None => urljoin SlTourism.BASE "/tourist-attractions"
  end.

(** lines 304-309: the loop over the links; [None] when
    [parse_attraction_page] raises *)
Fixpoint results_from (links : list string) (results : list Item)
    (w : World) : option (list Item) * World :=
  match links with
  | [] => (Some results, w)
  | link :: rest =>
      match parse_attraction_page link true 2 w with
      | (None, w') => (None, w')
      | (Some (Some item), w') => results_from rest (results ++ [item]) w'
      | (Some None, w') => results_from rest results w'
      end
  end.

(** How [main] ends: it returns at line 294, it raises, or it reaches
    line 311 with [results]. *)
Inductive Outcome :=
  | Refused
  | Crashed
  | Collected (results : list Item).

(** lines 281-328, up to the list [results] *)
Definition main (w : World) : Outcome * World :=
  let w := request (PageGet SlTourism.BASE) w in
  match find_category_links 0 with
  | None => (Crashed, w)
  | Some _ =>
      let w := request (PageGet SlTourism.BASE) w in
      match find_attractions_listing 1 with
      | None => (Crashed, w)
      | Some listing =>
          if negb (can_fetch_url listing) then (Refused, w)
          else
            let '(links, fetched) :=
              SlTourism.collect_attraction_links (listing_env env) listing
                None in
            let w := {| files := files w;
                        requests := requests w ++ (PageGet <$> fetched) |} in
            match links with
            | None => (Crashed, w)
            | Some attraction_links =>
                match results_from attraction_links [] w with
                | (None, w) => (Crashed, w)
                | (Some results, w) => (Collected results, w)
                end
            end
      end
  end.
End Code.

Definition page_requests (log : list Request) : list string :=
  omap (fun r => match r with PageGet u => Some u | _ => None end) log.

Definition image_requests (log : list Request) : list string :=
  omap (fun r => match r with ImageGet u => Some u | _ => None end) log.

(** A site: the home page links to the sample listing of [SlTourism]; the
    page of Galle has no usable title, and one photo cannot be fetched. *)
Definition sample_env : Env :=
  {| listing_env := SlTourism.sample_env;
     unquote := SlTourism.no_escapes;
     home_get := fun _ =>
       Some {| anchors := [("/wild", "Wild Sri Lanka");
                           ("/tourist-attractions?lang=en", "Attractions")] |};
     attraction_get := fun u =>
       Some {| title := if PyStr.endswith u "galle" then None
                        else Some "Ella | Hill Country";
               breadcrumb := "Hill Country";
               description := "A small town.";
               img_srcs := [Some "/img/ella.JPG"; None; Some "/img/ella.JPG"];
               hrefs := ["/photos/rock.PNG"; "https://example.org/ella";
                         "https://www.srilanka.travel/wild";
                         "https://example.org/ella"];
               emails_found := ["info@example.org"; "info@example.org"];
               phones_found := [] |};
     url_ext := fun u => if PyStr.endswith u ".PNG" then Some ".PNG"
                         else Some "";
     image_get := fun u => if PyStr.endswith u ".PNG" then None else Some ();
     file_open := fun _ => Some ();
     write_chunks := fun _ _ => Some () |}.

Definition empty_world : World := {| files := ∅; requests := [] |}.

End SlAttraction.

(** * Properties *)

(** ** Strings *)

Lemma append_cons (c : ascii) (a b : string) :
  String c a +:+ b = String c (a +:+ b).
Proof. reflexivity. Qed.

Lemma slice_to_length (n : N) (s : string) :
  String.length (PyStr.slice_to n s) <= N.to_nat n.
Proof.
  revert n. induction s as [|c s IH]; intros n; simpl; [lia|].
  destruct (N.eqb_spec n 0); simpl; [lia|].
  specialize (IH (N.pred n)). lia.
Qed.

Lemma slice_to_prefix (n : N) (s : string) :
  exists rest, s = PyStr.slice_to n s +:+ rest.
Proof.
  revert n. induction s as [|c s IH]; intros n; simpl.
  - by exists EmptyString.
  - destruct (n =? 0)%N; [by exists (String c s)|].
    destruct (IH (N.pred n)) as [rest Hrest]. exists rest.
    by rewrite append_cons, <- Hrest.
Qed.

Lemma split_hash_0_no_hash (s : string) :
  PyStr.has_hash (PyStr.split_hash_0 s) = false.
Proof.
  induction s as [|c s IH]; simpl; [done|].
  destruct (Ascii.eqb c "#") eqn:E; simpl; [done|]. by rewrite E.
Qed.

Lemma split_hash_0_prefix (s : string) :
  exists rest, s = PyStr.split_hash_0 s +:+ rest.
Proof.
  induction s as [|c s [rest IH]]; simpl.
  - by exists EmptyString.
  - destruct (Ascii.eqb c "#"); [by exists (String c s)|].
    exists rest. by rewrite append_cons, <- IH.
Qed.

(** Cutting at the first ['#'] forgets the fragment. *)
Lemma split_hash_0_fragment (u frag : string) :
  PyStr.has_hash u = false ->
  PyStr.split_hash_0 (u +:+ String "#" frag) = u.
Proof.
  induction u as [|c u IH]; intros H.
  - change (EmptyString +:+ String "#" frag) with (String "#" frag). done.
  - rewrite append_cons. simpl in *.
    destruct (Ascii.eqb c "#"); [done|]. by rewrite IH.
Qed.

Lemma urljoin_empty (resolve : string -> string -> option string)
    (base : string) :
  UrlLib.urljoin resolve base EmptyString = Some base.
Proof. unfold UrlLib.urljoin. by destruct base. Qed.

(** ** The normalizers *)

Lemma normalize_url_some (env : ScrapeSrilanka.Env) (base l : string) :
  l <> EmptyString ->
  PyStr.startswith l "javascript:" = false ->
  PyStr.startswith l "mailto:" = false ->
  PyStr.startswith l "tel:" = false ->
  ScrapeSrilanka.normalize_url env base (Some l)
  = u ← ScrapeSrilanka.urljoin env base (PyStr.split_hash_0 l); Some (Some u).
Proof.
  intros Hl Hj Hm Ht. unfold ScrapeSrilanka.normalize_url.
  rewrite Hj, Hm, Ht. by destruct l.
Qed.

Lemma normalize_link_some (env : CommonWanderer.Env) (base l : string) :
  l <> EmptyString ->
  PyStr.startswith l "javascript:" = false ->
  PyStr.startswith l "mailto:" = false ->
  CommonWanderer.normalize_link env base l
  = u ← CommonWanderer.urljoin env base (PyStr.split_hash_0 l); Some (Some u).
Proof.
  intros Hl Hj Hm. unfold CommonWanderer.normalize_link.
  rewrite Hj, Hm. by destruct l.
Qed.

Lemma normalize_url_fragment_only (env : ScrapeSrilanka.Env) (base frag : string) :
  ScrapeSrilanka.normalize_url env base (Some (String "#" frag))
  = Some (Some base).
Proof.
  rewrite normalize_url_some by done.
  simpl. unfold ScrapeSrilanka.urljoin. by rewrite urljoin_empty.
Qed.

Lemma normalize_link_fragment_only (env : CommonWanderer.Env) (base frag : string) :
  CommonWanderer.normalize_link env base (String "#" frag) = Some (Some base).
Proof.
  rewrite normalize_link_some by done.
  simpl. unfold CommonWanderer.urljoin. by rewrite urljoin_empty.
Qed.

(** [normalize_url] returns [None] for these hrefs and for no other. *)
Lemma normalize_url_absent (env : ScrapeSrilanka.Env) (base : string)
    (link : option string) :
  ScrapeSrilanka.normalize_url env base link = Some None <->
  link = None \/ link = Some EmptyString \/
  exists l, link = Some l /\
    (PyStr.startswith l "javascript:" = true \/
     PyStr.startswith l "mailto:" = true \/
     PyStr.startswith l "tel:" = true).
Proof.
  split.
  - unfold ScrapeSrilanka.normalize_url.
    destruct link as [l|]; [|by left].
    destruct l as [|c l]; [by right; left|].
    cbn [PyStr.truthy negb].
    destruct (PyStr.startswith (String c l) "javascript:") eqn:Hj;
      [intros _; right; right; eauto 6|].
    destruct (PyStr.startswith (String c l) "mailto:") eqn:Hm;
      [intros _; right; right; eauto 6|].
    destruct (PyStr.startswith (String c l) "tel:") eqn:Ht;
      [intros _; right; right; eauto 7|].
    cbn [orb].
    by destruct (ScrapeSrilanka.urljoin env base _).
  - intros [-> | [-> | (l & -> & H)]]; [done..|].
    unfold ScrapeSrilanka.normalize_url.
    destruct l as [|c l]; [done|]. cbn [PyStr.truthy negb].
    destruct H as [-> | [-> | ->]]; by rewrite ?orb_true_r.
Qed.

Lemma normalize_link_absent (env : CommonWanderer.Env) (base l : string) :
  CommonWanderer.normalize_link env base l = Some None <->
  l = EmptyString \/ PyStr.startswith l "javascript:" = true \/
  PyStr.startswith l "mailto:" = true.
Proof.
  split.
  - unfold CommonWanderer.normalize_link.
    destruct l as [|c l]; [by left|]. cbn [PyStr.truthy negb orb].
    destruct (PyStr.startswith (String c l) "javascript:") eqn:Hj;
      [intros _; by right; left|].
    destruct (PyStr.startswith (String c l) "mailto:") eqn:Hm;
      [intros _; by right; right|].
    cbn [orb]. by destruct (CommonWanderer.urljoin env base _).
  - intros H. unfold CommonWanderer.normalize_link.
    destruct H as [-> | [-> | ->]]; [done|..]; by rewrite ?orb_true_r.
Qed.

(** C6, as the code has it.  [normalize_url] returns [None] exactly for a
    missing or empty href and for one that starts with [javascript:],
    [mailto:] or [tel:]; [normalize_link] returns [None] exactly for an
    empty href and for one that starts with [javascript:] or [mailto:].
    Any other href is cut before its first ['#'] (the part kept holds no
    ['#'] and is a prefix of the href) and handed to [urljoin] with the
    base: the function returns what [urljoin] returns, which is the base
    as given when the part kept is empty, and it raises when [urljoin]
    raises.  Nothing else is checked. *)
Theorem normalize_url_spec (env : ScrapeSrilanka.Env)
    (cwenv : CommonWanderer.Env) (base : string) (link : option string) :
  (ScrapeSrilanka.normalize_url env base link = Some None <->
     link = None \/ link = Some EmptyString \/
     exists l, link = Some l /\
       (PyStr.startswith l "javascript:" = true \/
        PyStr.startswith l "mailto:" = true \/
        PyStr.startswith l "tel:" = true)) /\
  (forall l, link = Some l ->
     ScrapeSrilanka.normalize_url env base link <> Some None ->
     ScrapeSrilanka.normalize_url env base link
     = (u ← ScrapeSrilanka.urljoin env base (PyStr.split_hash_0 l);
        Some (Some u)) /\
     PyStr.has_hash (PyStr.split_hash_0 l) = false /\
     (exists rest, l = PyStr.split_hash_0 l +:+ rest) /\
     (PyStr.split_hash_0 l = EmptyString ->
      ScrapeSrilanka.normalize_url env base link = Some (Some base))) /\
  (ScrapeSrilanka.normalize_url env base link = None <->
     exists l, link = Some l /\
       ScrapeSrilanka.normalize_url env base link <> Some None /\
       ScrapeSrilanka.urljoin env base (PyStr.split_hash_0 l) = None) /\
  (forall l,
     (CommonWanderer.normalize_link cwenv base l = Some None <->
        l = EmptyString \/ PyStr.startswith l "javascript:" = true \/
        PyStr.startswith l "mailto:" = true) /\
     (CommonWanderer.normalize_link cwenv base l <> Some None ->
        CommonWanderer.normalize_link cwenv base l
        = (u ← CommonWanderer.urljoin cwenv base (PyStr.split_hash_0 l);
           Some (Some u)) /\
        PyStr.has_hash (PyStr.split_hash_0 l) = false /\
        (PyStr.split_hash_0 l = EmptyString ->
         CommonWanderer.normalize_link cwenv base l = Some (Some base)))).
Proof.
  assert (Hsome : forall l, link = Some l ->
            ScrapeSrilanka.normalize_url env base link <> Some None ->
            ScrapeSrilanka.normalize_url env base link
            = (u ← ScrapeSrilanka.urljoin env base (PyStr.split_hash_0 l);
               Some (Some u))).
  { intros l -> Hn. apply normalize_url_some.
    - intros ->. by apply Hn.
    - destruct (PyStr.startswith l "javascript:") eqn:H; [|done].
      destruct Hn. apply normalize_url_absent. right. right. eauto.
    - destruct (PyStr.startswith l "mailto:") eqn:H; [|done].
      destruct Hn. apply normalize_url_absent. right. right. eauto 6.
    - destruct (PyStr.startswith l "tel:") eqn:H; [|done].
      destruct Hn. apply normalize_url_absent. right. right. eauto 6. }
  split_and!.
  - apply normalize_url_absent.
  - intros l Hl Hn. split_and!.
    + by apply Hsome.
    + apply split_hash_0_no_hash.
    + apply split_hash_0_prefix.
    + intros He. rewrite (Hsome l Hl Hn), He.
      unfold ScrapeSrilanka.urljoin. by rewrite urljoin_empty.
  - split.
    + intros Hnone. destruct link as [l|]; [|done]. exists l.
      assert (Hn : ScrapeSrilanka.normalize_url env base (Some l)
                   <> Some None) by (by rewrite Hnone).
      split_and!; [done|done|].
      rewrite (Hsome l eq_refl Hn) in Hnone.
      by destruct (ScrapeSrilanka.urljoin env base _).
    + intros (l & Hl & Hn & Hjoin). by rewrite (Hsome l Hl Hn), Hjoin.
  - intros l.
    assert (Hlink : CommonWanderer.normalize_link cwenv base l <> Some None ->
              CommonWanderer.normalize_link cwenv base l
              = (u ← CommonWanderer.urljoin cwenv base (PyStr.split_hash_0 l);
                 Some (Some u))).
    { intros Hn. apply normalize_link_some.
      - intros ->. by apply Hn.
      - destruct (PyStr.startswith l "javascript:") eqn:H; [|done].
        destruct Hn. apply normalize_link_absent. by right; left.
      - destruct (PyStr.startswith l "mailto:") eqn:H; [|done].
        destruct Hn. apply normalize_link_absent. by right; right. }
    split; [apply normalize_link_absent|].
    intros Hn. split_and!.
    + by apply Hlink.
    + apply split_hash_0_no_hash.
    + intros He. rewrite (Hlink Hn), He.
      unfold CommonWanderer.urljoin. by rewrite urljoin_empty.
Qed.

(** C6 fails as stated.  The page URL is handed back, fragment and all, for
    an href that is only a fragment; [normalize_link] lets a [tel:] href
    through; and on a malformed href neither function returns: the
    exception of [urljoin] comes out of it. *)
Lemma normalize_url_counterexample :
  ScrapeSrilanka.normalize_url Fixture.env
    "https://www.srilanka.travel/beaches#map" (Some "#top")
  = Some (Some "https://www.srilanka.travel/beaches#map") /\
  PyStr.has_hash "https://www.srilanka.travel/beaches#map" = true /\
  PyStr.startswith "tel:+94112437055" "tel:" = true /\
  CommonWanderer.normalize_link Fixture.cw_env
    "https://www.thecommonwanderer.com/sri-lanka" "tel:+94112437055"
  = Some (Some "tel:+94112437055") /\
  ScrapeSrilanka.normalize_url Fixture.env Fixture.home
    (Some Fixture.malformed) = None /\
  CommonWanderer.normalize_link Fixture.cw_env Fixture.cw_page
    Fixture.malformed = None.
Proof. repeat split. Qed.

(** ** [get_page]: the retry loop *)

Lemma attempts_failed (server : Z -> Ella.Response) (url : string)
    (max_retries attempt : Z) (todo : nat) :
  Ella.retryable (server attempt) = true ->
  Ella.attempts server url max_retries attempt (S todo)
  = let '(evs, r) :=
      Ella.attempts server url max_retries (attempt + 1) todo in
    ([Ella.Delay (2 + attempt); Ella.Get url]
       ++ (if (attempt <? max_retries - 1)%Z
           then [Ella.Backoff (5 * (attempt + 1))] else [])
       ++ evs, r).
Proof.
  intros Hr. cbn [Ella.attempts].
  destruct (server attempt) as [code content| | |]; try done.
  cbn in Hr. apply andb_prop in Hr as [H1 H2].
  apply Z.leb_le in H1. apply Z.ltb_lt in H2.
  destruct (Z.eqb_spec code 403); [lia|].
  destruct (Z.eqb_spec code 404); [lia|].
  unfold Ella.raises_for_status.
  destruct (Z.leb_spec 400 code); [|lia].
  destruct (Z.ltb_spec code 600); [|lia]. done.
Qed.

Lemma flat_map_seq_S {A : Type} (f : nat -> list A) (a n : nat) :
  flat_map f (seq (S a) n) = flat_map (fun k => f (S k)) (seq a n).
Proof. revert a. induction n as [|n IH]; intros a; simpl; [done|by rewrite IH]. Qed.

Lemma attempts_all_retryable (server : Z -> Ella.Response) (url : string)
    (max_retries : Z) (todo : nat) (attempt : Z) :
  (attempt + Z.of_nat todo = max_retries)%Z ->
  (forall k, (attempt <= k < max_retries)%Z -> Ella.retryable (server k) = true) ->
  Ella.attempts server url max_retries attempt todo
  = (flat_map (fun k => EllaLog.failed_attempt url max_retries (attempt + Z.of_nat k))
       (seq 0 todo), None).
Proof.
  revert attempt. induction todo as [|todo IH]; intros attempt Hsum Hall.
  - done.
  - rewrite attempts_failed by (apply Hall; lia).
    rewrite (IH (attempt + 1)%Z) by (try lia; intros; apply Hall; lia).
    cbn [seq flat_map]. rewrite flat_map_seq_S. unfold EllaLog.failed_attempt at 2.
    rewrite Z.add_0_r, <- app_assoc. do 3 f_equal.
    apply flat_map_ext. intros k. f_equal. lia.
Qed.

Lemma failed_attempts_gets (url : string) (max_retries : Z) (n : nat) :
  Ella.gets (flat_map (fun k => EllaLog.failed_attempt url max_retries (Z.of_nat k))
               (seq 0 n))
  = repeat url n.
Proof.
  generalize 0 at 1. induction n as [|n IH]; intros a; [done|].
  cbn [seq flat_map repeat]. unfold Ella.gets in *.
  rewrite omap_app, IH. unfold EllaLog.failed_attempt.
  by destruct (Z.of_nat a <? max_retries - 1)%Z.
Qed.

Lemma failed_attempts_backoffs (url : string) (max_retries : Z) (n : nat) :
  Z.of_nat n = max_retries ->
  Ella.backoffs (flat_map (fun k => EllaLog.failed_attempt url max_retries (Z.of_nat k))
                   (seq 0 n))
  = map (fun k => (5 * (Z.of_nat k + 1))%Z) (seq 0 (n - 1)).
Proof.
  intros Hn.
  assert (H : forall m a, a + m = n ->
            Ella.backoffs
              (flat_map (fun k => EllaLog.failed_attempt url max_retries (Z.of_nat k))
                 (seq a m))
            = map (fun k => (5 * (Z.of_nat k + 1))%Z) (seq a (m - 1))).
  { induction m as [|m IH]; intros a Ha; [done|].
    cbn [seq flat_map]. unfold Ella.backoffs in *.
    rewrite omap_app, (IH (S a)) by lia. unfold EllaLog.failed_attempt.
    destruct m as [|m].
    - by destruct (Z.ltb_spec (Z.of_nat a) (max_retries - 1)); [lia|].
    - destruct (Z.ltb_spec (Z.of_nat a) (max_retries - 1)); [|lia].
      replace (S (S m) - 1) with (S (S m - 1)) by lia. done. }
  by apply H.
Qed.

(** C3, as the code has it.  When every attempt fails with a 5xx status, a
    timeout or a connection error, [get_page] returns [None] after exactly
    [max_retries] requests (3 by default: the first attempt and
    [max_retries - 1] retries), and this is all it does, in order: for
    [k = 0 .. max_retries - 1], the wait of [2 + k] seconds that precedes
    every request, the request of attempt [k], and then, unless [k] is the
    last attempt, the backoff of [5 * (k + 1)] seconds.  So a backoff
    stands between a failed attempt and the next one, and none follows the
    last. *)
Theorem get_page_retry_bound (server : Z -> Ella.Response) (url : string)
    (max_retries : Z) :
  (forall k, (0 <= k < max_retries)%Z -> Ella.retryable (server k) = true) ->
  Ella.get_page server url max_retries
  = (flat_map
       (fun k : nat =>
          [Ella.Delay (2 + Z.of_nat k); Ella.Get url]
            ++ (if (Z.of_nat k <? max_retries - 1)%Z
                then [Ella.Backoff (5 * (Z.of_nat k + 1))] else []))
       (seq 0 (Z.to_nat max_retries)), None) /\
  Ella.gets (fst (Ella.get_page server url max_retries))
  = repeat url (Z.to_nat max_retries) /\
  Ella.backoffs (fst (Ella.get_page server url max_retries))
  = map (fun k => (5 * (Z.of_nat k + 1))%Z) (seq 0 (Z.to_nat max_retries - 1)).
Proof.
  intros Hall.
  assert (Hlog : Ella.get_page server url max_retries
            = (flat_map
                 (fun k => EllaLog.failed_attempt url max_retries (Z.of_nat k))
                 (seq 0 (Z.to_nat max_retries)), None)).
  { unfold Ella.get_page.
    destruct (Z.le_gt_cases 0 max_retries) as [Hpos|Hneg].
    - rewrite attempts_all_retryable; [|lia|intros; apply Hall; lia].
      f_equal.
    - replace (Z.to_nat max_retries) with 0 by lia. done. }
  split; [exact Hlog|]. rewrite Hlog. cbn [fst]. split.
  - apply failed_attempts_gets.
  - destruct (Z.le_gt_cases 0 max_retries) as [Hpos|Hneg].
    + apply failed_attempts_backoffs. lia.
    + replace (Z.to_nat max_retries) with 0 by lia. done.
Qed.

(** C3, amended, on the fixture: three requests, a wait of 5 seconds
    between the first and the second, of 10 between the second and the
    third, and nothing after the third. *)
Lemma get_page_retry_bound_witness :
  (forall k, (0 <= k < 3)%Z -> Ella.retryable (Fixture.server_503 k) = true) /\
  Ella.get_page Fixture.server_503 Fixture.home Ella.default_max_retries
  = ([Ella.Delay 2; Ella.Get Fixture.home; Ella.Backoff 5;
      Ella.Delay 3; Ella.Get Fixture.home; Ella.Backoff 10;
      Ella.Delay 4; Ella.Get Fixture.home], None) /\
  length (Ella.gets (fst (Ella.get_page Fixture.server_503 Fixture.home
                            Ella.default_max_retries))) = 3 /\
  Ella.backoffs (fst (Ella.get_page Fixture.server_503 Fixture.home
                        Ella.default_max_retries)) = [5; 10]%Z.
Proof.
  split; [done|].
  destruct (get_page_retry_bound Fixture.server_503 Fixture.home
              Ella.default_max_retries) as (Hlog & Hg & Hb); [done|].
  rewrite Hg, Hb. split; [exact Hlog|]. split; reflexivity.
Defined.

(** C3 fails as stated: with the default [max_retries = 3] and a server that
    answers 503 every time, [get_page] issues three requests, not
    [3 + 1 = 4]. *)
Lemma get_page_retry_counterexample :
  Ella.retryable (Fixture.server_503 0) = true /\
  Ella.get_page Fixture.server_503 Fixture.home Ella.default_max_retries
  = ([Ella.Delay 2; Ella.Get Fixture.home; Ella.Backoff 5;
      Ella.Delay 3; Ella.Get Fixture.home; Ella.Backoff 10;
      Ella.Delay 4; Ella.Get Fixture.home], None) /\
  length (Ella.gets (fst (Ella.get_page Fixture.server_503 Fixture.home
                            Ella.default_max_retries))) = 3 /\
  length (Ella.gets (fst (Ella.get_page Fixture.server_503 Fixture.home
                            Ella.default_max_retries)))
  <> Z.to_nat (Ella.default_max_retries + 1).
Proof. split_and!; [reflexivity..|]. vm_compute. lia. Qed.

(** ** The robots gates *)

(** C4, as the code has it.  When reading robots.txt raises, or the query
    after it does, the gates of sl_tourism_scrape.py and scrape_ft_travel.py
    answer [True]; when the query raises in scrape_srilanka.py, [allowed]
    answers [False].  None of them returns a crawl delay. *)
Theorem robots_failure_defaults (rp : RobotsGate.Parser)
    (env : ScrapeSrilanka.Env) (url ua : string) :
  RobotsGate.rp_read rp = None \/ RobotsGate.rp_can_fetch rp ua url = None ->
  ScrapeSrilanka.rp_can_fetch env url = None ->
  RobotsGate.can_fetch_url rp url ua = true /\
  RobotsGate.can_fetch rp url ua = true /\
  ScrapeSrilanka.allowed env url = false.
Proof.
  intros Hrp Henv.
  unfold RobotsGate.can_fetch_url, RobotsGate.can_fetch, ScrapeSrilanka.allowed.
  rewrite Henv. destruct Hrp as [-> | Hq]; [done|].
  destruct (RobotsGate.rp_read rp); simpl; by rewrite ?Hq.
Qed.

(** C4, amended, on the fixture. *)
Lemma robots_failure_defaults_witness :
  RobotsGate.can_fetch_url Fixture.rp_unreadable Fixture.home "*" = true /\
  RobotsGate.can_fetch Fixture.rp_unreadable Fixture.home "*" = true /\
  ScrapeSrilanka.allowed Fixture.env_robots_raise Fixture.home = false.
Proof.
  apply (robots_failure_defaults Fixture.rp_unreadable
           Fixture.env_robots_raise Fixture.home "*").
  - left. reflexivity.
  - reflexivity.
Defined.

(** C4 fails as stated: the gate of scrape_srilanka.py denies the start page
    when the robots parser fails. *)
Lemma robots_failure_counterexample :
  ScrapeSrilanka.rp_can_fetch Fixture.env_robots_raise Fixture.home = None /\
  ScrapeSrilanka.allowed Fixture.env_robots_raise Fixture.home = false.
Proof. split; reflexivity. Qed.

(** ** scrape_srilanka.py: one iteration *)

Section SrilankaStep.
Import ScrapeSrilanka.
Context (cfg : Config) (env : Env).

Lemma loop_cond_true (s : State) :
  loop_cond cfg s = true ->
  q s <> [] /\ pages_crawled s < MAX_PAGES cfg.
Proof.
  unfold loop_cond. intros H. apply andb_prop in H as [H1 H2].
  apply bool_decide_eq_true in H1. apply Nat.ltb_lt in H2. done.
Qed.


(** The function [loop_body] takes one of the branches of [iteration]. *)
Lemma loop_body_iteration (s : State) :
  q s <> [] -> iteration cfg env s (loop_body cfg env s).
Proof.
  intros Hq. unfold loop_body.
  destruct (q s) as [|url q'] eqn:Eq; [done|].
  case_bool_decide as Hvis; [by eapply iter_visited|].
  destruct (same_domain env url) eqn:Hdom; cbn [negb];
    [|by eapply iter_other_domain].
  destruct (allowed env url) eqn:Hrob; cbn [negb];
    [|by eapply iter_disallowed].
  destruct (session_get env url) as [soup|] eqn:Hget.
  - unfold process_page.
    destruct (find_all_images env soup url) as [imgs|] eqn:Himgs;
      [|eapply iter_page_raised; eauto].
    destruct (find_all_links env soup url) as [links|] eqn:Hlinks;
      [|eapply iter_page_raised; eauto].
    by eapply iter_page.
  - by eapply iter_fetch_error.
Qed.

Lemma download_loop_log (images : list string) (fs : gset string)
    (downloaded : list (string * string)) (log : list Request) :
  (download_loop env images fs downloaded log).2
  = log ++ map ImageGet (List.filter (allowed env) images).
Proof.
  revert fs downloaded log.
  induction images as [|img rest IH]; intros fs downloaded log; simpl.
  - by rewrite app_nil_r.
  - destruct (allowed env img); [|apply IH].
    destruct (download_image env fs img) as [saved fs'].
    rewrite IH. simpl. by rewrite <- app_assoc.
Qed.

Lemma download_images_log (images : list string) (fs : gset string)
    (log : list Request) :
  exists imgs,
    (download_images cfg env images fs log).2 = log ++ map ImageGet imgs /\
    Forall (fun u => allowed env u = true) imgs.
Proof.
  unfold download_images.
  destruct (DOWNLOAD_IMAGES cfg && bool_decide (images <> [])).
  - exists (List.filter (allowed env) images). split.
    + apply download_loop_log.
    + apply Forall_forall. intros u Hu.
      apply list_elem_of_In, filter_In in Hu. tauto.
  - exists []. simpl. by rewrite app_nil_r.
Qed.

(** What [write_page] leaves in each variable. *)
Lemma write_page_fields (s : State) (url : string) (q' : list string)
    (soup : Soup) (imgs links : gset string) :
  let s' := write_page cfg env s url q' soup imgs links in
  visited s' = {[url]} ∪ visited s /\
  q s' = enqueue (elements links) (visited s) q' /\
  pages_crawled s' = pages_crawled s + 1 /\
  (exists r, out_f s' = out_f s ++ [r] /\ rec_url r = url /\
     rec_title r = soup_title soup /\
     rec_text_snippet r = PyStr.slice_to 10000 (soup_text soup) /\
     rec_all_images r = elements imgs /\
     rec_downloaded_images r
     = (download_images cfg env (elements imgs)
          (files s) (requests s ++ [PageGet url])).1.1 /\
     rec_outbound_links_count r = size links) /\
  (exists dl, requests s' = (requests s ++ [PageGet url]) ++ map ImageGet dl /\
     Forall (fun u => allowed env u = true) dl).
Proof.
  unfold write_page.
  destruct (download_images_log (elements imgs)
              (files s) (requests s ++ [PageGet url])) as (dl & Hlog & Hall).
  destruct (download_images cfg env _ (files s) _) as [[downloaded fs'] log'].
  simpl in *. split_and!; try done.
  - eexists. split; [done|]. by simpl.
  - by exists dl.
Qed.

(** An iteration that reaches the page ends in [process_page]. *)
Lemma loop_body_page (s : State) (url : string) (q' : list string)
    (soup : Soup) :
  q s = url :: q' -> url ∉ visited s ->
  same_domain env url = true -> allowed env url = true ->
  session_get env url = Some soup ->
  loop_body cfg env s = process_page cfg env s url q' soup.
Proof.
  intros Hq Hvis Hdom Hrob Hget. unfold loop_body. rewrite Hq.
  rewrite bool_decide_eq_false_2 by done.
  by rewrite Hdom, Hrob, Hget.
Qed.

(** An iteration that reaches the page and finds its images and links
    writes it. *)
Lemma loop_body_written (s : State) (url : string) (q' : list string)
    (soup : Soup) (imgs links : gset string) :
  q s = url :: q' -> url ∉ visited s ->
  same_domain env url = true -> allowed env url = true ->
  session_get env url = Some soup ->
  find_all_images env soup url = Some imgs ->
  find_all_links env soup url = Some links ->
  loop_body cfg env s = Next (write_page cfg env s url q' soup imgs links).
Proof.
  intros Hq Hvis Hdom Hrob Hget Himgs Hlinks.
  rewrite (loop_body_page s url q' soup) by done.
  unfold process_page. by rewrite Himgs, Hlinks.
Qed.

Lemma loop_body_disallowed (s : State) (url : string) (q' : list string) :
  q s = url :: q' -> url ∉ visited s ->
  same_domain env url = true -> allowed env url = false ->
  loop_body cfg env s
  = Next (popped s q' ({[url]} ∪ visited s) (pages_crawled s) (requests s)).
Proof.
  intros Hq Hvis Hdom Hrob. unfold loop_body. rewrite Hq.
  rewrite bool_decide_eq_false_2 by done.
  by rewrite Hdom, Hrob.
Qed.

Lemma loop_body_visited (s : State) (url : string) (q' : list string) :
  q s = url :: q' -> url ∈ visited s ->
  loop_body cfg env s
  = Next (popped s q' (visited s) (pages_crawled s) (requests s)).
Proof.
  intros Hq Hvis. unfold loop_body. rewrite Hq.
  by rewrite bool_decide_eq_true_2 by done.
Qed.

End SrilankaStep.

(** ** scrape_srilanka.py: invariants of the [while] *)

Section SrilankaLoop.
Import ScrapeSrilanka.
Context (cfg : Config) (env : Env).

(** A property that holds before the loop and that every branch of an
    iteration keeps, the one that raises too, holds in every state the
    loop reaches. *)
Lemma iterate_invariant (P : State -> Prop) (s : State) (n : nat) :
  P s ->
  (forall s1 s2, P s1 -> loop_cond cfg s1 = true ->
     iteration cfg env s1 (Next s2) \/ iteration cfg env s1 (Raised s2) ->
     P s2) ->
  P (iterate cfg env n s).
Proof.
  intros Hs Hstep. revert s Hs.
  induction n as [|n IH]; intros s Hs; simpl; [done|].
  destruct (loop_cond cfg s) eqn:Hc; [|done].
  pose proof (loop_body_iteration cfg env s) as Hit.
  apply loop_cond_true in Hc as Hc'. destruct Hc' as [Hq _].
  specialize (Hit Hq).
  destruct (loop_body cfg env s) as [s'|s'].
  - apply IH. eapply Hstep; eauto.
  - eapply Hstep; eauto.
Qed.

(** The same with a property [P] of the states between two iterations and
    a weaker one, [Q], that also holds of the state an exception leaves. *)
Lemma iterate_reached (P Q : State -> Prop) (s : State) (n : nat) :
  P s ->
  (forall s1, P s1 -> Q s1) ->
  (forall s1 s2, P s1 -> loop_cond cfg s1 = true ->
     iteration cfg env s1 (Next s2) -> P s2) ->
  (forall s1 s2, P s1 -> loop_cond cfg s1 = true ->
     iteration cfg env s1 (Raised s2) -> Q s2) ->
  Q (iterate cfg env n s).
Proof.
  intros Hs HPQ Hnext Hraised. revert s Hs.
  induction n as [|n IH]; intros s Hs; simpl; [by apply HPQ|].
  destruct (loop_cond cfg s) eqn:Hc; [|by apply HPQ].
  pose proof (loop_body_iteration cfg env s) as Hit.
  apply loop_cond_true in Hc as Hc'. destruct Hc' as [Hq _].
  specialize (Hit Hq).
  destruct (loop_body cfg env s) as [s'|s'].
  - apply IH. eapply Hnext; eauto.
  - eapply Hraised; eauto.
Qed.



Lemma page_gets_snoc (log : list Request) (url : string) :
  page_gets (log ++ [PageGet url]) = page_gets log ++ [url].
Proof. unfold page_gets. by rewrite omap_app. Qed.

Lemma page_gets_images (log : list Request) (imgs : list string) :
  page_gets (log ++ map ImageGet imgs) = page_gets log.
Proof.
  unfold page_gets. rewrite omap_app.
  replace (omap _ (map ImageGet imgs)) with (@nil string);
    [by rewrite app_nil_r|].
  by induction imgs.
Qed.

Lemma crawl_inv_init (start_url : string) (fs : gset string) :
  crawl_inv cfg (init start_url fs).
Proof.
  unfold crawl_inv, init; simpl.
  split_and!; try done; try apply NoDup_nil_2; try lia;
    intros u Hu; by apply elem_of_nil in Hu.
Qed.

Lemma crawl_inv_step (s1 s2 : State) :
  crawl_inv cfg s1 -> loop_cond cfg s1 = true ->
  iteration cfg env s1 (Next s2) ->
  crawl_inv cfg s2.
Proof.
  intros (Hnd & Hin & Hrnd & Hrin & Hlen & Hle) Hc Hstep.
  apply loop_cond_true in Hc as [_ Hlt].
  assert (Hsnoc : forall url, url ∉ visited s1 ->
            NoDup (page_gets (requests s1) ++ [url])).
  { intros url Hvis. apply NoDup_app. split_and!; [done| |apply NoDup_singleton].
    intros u Hu Hu'. apply list_elem_of_singleton in Hu' as ->. auto. }
  iteration_cases Hstep.
  - done.
  - done.
  - unfold crawl_inv, popped; simpl. split_and!; try done.
    + intros u Hu. apply elem_of_union_r. auto.
    + intros u Hu. apply elem_of_union_r. auto.
  - unfold crawl_inv, popped; simpl. rewrite page_gets_snoc.
    split_and!; try done.
    + by apply Hsnoc.
    + intros u Hu. apply elem_of_app in Hu as [Hu|Hu].
      * apply elem_of_union_r. auto.
      * apply list_elem_of_singleton in Hu as ->.
        by apply elem_of_union_l, elem_of_singleton.
    + intros u Hu. apply elem_of_union_r. auto.
    + rewrite length_app. simpl. lia.
    + lia.
  - pose proof (write_page_fields cfg env s1 url q' soup imgs links) as Hf.
    cbv zeta in Hf.
    destruct Hf as (Hv & _ & Hp & (r & Hout & Hurl & _) & (dl & Hlog & _)).
    unfold crawl_inv. rewrite Hv, Hp, Hout, Hlog.
    rewrite page_gets_images, page_gets_snoc, map_app. simpl. rewrite Hurl.
    split_and!.
    + by apply Hsnoc.
    + intros u Hu. apply elem_of_app in Hu as [Hu|Hu].
      * apply elem_of_union_r. auto.
      * apply list_elem_of_singleton in Hu as ->.
        by apply elem_of_union_l, elem_of_singleton.
    + apply NoDup_app. split_and!; [done| |apply NoDup_singleton].
      intros u Hu Hu'. apply list_elem_of_singleton in Hu' as ->. auto.
    + intros u Hu. apply elem_of_app in Hu as [Hu|Hu].
      * apply elem_of_union_r. auto.
      * apply list_elem_of_singleton in Hu as ->.
        by apply elem_of_union_l, elem_of_singleton.
    + rewrite length_app. simpl. lia.
    + lia.
Qed.

Lemma crawl_inv_reached (s : State) : crawl_inv cfg s -> reached_inv cfg s.
Proof.
  intros (Hnd & Hin & Hrnd & Hrin & Hlen & Hle).
  unfold reached_inv. split_and!; try done; lia.
Qed.

Lemma crawl_inv_raised (s1 s2 : State) :
  crawl_inv cfg s1 -> loop_cond cfg s1 = true ->
  iteration cfg env s1 (Raised s2) ->
  reached_inv cfg s2.
Proof.
  intros (Hnd & Hin & Hrnd & Hrin & Hlen & Hle) Hc Hstep.
  apply loop_cond_true in Hc as [_ Hlt].
  iteration_cases Hstep.
  unfold reached_inv, page_raised, popped; simpl. rewrite page_gets_snoc.
  rewrite length_app. simpl. split_and!; try done; try lia.
  apply NoDup_app. split_and!; [done| |apply NoDup_singleton].
  intros u Hu Hu'. apply list_elem_of_singleton in Hu' as ->. auto.
Qed.

Lemma crawl_inv_iterate (start_url : string) (fs : gset string) (n : nat) :
  reached_inv cfg (iterate cfg env n (init start_url fs)).
Proof.
  apply (iterate_reached (crawl_inv cfg)).
  - apply crawl_inv_init.
  - apply crawl_inv_reached.
  - apply crawl_inv_step.
  - apply crawl_inv_raised.
Qed.



End SrilankaLoop.

(** ** scrape_srilanka.py: links, queue and images *)

Section SrilankaPage.
Import ScrapeSrilanka.
Context (cfg : Config) (env : Env).

(** [find_all_links] raises exactly when [normalize_url] raises on one of
    the hrefs. *)
Lemma find_all_links_from_raises (hrefs : list string) (base : string)
    (links : gset string) :
  find_all_links_from env hrefs base links = None <->
  exists href, href ∈ hrefs /\ normalize_url env base (Some href) = None.
Proof.
  revert links. induction hrefs as [|href rest IH]; intros links.
  - simpl. split; [done|]. intros (href & H & _). by apply elem_of_nil in H.
  - cbn [find_all_links_from].
    destruct (normalize_url env base (Some href)) as [v|] eqn:Hn.
    + assert (Hrest : (exists h, h ∈ href :: rest /\
                         normalize_url env base (Some h) = None) <->
                      (exists h, h ∈ rest /\
                         normalize_url env base (Some h) = None)).
      { split; intros (h & Hh & Hnone).
        - apply elem_of_cons in Hh as [-> | Hh]; [by rewrite Hn in Hnone|].
          by exists h.
        - exists h. split; [by right|done]. }
      rewrite Hrest. cbn [mbind option_bind].
      destruct v as [v|]; [|apply IH].
      destruct (PyStr.truthy v && same_domain env v); apply IH.
    + split; [|done]. intros _. exists href. split; [by left|done].
Qed.

(** [find_all_images] raises exactly when [normalize_url] raises on the
    source of one of the images. *)
Lemma find_all_images_from_raises (srcs : list (option string))
    (base : string) (imgs : gset string) :
  find_all_images_from env srcs base imgs = None <->
  exists src, src ∈ srcs /\ normalize_url env base src = None.
Proof.
  revert imgs. induction srcs as [|src rest IH]; intros imgs.
  - simpl. split; [done|]. intros (src & H & _). by apply elem_of_nil in H.
  - cbn [find_all_images_from].
    destruct (normalize_url env base src) as [v|] eqn:Hn.
    + assert (Hrest : (exists h, h ∈ src :: rest /\
                         normalize_url env base h = None) <->
                      (exists h, h ∈ rest /\
                         normalize_url env base h = None)).
      { split; intros (h & Hh & Hnone).
        - apply elem_of_cons in Hh as [-> | Hh]; [by rewrite Hn in Hnone|].
          by exists h.
        - exists h. split; [by right|done]. }
      rewrite Hrest. cbn [mbind option_bind].
      destruct v as [v|]; [|apply IH].
      destruct (PyStr.truthy v); apply IH.
    + split; [|done]. intros _. exists src. split; [by left|done].
Qed.

(** The links that [find_all_links] returns, when it returns. *)
Lemma find_all_links_from_spec (hrefs : list string) (base : string)
    (links result : gset string) (u : string) :
  find_all_links_from env hrefs base links = Some result ->
  u ∈ result <->
  u ∈ links \/
  exists href, href ∈ hrefs /\
    normalize_url env base (Some href) = Some (Some u) /\
    PyStr.truthy u = true /\ same_domain env u = true.
Proof.
  revert links. induction hrefs as [|href rest IH]; intros links.
  - simpl. intros [= <-]. split; [by left|]. intros [H|(href & H & _)]; [done|].
    by apply elem_of_nil in H.
  - cbn [find_all_links_from].
    destruct (normalize_url env base (Some href)) as [[v|]|] eqn:Hn;
      cbn [mbind option_bind]; [| |done].
    + destruct (PyStr.truthy v && same_domain env v) eqn:Hok.
      * intros Hres. rewrite (IH _ Hres).
        apply andb_prop in Hok as [Ht Hd]. split.
        -- intros [H|(h & Hh & Hrest)].
           ++ apply elem_of_union in H as [H|H]; [|by left].
              apply elem_of_singleton in H as ->. right. exists href.
              split; [by left|done].
           ++ right. exists h. split; [by right|done].
        -- intros [H|(h & Hh & Hnh & Hrest)].
           ++ left. by apply elem_of_union_r.
           ++ apply elem_of_cons in Hh as [->|Hh].
              ** left. rewrite Hn in Hnh. injection Hnh as ->.
                 by apply elem_of_union_l, elem_of_singleton.
              ** right. by exists h.
      * intros Hres. rewrite (IH _ Hres). split.
        -- intros [H|(h & Hh & Hrest)]; [by left|].
           right. exists h. split; [by right|done].
        -- intros [H|(h & Hh & Hnh & Ht & Hd)]; [by left|].
           apply elem_of_cons in Hh as [->|Hh]; [|right; by exists h].
           rewrite Hn in Hnh. injection Hnh as ->.
           rewrite Ht, Hd in Hok. done.
    + intros Hres. rewrite (IH _ Hres). split.
      * intros [H|(h & Hh & Hrest)]; [by left|].
        right. exists h. split; [by right|done].
      * intros [H|(h & Hh & Hnh & Hrest)]; [by left|].
        apply elem_of_cons in Hh as [->|Hh]; [|right; by exists h].
        by rewrite Hn in Hnh.
Qed.

(** The queue after the links are offered: those not in [visited] are
    appended, in order; the others leave it as it is. *)
Lemma enqueue_spec (links : list string) (vis : gset string) (q0 : list string) :
  enqueue links vis q0 = q0 ++ filter (fun l => l ∉ vis) links.
Proof.
  revert q0. induction links as [|l rest IH]; intros q0; simpl.
  - by rewrite app_nil_r.
  - rewrite filter_cons. case_bool_decide as Hl.
    + rewrite decide_True by done. rewrite IH, <- app_assoc. reflexivity.
    + rewrite decide_False by (intros Hn; by apply Hn). apply IH.
Qed.

(** What the images loop appends to [downloaded]: the entry of each
    image, the images directory being what the downloads before it left. *)
Lemma download_loop_entries (images : list string) (fs : gset string)
    (downloaded : list (string * string)) (log : list Request) :
  (download_loop env images fs downloaded log).1.1
  = downloaded
    ++ omap (fun p => image_entry env p.1 p.2)
         (zip (dirs_before env images fs) images).
Proof.
  revert fs downloaded log.
  induction images as [|img rest IH]; intros fs downloaded log.
  - simpl. by rewrite app_nil_r.
  - cbn [download_loop dirs_before].
    assert (Hcons : forall d,
              omap (fun p => image_entry env p.1 p.2) (zip (fs :: d) (img :: rest))
              = match image_entry env fs img with
                | Some y => y :: omap (fun p => image_entry env p.1 p.2) (zip d rest)
                | None => omap (fun p => image_entry env p.1 p.2) (zip d rest)
                end) by done.
    rewrite Hcons. unfold image_entry at 1.
    destruct (allowed env img) eqn:Hrob; [|apply IH].
    destruct (download_image env fs img) as [saved fs'] eqn:Hdl.
    rewrite IH. cbn [fst snd].
    destruct saved as [p|]; cbn [truthy_opt default]; [|done].
    destruct (PyStr.truthy p); [|done].
    by rewrite <- app_assoc.
Qed.

(** What [download_image] returns: a path exactly when the GET, the [open]
    and the writes all succeed, and then the path it opened. *)
Lemma download_image_result (fs : gset string) (img : string) :
  (download_image env fs img).1
  = (content ← image_get env img;
     _ ← file_open env (out_path_for env fs img);
     _ ← file_write env (out_path_for env fs img) content;
     Some (out_path_for env fs img)).
Proof.
  unfold download_image.
  destruct (image_get env img) as [content|]; [|done]. cbn [mbind option_bind].
  destruct (file_open env _) as [[]|]; [|done]. cbn [mbind option_bind].
  by destruct (file_write env _ content) as [[]|].
Qed.

End SrilankaPage.

(** ** thecommonwanderer.py: the [while] *)

Section WandererLoop.
Import CommonWanderer.
Context (MAX_PAGES : nat) (env : Env).

Lemma cw_loop_cond_true (s : State) :
  loop_cond MAX_PAGES s = true ->
  q s <> [] /\ size (visited s) < MAX_PAGES.
Proof.
  unfold loop_cond. intros H. apply andb_prop in H as [H1 H2].
  apply bool_decide_eq_true in H1. apply Nat.ltb_lt in H2. done.
Qed.

(** The function [loop_body] takes one of the branches of [iteration]. *)
Lemma cw_loop_body_iteration (s : State) :
  q s <> [] -> iteration env s (loop_body env s).
Proof.
  intros Hq. unfold loop_body.
  destruct (q s) as [|url q'] eqn:Eq; [done|].
  case_bool_decide as Hvis; [eapply iter_skip; eauto|].
  destruct (same_site env url) eqn:Hsite; cbn [negb];
    [|eapply iter_skip; eauto].
  destruct (rp_can_fetch env url) as [[|]|] eqn:Hrob.
  - destruct (extract_page env url) as [record|] eqn:Hex.
    + destruct (requests_get env url) as [hrefs|] eqn:Hlinks.
      * destruct (enqueue env url hrefs ({[url]} ∪ visited s) q')
          as [q'' [|]] eqn:Henq.
        -- by eapply iter_page.
        -- by eapply iter_enqueue_raise.
      * by eapply iter_links_raise.
    + by eapply iter_extract_error.
  - eapply iter_skip; eauto.
  - by eapply iter_robots_raise.
Qed.

(** A property that holds before the loop and that every branch of an
    iteration keeps, holds in every state the loop reaches. *)
Lemma cw_iterate_invariant (P : State -> Prop) (s : State) (n : nat) :
  P s ->
  (forall s1 s2, P s1 -> loop_cond MAX_PAGES s1 = true ->
     iteration env s1 (Next s2) \/ iteration env s1 (Raised s2) -> P s2) ->
  P (iterate MAX_PAGES env n s).
Proof.
  intros Hs Hstep. revert s Hs.
  induction n as [|n IH]; intros s Hs; simpl; [done|].
  destruct (loop_cond MAX_PAGES s) eqn:Hc; [|done].
  pose proof (cw_loop_body_iteration s) as Hit.
  apply cw_loop_cond_true in Hc as Hc'. destruct Hc' as [Hq _].
  specialize (Hit Hq).
  destruct (loop_body env s) as [s'|s'].
  - apply IH. eapply Hstep; eauto.
  - eapply Hstep; eauto.
Qed.

(** A run that ends normally ends in a state that [iterate] reaches. *)
Lemma cw_crawl_loop_iterate (fuel : nat) (s s' : State) :
  crawl_loop MAX_PAGES env fuel s = Done s' ->
  s' = iterate MAX_PAGES env fuel s /\ loop_cond MAX_PAGES s' = false.
Proof.
  revert s. induction fuel as [|fuel IH]; intros s; simpl;
    destruct (loop_cond MAX_PAGES s) eqn:Hc; try done.
  - by intros [= <-].
  - destruct (loop_body env s); [apply IH|done].
  - by intros [= <-].
Qed.

Lemma extract_page_fields (url : string) (record : PageRecord) :
  extract_page env url = Some record ->
  rec_url record = url /\
  exists soup, session_get env url = Some soup /\
    rec_text record
    = PyStr.slice_to 20000
        (match soup_main soup with Some (t, _) => t | None => EmptyString end).
Proof.
  unfold extract_page. destruct (session_get env url) as [soup|]; [|done].
  cbn [mbind option_bind].
  destruct (match soup_main soup with
            | Some (_, srcs) => main_images env url srcs
            | None => Some []
            end) as [images|]; [|done].
  cbn [mbind option_bind]. intros [= <-]. simpl. eauto.
Qed.

Lemma extract_gets_snoc (log : list Request) (url : string) :
  extract_gets (log ++ [ExtractGet url]) = extract_gets log ++ [url].
Proof. unfold extract_gets. by rewrite omap_app. Qed.

Lemma extract_gets_links (log : list Request) (url : string) :
  extract_gets (log ++ [LinksGet url]) = extract_gets log.
Proof. unfold extract_gets. rewrite omap_app. simpl. by rewrite app_nil_r. Qed.

Lemma size_visited_add (url : string) (vis : gset string) :
  url ∉ vis -> size ({[url]} ∪ vis) = S (size vis).
Proof.
  intros H. rewrite size_union by set_solver. by rewrite size_singleton.
Qed.

Lemma size_visited_mono (url : string) (vis : gset string) :
  size vis <= size ({[url]} ∪ vis).
Proof. apply subseteq_size. apply union_subseteq_r. Qed.

Lemma cw_crawl_inv_init (start_pages : list string) :
  crawl_inv MAX_PAGES (init start_pages).
Proof.
  unfold crawl_inv, init; simpl.
  split_and!; try done; try apply NoDup_nil_2; try lia;
    intros u Hu; by apply elem_of_nil in Hu.
Qed.

Lemma cw_crawl_inv_step (s1 s2 : State) :
  crawl_inv MAX_PAGES s1 -> loop_cond MAX_PAGES s1 = true ->
  iteration env s1 (Next s2) \/ iteration env s1 (Raised s2) ->
  crawl_inv MAX_PAGES s2.
Proof.
  intros (Hnd & Hin & Hrnd & Hrin & Hlen & Hle) Hc Hstep.
  apply cw_loop_cond_true in Hc as [_ Hlt].
  assert (Hsnoc : forall (l : list string) url,
            NoDup l -> (forall u, u ∈ l -> u ∈ visited s1) ->
            url ∉ visited s1 -> NoDup (l ++ [url])).
  { intros l url Hl Hsub Hvis. apply NoDup_app.
    split_and!; [done| |apply NoDup_singleton].
    intros u Hu Hu'. apply list_elem_of_singleton in Hu' as ->. auto. }
  assert (Hgrow : forall (l : list string) url u,
            (forall u, u ∈ l -> u ∈ visited s1) ->
            u ∈ l ++ [url] -> u ∈ {[url]} ∪ visited s1).
  { intros l url u Hsub Hu. apply elem_of_app in Hu as [Hu|Hu].
    - apply elem_of_union_r. auto.
    - apply list_elem_of_singleton in Hu as ->.
      by apply elem_of_union_l, elem_of_singleton. }
  destruct Hstep as [Hstep|Hstep]; inversion Hstep; subst; clear Hstep;
    unfold crawl_inv; simpl;
    rewrite ?extract_gets_links, ?extract_gets_snoc, ?map_app, ?length_app;
    simpl.
  - pose proof (size_visited_mono url (visited s1)).
    split_and!; try done; try lia; intros u Hu; apply elem_of_union_r; auto.
  - pose proof (size_visited_add url (visited s1) ltac:(done)).
    split_and!; try lia; eauto.
    intros u Hu; apply elem_of_union_r; auto.
  - pose proof (size_visited_add url (visited s1) ltac:(done)).
    match goal with H : extract_page _ _ = Some _ |- _ =>
      apply extract_page_fields in H as [-> _] end.
    split_and!; try lia; eauto.
  - done.
  - pose proof (size_visited_add url (visited s1) ltac:(done)).
    match goal with H : extract_page _ _ = Some _ |- _ =>
      apply extract_page_fields in H as [-> _] end.
    split_and!; try lia; eauto.
  - pose proof (size_visited_add url (visited s1) ltac:(done)).
    match goal with H : extract_page _ _ = Some _ |- _ =>
      apply extract_page_fields in H as [-> _] end.
    split_and!; try lia; eauto.
Qed.


Lemma cw_crawl_inv_iterate (start_pages : list string) (n : nat) :
  crawl_inv MAX_PAGES (iterate MAX_PAGES env n (init start_pages)).
Proof.
  apply cw_iterate_invariant; [apply cw_crawl_inv_init|apply cw_crawl_inv_step].
Qed.


End WandererLoop.

(** ** The claims on the two crawl loops *)

Lemma startswith_before_hash (p u frag : string) :
  PyStr.has_hash p = false ->
  PyStr.startswith (u +:+ String "#" frag) p = PyStr.startswith u p.
Proof.
  revert u. induction p as [|c p IH]; intros u Hp; [by destruct u|].
  simpl in Hp. destruct (Ascii.eqb c "#") eqn:Hc; [done|].
  destruct u as [|d u].
  - change (EmptyString +:+ String "#" frag) with (String "#" frag).
    simpl. by rewrite Hc.
  - rewrite append_cons. simpl. destruct (Ascii.eqb c d); [by apply IH|done].
Qed.

Lemma truthy_before_hash (u frag : string) :
  PyStr.truthy (u +:+ String "#" frag) = true.
Proof. by destruct u. Qed.

(** Two hrefs that differ only in their fragment normalize alike. *)
Lemma normalize_url_fragment (env : ScrapeSrilanka.Env) (base u f1 f2 : string) :
  PyStr.has_hash u = false ->
  ScrapeSrilanka.normalize_url env base (Some (u +:+ String "#" f1))
  = ScrapeSrilanka.normalize_url env base (Some (u +:+ String "#" f2)).
Proof.
  intros Hu. unfold ScrapeSrilanka.normalize_url.
  rewrite !truthy_before_hash, !startswith_before_hash by done.
  by rewrite !split_hash_0_fragment.
Qed.

Lemma normalize_link_fragment (env : CommonWanderer.Env) (base u f1 f2 : string) :
  PyStr.has_hash u = false ->
  CommonWanderer.normalize_link env base (u +:+ String "#" f1)
  = CommonWanderer.normalize_link env base (u +:+ String "#" f2).
Proof.
  intros Hu. unfold CommonWanderer.normalize_link.
  rewrite !truthy_before_hash, !startswith_before_hash by done.
  by rewrite !split_hash_0_fragment.
Qed.

(** C1, as the code has it.  Over the whole crawl, in scrape_srilanka.py
    and in thecommonwanderer.py, no URL is processed twice: in every state
    the loop reaches, the one an exception leaves too, the list of the
    pages requested (in thecommonwanderer.py, handed to [extract_page]) and
    the list of the URLs of the records written hold no duplicate.  The
    queue is no set: a link is appended unless it is in [visited] (and, in
    thecommonwanderer.py, empty or of another site), whether the queue
    holds it already or not; what keeps a URL from being processed twice
    is the test at the head of the loop, which drops a popped URL that is
    in [visited] without a request or a record.  Two hrefs that differ only
    in their fragment normalize to the same URL. *)
Theorem frontier_dedup (cfg : ScrapeSrilanka.Config) (env : ScrapeSrilanka.Env)
    (start_url : string) (fs : gset string) (n : nat)
    (max_pages : nat) (cwenv : CommonWanderer.Env)
    (start_pages : list string) (m : nat) :
  NoDup (ScrapeSrilanka.page_gets (ScrapeSrilanka.requests
           (ScrapeSrilanka.iterate cfg env n
              (ScrapeSrilanka.init start_url fs)))) /\
  NoDup (map ScrapeSrilanka.rec_url (ScrapeSrilanka.out_f
           (ScrapeSrilanka.iterate cfg env n
              (ScrapeSrilanka.init start_url fs)))) /\
  NoDup (CommonWanderer.extract_gets (CommonWanderer.requests
           (CommonWanderer.iterate max_pages cwenv m
              (CommonWanderer.init start_pages)))) /\
  NoDup (map CommonWanderer.rec_url (CommonWanderer.fout
           (CommonWanderer.iterate max_pages cwenv m
              (CommonWanderer.init start_pages)))) /\
  (forall link vis q0,
     ScrapeSrilanka.enqueue [link] vis q0
     = if bool_decide (link ∈ vis) then q0 else q0 ++ [link]) /\
  (forall url href link vis q0,
     CommonWanderer.normalize_link cwenv url href = Some (Some link) ->
     CommonWanderer.enqueue cwenv url [href] vis q0
     = (if bool_decide (link ∈ vis) then q0
        else if PyStr.truthy link && CommonWanderer.same_site cwenv link
             then q0 ++ [link] else q0, true)) /\
  (forall s url q',
     ScrapeSrilanka.q s = url :: q' -> url ∈ ScrapeSrilanka.visited s ->
     ScrapeSrilanka.loop_body cfg env s
     = ScrapeSrilanka.Next
         (ScrapeSrilanka.popped s q' (ScrapeSrilanka.visited s)
            (ScrapeSrilanka.pages_crawled s) (ScrapeSrilanka.requests s))) /\
  (forall s url q',
     CommonWanderer.q s = url :: q' -> url ∈ CommonWanderer.visited s ->
     exists s', CommonWanderer.loop_body cwenv s = CommonWanderer.Next s' /\
       CommonWanderer.q s' = q' /\
       CommonWanderer.fout s' = CommonWanderer.fout s /\
       CommonWanderer.requests s' = CommonWanderer.requests s) /\
  (forall base u f1 f2, PyStr.has_hash u = false ->
     ScrapeSrilanka.normalize_url env base (Some (u +:+ String "#" f1))
     = ScrapeSrilanka.normalize_url env base (Some (u +:+ String "#" f2)) /\
     CommonWanderer.normalize_link cwenv base (u +:+ String "#" f1)
     = CommonWanderer.normalize_link cwenv base (u +:+ String "#" f2)).
Proof.
  destruct (crawl_inv_iterate cfg env start_url fs n) as (H1 & H2 & _).
  destruct (cw_crawl_inv_iterate max_pages cwenv start_pages m)
    as (H3 & _ & H4 & _).
  split_and!; try done.
  - intros link vis q0. simpl. by repeat case_bool_decide.
  - intros url href link vis q0 Hn. simpl. rewrite Hn.
    destruct (PyStr.truthy link), (CommonWanderer.same_site cwenv link);
      by repeat case_bool_decide.
  - intros s url q' Hq Hvis. by apply (loop_body_visited cfg env s url).
  - intros s url q' Hq Hvis. unfold CommonWanderer.loop_body. rewrite Hq.
    rewrite bool_decide_eq_true_2 by done. by eexists.
  - intros base u f1 f2 Hu. split.
    + by apply normalize_url_fragment.
    + by apply normalize_link_fragment.
Qed.

(** C1 fails as stated: a URL that is queued but not yet popped is no
    no-op to push.  The link is appended a second time, in either script;
    and after three iterations on the fixture the queue of
    scrape_srilanka.py holds two URLs that are both in [visited]. *)
Lemma frontier_dedup_counterexample :
  ScrapeSrilanka.enqueue [Fixture.beaches] ∅ [Fixture.beaches]
  = [Fixture.beaches; Fixture.beaches] /\
  CommonWanderer.enqueue Fixture.cw_env Fixture.cw_page ["/galle"] ∅
    ["https://www.thecommonwanderer.com/galle"]
  = (["https://www.thecommonwanderer.com/galle";
      "https://www.thecommonwanderer.com/galle"], true) /\
  ScrapeSrilanka.q
    (ScrapeSrilanka.iterate Fixture.cfg Fixture.env 3
       (ScrapeSrilanka.init Fixture.home ∅))
  = [Fixture.home; Fixture.beaches] /\
  bool_decide
    (Fixture.home ∈ ScrapeSrilanka.visited
       (ScrapeSrilanka.iterate Fixture.cfg Fixture.env 3
          (ScrapeSrilanka.init Fixture.home ∅))) = true /\
  bool_decide
    (Fixture.beaches ∈ ScrapeSrilanka.visited
       (ScrapeSrilanka.iterate Fixture.cfg Fixture.env 3
          (ScrapeSrilanka.init Fixture.home ∅))) = true.
Proof. split_and!; vm_compute; reflexivity. Qed.



(** ** Robots compliance *)

Lemma robots_inv_step (cfg : ScrapeSrilanka.Config) (env : ScrapeSrilanka.Env)
    (s1 s2 : ScrapeSrilanka.State) :
  Forall (fun r => ScrapeSrilanka.allowed env (request_url r) = true)
    (ScrapeSrilanka.requests s1) ->
  ScrapeSrilanka.iteration cfg env s1 (ScrapeSrilanka.Next s2)
    \/ ScrapeSrilanka.iteration cfg env s1 (ScrapeSrilanka.Raised s2) ->
  Forall (fun r => ScrapeSrilanka.allowed env (request_url r) = true)
    (ScrapeSrilanka.requests s2).
Proof.
  intros Hall Hstep.
  iteration_cases Hstep; try done.
  - simpl. apply Forall_app. split; [done|]. by apply Forall_singleton.
  - pose proof (write_page_fields cfg env s1 url q' soup imgs links) as Hf.
    cbv zeta in Hf. destruct Hf as (_ & _ & _ & _ & (dl & -> & Hdl)).
    rewrite !Forall_app. split_and!; [done|by apply Forall_singleton|].
    apply Forall_fmap. by eapply Forall_impl.
  - simpl. apply Forall_app. split; [done|]. by apply Forall_singleton.
Qed.

Lemma cw_robots_inv_step (env : CommonWanderer.Env)
    (s1 s2 : CommonWanderer.State) :
  Forall (fun r => CommonWanderer.rp_can_fetch env (cw_request_url r) = Some true)
    (CommonWanderer.requests s1) ->
  CommonWanderer.iteration env s1 (CommonWanderer.Next s2)
    \/ CommonWanderer.iteration env s1 (CommonWanderer.Raised s2) ->
  Forall (fun r => CommonWanderer.rp_can_fetch env (cw_request_url r) = Some true)
    (CommonWanderer.requests s2).
Proof.
  intros Hall [Hstep|Hstep]; inversion Hstep; subst; clear Hstep; simpl;
    rewrite ?Forall_app, ?Forall_singleton; by split_and?.
Qed.

(** C5.  In every state the crawl loop reaches, in scrape_srilanka.py and in
    thecommonwanderer.py, every HTTP request that was issued, for a page or
    for an image, is for a URL that the robots gate lets through.  When the
    gate denies the URL at the head of the queue, the iteration issues no
    request and goes on with the rest of the queue. *)
Theorem robots_compliance (cfg : ScrapeSrilanka.Config)
    (env : ScrapeSrilanka.Env) (start_url : string) (fs : gset string)
    (n : nat) (max_pages : nat) (cwenv : CommonWanderer.Env)
    (start_pages : list string) (m : nat) :
  Forall (fun r => ScrapeSrilanka.allowed env (request_url r) = true)
    (ScrapeSrilanka.requests
       (ScrapeSrilanka.iterate cfg env n (ScrapeSrilanka.init start_url fs))) /\
  Forall (fun r => CommonWanderer.rp_can_fetch cwenv (cw_request_url r)
                   = Some true)
    (CommonWanderer.requests
       (CommonWanderer.iterate max_pages cwenv m
          (CommonWanderer.init start_pages))) /\
  (forall s url q',
     ScrapeSrilanka.q s = url :: q' ->
     ScrapeSrilanka.allowed env url = false ->
     exists s', ScrapeSrilanka.loop_body cfg env s = ScrapeSrilanka.Next s' /\
       ScrapeSrilanka.requests s' = ScrapeSrilanka.requests s /\
       ScrapeSrilanka.q s' = q') /\
  (forall s url q',
     CommonWanderer.q s = url :: q' ->
     CommonWanderer.rp_can_fetch cwenv url = Some false ->
     exists s', CommonWanderer.loop_body cwenv s = CommonWanderer.Next s' /\
       CommonWanderer.requests s' = CommonWanderer.requests s /\
       CommonWanderer.q s' = q').
Proof.
  split_and!.
  - apply iterate_invariant; [by apply Forall_nil|].
    intros s1 s2 H _ Hstep. by eapply robots_inv_step.
  - apply cw_iterate_invariant; [by apply Forall_nil|].
    intros s1 s2 H _ Hstep. by eapply cw_robots_inv_step.
  - intros s url q' Hq Hrob. unfold ScrapeSrilanka.loop_body. rewrite Hq.
    case_bool_decide; [by eexists|].
    destruct (ScrapeSrilanka.same_domain env url); [|by eexists].
    rewrite Hrob. by eexists.
  - intros s url q' Hq Hrob. unfold CommonWanderer.loop_body. rewrite Hq, Hrob.
    case_bool_decide; [by eexists|].
    destruct (CommonWanderer.same_site cwenv url); by eexists.
Qed.

(** ** Truncated text *)

Lemma records_inv_step (cfg : ScrapeSrilanka.Config) (env : ScrapeSrilanka.Env)
    (P : ScrapeSrilanka.PageRecord -> Prop) (s1 s2 : ScrapeSrilanka.State) :
  (forall r soup, ScrapeSrilanka.session_get env (ScrapeSrilanka.rec_url r)
                  = Some soup ->
     ScrapeSrilanka.rec_text_snippet r
     = PyStr.slice_to 10000 (ScrapeSrilanka.soup_text soup) -> P r) ->
  Forall P (ScrapeSrilanka.out_f s1) ->
  ScrapeSrilanka.iteration cfg env s1 (ScrapeSrilanka.Next s2)
    \/ ScrapeSrilanka.iteration cfg env s1 (ScrapeSrilanka.Raised s2) ->
  Forall P (ScrapeSrilanka.out_f s2).
Proof.
  intros HP Hall Hstep.
  iteration_cases Hstep; try done.
  pose proof (write_page_fields cfg env s1 url q' soup imgs links) as Hf.
  cbv zeta in Hf.
  destruct Hf as (_ & _ & _ & (r & -> & Hurl & _ & Htext & _) & _).
  apply Forall_app. split; [done|]. apply Forall_singleton.
  apply (HP r soup); [by rewrite Hurl|done].
Qed.

(** C9.  Every record in the output, in every state the crawl loop reaches,
    carries the text of its page cut to its first 10000 characters
    ([text_snippet], scrape_srilanka.py) or 20000 characters ([text],
    thecommonwanderer.py): the field is no longer than that, and the
    extracted text is the field followed by what was cut off. *)
Theorem record_text_truncated (cfg : ScrapeSrilanka.Config)
    (env : ScrapeSrilanka.Env) (start_url : string) (fs : gset string)
    (n : nat) (max_pages : nat) (cwenv : CommonWanderer.Env)
    (start_pages : list string) (m : nat) :
  Forall (fun r =>
            (N.of_nat (String.length (ScrapeSrilanka.rec_text_snippet r))
               <= 10000)%N /\
            exists soup rest,
              ScrapeSrilanka.session_get env (ScrapeSrilanka.rec_url r)
              = Some soup /\
              ScrapeSrilanka.rec_text_snippet r
              = PyStr.slice_to 10000 (ScrapeSrilanka.soup_text soup) /\
              ScrapeSrilanka.soup_text soup
              = ScrapeSrilanka.rec_text_snippet r +:+ rest)
    (ScrapeSrilanka.out_f
       (ScrapeSrilanka.iterate cfg env n (ScrapeSrilanka.init start_url fs))) /\
  Forall (fun r =>
            (N.of_nat (String.length (CommonWanderer.rec_text r))
               <= 20000)%N /\
            exists soup rest,
              CommonWanderer.session_get cwenv (CommonWanderer.rec_url r)
              = Some soup /\
              match CommonWanderer.soup_main soup with
              | Some (t, _) => t
              | None => EmptyString
              end = CommonWanderer.rec_text r +:+ rest)
    (CommonWanderer.fout
       (CommonWanderer.iterate max_pages cwenv m
          (CommonWanderer.init start_pages))).
Proof.
  split.
  - apply iterate_invariant; [by apply Forall_nil|].
    intros s1 s2 H _ Hstep. eapply records_inv_step; [|done..].
    intros r soup Hget Htext. split.
    + rewrite Htext.
      pose proof (slice_to_length 10000 (ScrapeSrilanka.soup_text soup)). lia.
    + destruct (slice_to_prefix 10000 (ScrapeSrilanka.soup_text soup))
        as [rest Hrest].
      exists soup, rest. rewrite Htext. by rewrite <- Hrest.
  - apply cw_iterate_invariant; [by apply Forall_nil|].
    intros s1 s2 H _ [Hstep|Hstep]; inversion Hstep; subst; clear Hstep;
      simpl; try done;
      (apply Forall_app; split; [done|]; apply Forall_singleton;
       match goal with Hex : CommonWanderer.extract_page _ _ = Some _ |- _ =>
         apply extract_page_fields in Hex as (Hurl & soup & Hget & Htext) end;
       rewrite Hurl, Htext; split;
       [ match goal with |- context [PyStr.slice_to ?k ?t] =>
           pose proof (slice_to_length k t) end; lia
       | match goal with |- context [PyStr.slice_to ?k ?t] =>
           destruct (slice_to_prefix k t) as [rest Hrest] end;
         by exists soup, rest ]).
Qed.

(** ** A page of scrape_srilanka.py, branch by branch *)

(** A URL in [visited] stays there and is not requested as a page again. *)
Lemma visited_never_requested (cfg : ScrapeSrilanka.Config)
    (env : ScrapeSrilanka.Env) (s : ScrapeSrilanka.State) (page : string)
    (n : nat) :
  page ∈ ScrapeSrilanka.visited s ->
  page ∈ ScrapeSrilanka.visited (ScrapeSrilanka.iterate cfg env n s) /\
  exists extra,
    ScrapeSrilanka.requests (ScrapeSrilanka.iterate cfg env n s)
    = ScrapeSrilanka.requests s ++ extra /\
    page ∉ ScrapeSrilanka.page_gets extra.
Proof.
  intros Hpage.
  apply (iterate_invariant cfg env (fun t =>
    page ∈ ScrapeSrilanka.visited t /\
    exists extra,
      ScrapeSrilanka.requests t = ScrapeSrilanka.requests s ++ extra /\
      page ∉ ScrapeSrilanka.page_gets extra)).
  - split; [done|]. exists []. rewrite app_nil_r. split; [done|].
    apply not_elem_of_nil.
  - intros s1 s2 (Hin & extra & Hreq & Hnot) _ Hstep.
    assert (Hget1 : forall u, u ∉ ScrapeSrilanka.visited s1 ->
              exists extra',
                ScrapeSrilanka.requests s1 ++ [ScrapeSrilanka.PageGet u]
                = ScrapeSrilanka.requests s ++ extra' /\
                page ∉ ScrapeSrilanka.page_gets extra').
    { intros u Hu. exists (extra ++ [ScrapeSrilanka.PageGet u]).
      rewrite Hreq, <- app_assoc. split; [done|].
      rewrite page_gets_snoc. intros H. apply elem_of_app in H as [H|H]; [done|].
      apply list_elem_of_singleton in H as ->. done. }
    iteration_cases Hstep; simpl.
    + eauto.
    + eauto.
    + split; [by apply elem_of_union_r|eauto].
    + split; [by apply elem_of_union_r|]. by apply Hget1.
    + pose proof (write_page_fields cfg env s1 url q' soup imgs links) as Hf.
      cbv zeta in Hf. destruct Hf as (-> & _ & _ & _ & (dl & -> & _)).
      split; [by apply elem_of_union_r|].
      exists ((extra ++ [ScrapeSrilanka.PageGet url])
                ++ map ScrapeSrilanka.ImageGet dl).
      rewrite Hreq, <- !app_assoc. split; [done|].
      rewrite app_assoc, page_gets_images, page_gets_snoc.
      intros H. apply elem_of_app in H as [H|H]; [done|].
      apply list_elem_of_singleton in H as ->. done.
    + split; [done|]. by apply Hget1.
Qed.

(** C10.  When the robots check denies the popped URL, the iteration ends
    normally, adds the URL to [visited] and leaves [pages_crawled], the
    output and the request log as they were: no budget is used, no record
    is written.  The URL then stays in [visited] and is never requested as
    a page. *)
Theorem robots_denied_frame (cfg : ScrapeSrilanka.Config)
    (env : ScrapeSrilanka.Env) (s : ScrapeSrilanka.State) (url : string)
    (q' : list string) (n : nat) :
  ScrapeSrilanka.q s = url :: q' -> url ∉ ScrapeSrilanka.visited s ->
  ScrapeSrilanka.same_domain env url = true ->
  ScrapeSrilanka.allowed env url = false ->
  exists s',
    ScrapeSrilanka.loop_body cfg env s = ScrapeSrilanka.Next s' /\
    ScrapeSrilanka.visited s' = {[url]} ∪ ScrapeSrilanka.visited s /\
    ScrapeSrilanka.pages_crawled s' = ScrapeSrilanka.pages_crawled s /\
    ScrapeSrilanka.out_f s' = ScrapeSrilanka.out_f s /\
    ScrapeSrilanka.requests s' = ScrapeSrilanka.requests s /\
    ScrapeSrilanka.q s' = q' /\
    url ∈ ScrapeSrilanka.visited (ScrapeSrilanka.iterate cfg env n s') /\
    exists extra,
      ScrapeSrilanka.requests (ScrapeSrilanka.iterate cfg env n s')
      = ScrapeSrilanka.requests s ++ extra /\
      url ∉ ScrapeSrilanka.page_gets extra.
Proof.
  intros Hq Hvis Hdom Hrob.
  rewrite (loop_body_disallowed cfg env s url q') by done.
  eexists. split; [reflexivity|].
  split_and!; try done.
  - apply visited_never_requested. simpl.
    by apply elem_of_union_l, elem_of_singleton.
  - apply (visited_never_requested cfg env
             (ScrapeSrilanka.popped s q' ({[url]} ∪ ScrapeSrilanka.visited s)
                (ScrapeSrilanka.pages_crawled s) (ScrapeSrilanka.requests s))
             url n).
    simpl. by apply elem_of_union_l, elem_of_singleton.
Qed.

(** C10 on the fixture: [/admin] is denied, marked visited, and costs
    nothing. *)
Lemma robots_denied_frame_witness :
  ScrapeSrilanka.allowed Fixture.env Fixture.admin = false /\
  exists s',
    ScrapeSrilanka.loop_body Fixture.cfg Fixture.env
      (Fixture.at_url Fixture.admin) = ScrapeSrilanka.Next s' /\
    ScrapeSrilanka.pages_crawled s' = 0 /\
    ScrapeSrilanka.out_f s' = [] /\
    ScrapeSrilanka.requests s' = [] /\
    Fixture.admin ∈ ScrapeSrilanka.visited s'.
Proof.
  split; [reflexivity|].
  destruct (robots_denied_frame Fixture.cfg Fixture.env
              (Fixture.at_url Fixture.admin) Fixture.admin [] 2)
    as (s' & Hbody & Hv & Hp & Ho & Hr & _).
  - reflexivity.
  - apply not_elem_of_empty.
  - reflexivity.
  - reflexivity.
  - exists s'. rewrite Hv, Hp, Ho, Hr. split_and!; [exact Hbody|reflexivity..|].
    apply elem_of_union_l, elem_of_singleton. reflexivity.
Defined.

(** ** Images *)

(** C7.  [download_image] returns a path exactly when the GET of the
    image, the [open] of the file and the writes all succeed; any failure
    among them ends in its handler and gives [None].  On a page whose GET
    succeeded and whose images and links were found, the iteration ends
    normally and the record of the page is written, with every image URL
    of the page in [all_images], whatever the downloads do.  Its
    [downloaded_images] holds, image by image and in order, the entry of
    each image that robots.txt allows and whose own download returned a
    path: so an image has a local path only if its GET, its [open] and its
    writes succeeded, and an image whose download succeeds has its entry
    whatever became of the others. *)
Theorem image_failure_isolated (cfg : ScrapeSrilanka.Config)
    (env : ScrapeSrilanka.Env) (s : ScrapeSrilanka.State) (url : string)
    (q' : list string) (soup : ScrapeSrilanka.Soup)
    (imgs links : gset string) :
  ScrapeSrilanka.q s = url :: q' -> url ∉ ScrapeSrilanka.visited s ->
  ScrapeSrilanka.same_domain env url = true ->
  ScrapeSrilanka.allowed env url = true ->
  ScrapeSrilanka.session_get env url = Some soup ->
  ScrapeSrilanka.find_all_images env soup url = Some imgs ->
  ScrapeSrilanka.find_all_links env soup url = Some links ->
  (forall fs img,
     (ScrapeSrilanka.download_image env fs img).1
     = (content ← ScrapeSrilanka.image_get env img;
        _ ← ScrapeSrilanka.file_open env
              (ScrapeSrilanka.out_path_for env fs img);
        _ ← ScrapeSrilanka.file_write env
              (ScrapeSrilanka.out_path_for env fs img) content;
        Some (ScrapeSrilanka.out_path_for env fs img))) /\
  exists s' r,
    ScrapeSrilanka.loop_body cfg env s = ScrapeSrilanka.Next s' /\
    ScrapeSrilanka.out_f s' = ScrapeSrilanka.out_f s ++ [r] /\
    ScrapeSrilanka.rec_url r = url /\
    ScrapeSrilanka.rec_all_images r = elements imgs /\
    ScrapeSrilanka.rec_downloaded_images r
    = (if ScrapeSrilanka.DOWNLOAD_IMAGES cfg
       then omap (fun p => ScrapeSrilanka.image_entry env p.1 p.2)
              (zip (ScrapeSrilanka.dirs_before env (elements imgs)
                      (ScrapeSrilanka.files s))
                 (elements imgs))
       else []) /\
    (forall img p,
       (img, p) ∈ ScrapeSrilanka.rec_downloaded_images r ->
       img ∈ elements imgs /\ ScrapeSrilanka.allowed env img = true /\
       exists fs content,
         ScrapeSrilanka.image_get env img = Some content /\
         p = ScrapeSrilanka.out_path_for env fs img /\
         ScrapeSrilanka.file_open env p = Some () /\
         ScrapeSrilanka.file_write env p content = Some ()) /\
    (forall i img fs p,
       ScrapeSrilanka.DOWNLOAD_IMAGES cfg = true ->
       elements imgs !! i = Some img ->
       ScrapeSrilanka.dirs_before env (elements imgs)
         (ScrapeSrilanka.files s) !! i = Some fs ->
       ScrapeSrilanka.allowed env img = true ->
       (ScrapeSrilanka.download_image env fs img).1 = Some p ->
       p <> EmptyString ->
       (img, p) ∈ ScrapeSrilanka.rec_downloaded_images r).
Proof.
  intros Hq Hvis Hdom Hrob Hget Himgs Hlinks.
  split; [apply download_image_result|].
  rewrite (loop_body_written cfg env s url q' soup imgs links) by done.
  pose proof (write_page_fields cfg env s url q' soup imgs links) as Hf.
  cbv zeta in Hf.
  destruct Hf as (_ & _ & _ & (r & Hout & Hurl & _ & _ & Hall & Hdl & _) & _).
  assert (Hentries :
            ScrapeSrilanka.rec_downloaded_images r
            = (if ScrapeSrilanka.DOWNLOAD_IMAGES cfg
               then omap (fun p => ScrapeSrilanka.image_entry env p.1 p.2)
                      (zip (ScrapeSrilanka.dirs_before env (elements imgs)
                              (ScrapeSrilanka.files s))
                         (elements imgs))
               else [])).
  { rewrite Hdl. unfold ScrapeSrilanka.download_images.
    destruct (ScrapeSrilanka.DOWNLOAD_IMAGES cfg); [|done]. cbn [andb].
    case_bool_decide as Hne; [by rewrite download_loop_entries|].
    by rewrite Hne. }
  eexists _, r. split_and!; [reflexivity|done..| |].
  - intros img p Hin. rewrite Hentries in Hin.
    destruct (ScrapeSrilanka.DOWNLOAD_IMAGES cfg);
      [|by apply elem_of_nil in Hin].
    apply list_elem_of_omap in Hin as ([fs0 img0] & Hzip & Hentry).
    apply elem_of_zip_r in Hzip.
    unfold ScrapeSrilanka.image_entry in Hentry. cbn [fst snd] in Hentry.
    destruct (ScrapeSrilanka.allowed env img0) eqn:Ha; [|done].
    rewrite download_image_result in Hentry.
    destruct (ScrapeSrilanka.image_get env img0) as [content|] eqn:Hg;
      [|done].
    cbn [mbind option_bind] in Hentry.
    destruct (ScrapeSrilanka.file_open env _) as [[]|] eqn:Ho; [|done].
    cbn [mbind option_bind] in Hentry.
    destruct (ScrapeSrilanka.file_write env _ content) as [[]|] eqn:Hw;
      [|done].
    cbn [mbind option_bind] in Hentry.
    destruct (PyStr.truthy _); [|done]. injection Hentry as <- <-.
    split_and!; [done..|]. by exists fs0, content.
  - intros i img fs0 p Hon Hi Hd Ha Hp Hne. rewrite Hentries, Hon.
    apply list_elem_of_omap. exists (fs0, img). split.
    + apply (list_elem_of_lookup_2 _ i). by apply lookup_zip_Some.
    + unfold ScrapeSrilanka.image_entry. cbn [fst snd]. rewrite Ha, Hp.
      by destruct p.
Qed.

(** C7 on the fixture: the GET of [a.jpg] fails, the record of the start
    page is written all the same and [b.jpg] is saved. *)
Lemma image_failure_isolated_witness :
  ScrapeSrilanka.image_get Fixture.env Fixture.img_a = None /\
  exists s' r,
    ScrapeSrilanka.loop_body Fixture.cfg Fixture.env
      (Fixture.at_url Fixture.home) = ScrapeSrilanka.Next s' /\
    ScrapeSrilanka.out_f s' = [r] /\
    ScrapeSrilanka.rec_url r = Fixture.home /\
    (forall p, (Fixture.img_a, p) ∉ ScrapeSrilanka.rec_downloaded_images r) /\
    ScrapeSrilanka.rec_downloaded_images r
    = [(Fixture.img_b, "images/b.jpg")].
Proof.
  split; [reflexivity|].
  destruct (image_failure_isolated Fixture.cfg Fixture.env
              (Fixture.at_url Fixture.home) Fixture.home []
              Fixture.soup_home
              (default ∅ (ScrapeSrilanka.find_all_images Fixture.env
                            Fixture.soup_home Fixture.home))
              (default ∅ (ScrapeSrilanka.find_all_links Fixture.env
                            Fixture.soup_home Fixture.home)))
    as (_ & s' & r & Hbody & Hout & Hurl & _ & Hdl & Honly & _).
  - reflexivity.
  - apply not_elem_of_empty.
  - reflexivity.
  - reflexivity.
  - reflexivity.
  - vm_compute. reflexivity.
  - vm_compute. reflexivity.
  - exists s', r. split_and!; [exact Hbody|exact Hout|exact Hurl| |].
    + intros p Hp. apply Honly in Hp as (_ & _ & fs & content & Hg & _).
      discriminate Hg.
    + rewrite Hdl. vm_compute. reflexivity.
Defined.

(** ** A fragment-only href *)

(** C8, as the code has it.  An href that is only a fragment is not
    dropped: [normalize_url] and [normalize_link] cut it to the empty
    string and join that to the base, which gives back the base URL.  In
    scrape_srilanka.py the page being processed is not in [visited] yet
    when its links are enqueued, so a page with such an href that is
    written puts its own URL back into the queue.  In thecommonwanderer.py
    the page is in [visited] by then, and the link is left out. *)
Theorem fragment_only_href (env : ScrapeSrilanka.Env)
    (cwenv : CommonWanderer.Env) (base frag : string) :
  ScrapeSrilanka.normalize_url env base (Some (String "#" frag))
  = Some (Some base) /\
  CommonWanderer.normalize_link cwenv base (String "#" frag)
  = Some (Some base) /\
  (forall cfg s q' soup imgs links,
     ScrapeSrilanka.q s = base :: q' -> base ∉ ScrapeSrilanka.visited s ->
     base <> EmptyString ->
     ScrapeSrilanka.same_domain env base = true ->
     ScrapeSrilanka.allowed env base = true ->
     ScrapeSrilanka.session_get env base = Some soup ->
     ScrapeSrilanka.find_all_images env soup base = Some imgs ->
     ScrapeSrilanka.find_all_links env soup base = Some links ->
     String "#" frag ∈ ScrapeSrilanka.soup_hrefs soup ->
     exists s',
       ScrapeSrilanka.loop_body cfg env s = ScrapeSrilanka.Next s' /\
       base ∈ ScrapeSrilanka.q s' /\ base ∈ ScrapeSrilanka.visited s') /\
  (forall vis q0,
     CommonWanderer.enqueue cwenv base [String "#" frag] ({[base]} ∪ vis) q0
     = (q0, true)) /\
  (forall s q' record hrefs,
     CommonWanderer.q s = base :: q' -> base ∉ CommonWanderer.visited s ->
     CommonWanderer.same_site cwenv base = true ->
     CommonWanderer.rp_can_fetch cwenv base = Some true ->
     CommonWanderer.extract_page cwenv base = Some record ->
     CommonWanderer.requests_get cwenv base = Some hrefs ->
     Forall (fun href => exists f, href = String "#" f) hrefs ->
     exists s',
       CommonWanderer.loop_body cwenv s = CommonWanderer.Next s' /\
       CommonWanderer.q s' = q').
Proof.
  assert (Hcw : forall hrefs vis q0,
            Forall (fun href => exists f, href = String "#" f) hrefs ->
            CommonWanderer.enqueue cwenv base hrefs ({[base]} ∪ vis) q0
            = (q0, true)).
  { induction hrefs as [|href rest IH]; intros vis q0 Hall; [done|].
    apply Forall_cons in Hall as [[f ->] Hall].
    cbn [CommonWanderer.enqueue]. rewrite normalize_link_fragment_only.
    rewrite (bool_decide_eq_false_2 (base ∉ {[base]} ∪ vis)).
    - rewrite andb_false_r. by apply IH.
    - intros Hn. apply Hn. by apply elem_of_union_l, elem_of_singleton. }
  split_and!.
  - apply normalize_url_fragment_only.
  - apply normalize_link_fragment_only.
  - intros cfg s q' soup imgs links Hq Hvis Hne Hdom Hrob Hget Himgs Hlinks
      Hhref.
    rewrite (loop_body_written cfg env s base q' soup imgs links) by done.
    eexists. split; [reflexivity|].
    pose proof (write_page_fields cfg env s base q' soup imgs links) as Hf.
    cbv zeta in Hf. destruct Hf as (-> & -> & _). split.
    + rewrite enqueue_spec. apply elem_of_app. right.
      apply list_elem_of_filter. split; [done|].
      apply elem_of_elements.
      apply (find_all_links_from_spec env _ _ _ _ base Hlinks).
      right. exists (String "#" frag).
      split_and!; [done|apply normalize_url_fragment_only| |done].
      by destruct base.
    + by apply elem_of_union_l, elem_of_singleton.
  - intros vis q0. apply Hcw. apply Forall_singleton. by exists frag.
  - intros s q' record hrefs Hq Hvis Hsite Hrob Hex Hlinks Hall.
    unfold CommonWanderer.loop_body. rewrite Hq.
    rewrite bool_decide_eq_false_2 by done.
    rewrite Hsite, Hrob, Hex, Hlinks. cbn [negb].
    rewrite Hcw by done. by eexists.
Qed.

(** C8 on the fixture: the start page of scrape_srilanka.py links to
    [#top] and is queued again. *)
Lemma fragment_only_href_witness :
  ScrapeSrilanka.normalize_url Fixture.env Fixture.home (Some "#top")
  = Some (Some Fixture.home) /\
  exists s',
    ScrapeSrilanka.loop_body Fixture.cfg Fixture.env
      (Fixture.at_url Fixture.home) = ScrapeSrilanka.Next s' /\
    Fixture.home ∈ ScrapeSrilanka.q s' /\
    Fixture.home ∈ ScrapeSrilanka.visited s'.
Proof.
  destruct (fragment_only_href Fixture.env Fixture.cw_env Fixture.home "top")
    as (Hn & _ & Hq & _).
  split; [exact Hn|].
  apply (Hq Fixture.cfg (Fixture.at_url Fixture.home) [] Fixture.soup_home
           (default ∅ (ScrapeSrilanka.find_all_images Fixture.env
                         Fixture.soup_home Fixture.home))
           (default ∅ (ScrapeSrilanka.find_all_links Fixture.env
                         Fixture.soup_home Fixture.home))).
  - reflexivity.
  - apply not_elem_of_empty.
  - discriminate.
  - reflexivity.
  - reflexivity.
  - reflexivity.
  - vm_compute. reflexivity.
  - vm_compute. reflexivity.
  - apply list_elem_of_In. right. left. reflexivity.
Defined.

(** C8 fails as stated for thecommonwanderer.py: a page whose only link is
    [#top] is read twice and nothing is put back into the queue. *)
Lemma fragment_only_href_counterexample :
  CommonWanderer.normalize_link (Fixture.cw_env_page ["#top"])
    Fixture.cw_page "#top" = Some (Some Fixture.cw_page) /\
  CommonWanderer.requests
    (CommonWanderer.iterate 3 (Fixture.cw_env_page ["#top"]) 1
       (CommonWanderer.init [Fixture.cw_page]))
  = [CommonWanderer.ExtractGet Fixture.cw_page;
     CommonWanderer.LinksGet Fixture.cw_page] /\
  CommonWanderer.q
    (CommonWanderer.iterate 3 (Fixture.cw_env_page ["#top"]) 1
       (CommonWanderer.init [Fixture.cw_page])) = [] /\
  ScrapeSrilanka.q
    (ScrapeSrilanka.iterate Fixture.cfg Fixture.env 1
       (ScrapeSrilanka.init Fixture.home ∅))
  = [Fixture.admin; Fixture.beaches; Fixture.home].
Proof. split_and!; vm_compute; reflexivity. Qed.

(** The budget can end the crawl with pages still in the queue: with
    [MAX_PAGES = 1] the fixture's start page is fetched and its links stay
    queued. *)
Example budget_leaves_queue :
  match ScrapeSrilanka.crawl
          {| ScrapeSrilanka.MAX_PAGES := 1;
             ScrapeSrilanka.DOWNLOAD_IMAGES := true |}
          Fixture.env 1 Fixture.home ∅ with
  | ScrapeSrilanka.Done s =>
      Some (ScrapeSrilanka.pages_crawled s, ScrapeSrilanka.q s)
  | _ => None
  end
  = Some (1, [Fixture.admin; Fixture.beaches; Fixture.home]).
Proof. vm_compute. reflexivity. Qed.

(** The example of the spec: one seed, [MAX_PAGES = 3], A linking to B, C
    and D, B linking back to A.  Three records, A first and only once, and
    the fourth page left in the queue. *)
Example spec_scenario :
  match ScrapeSrilanka.crawl Fixture.cfg Fixture.graph_env 5
          "https://www.srilanka.travel/a" ∅ with
  | ScrapeSrilanka.Done s =>
      Some (map ScrapeSrilanka.rec_url (ScrapeSrilanka.out_f s),
            ScrapeSrilanka.q s)
  | _ => None
  end
  = Some (["https://www.srilanka.travel/a"; "https://www.srilanka.travel/c";
           "https://www.srilanka.travel/b"],
          ["https://www.srilanka.travel/d"]).
Proof. vm_compute. reflexivity. Qed.

(** A page with a malformed link ends the crawl: the page was requested,
    nothing is written, and the exception comes out of [crawl]. *)
Example malformed_link_ends_crawl :
  ScrapeSrilanka.find_all_links Fixture.env Fixture.soup_broken Fixture.broken
  = None /\
  match ScrapeSrilanka.crawl Fixture.cfg Fixture.env 3 Fixture.broken ∅ with
  | ScrapeSrilanka.Crashed s =>
      Some (ScrapeSrilanka.requests s, ScrapeSrilanka.out_f s,
            ScrapeSrilanka.pages_crawled s)
  | _ => None
  end
  = Some ([ScrapeSrilanka.PageGet Fixture.broken], [], 0).
Proof. split; vm_compute; reflexivity. Qed.


(** * Further properties *)

(** ** [get_page], whatever the server does *)

(** One iteration of the [for] of [get_page]. *)
Lemma attempts_step (server : Z -> Ella.Response) (url : string)
    (max_retries attempt : Z) (todo : nat) :
  Ella.attempts server url max_retries attempt (S todo)
  = if EllaLog.goes_on (server attempt) then
      ([Ella.Delay (2 + attempt); Ella.Get url]
         ++ EllaLog.wait_after max_retries attempt (server attempt)
         ++ (Ella.attempts server url max_retries (attempt + 1) todo).1,
       (Ella.attempts server url max_retries (attempt + 1) todo).2)
    else ([Ella.Delay (2 + attempt); Ella.Get url],
          EllaLog.returned (server attempt)).
Proof.
  cbn [Ella.attempts].
  destruct (Ella.attempts server url max_retries (attempt + 1) todo)
    as [evs r].
  destruct (server attempt) as [code content| | |]; try done.
  unfold EllaLog.goes_on, EllaLog.wait_after, EllaLog.returned.
  destruct (code =? 403)%Z; [done|].
  destruct (code =? 404)%Z; [done|].
  by destruct (Ella.raises_for_status code).
Qed.

Lemma wait_after_quiet (max_retries attempt : Z) (r : Ella.Response) :
  Ella.gets (EllaLog.wait_after max_retries attempt r) = [] /\
  EllaLog.delays (EllaLog.wait_after max_retries attempt r) = [].
Proof.
  unfold EllaLog.wait_after.
  destruct r as [code content| | |]; try destruct (code =? 403)%Z;
    by destruct (attempt <? max_retries - 1)%Z.
Qed.

Lemma attempts_gets (server : Z -> Ella.Response) (url : string)
    (max_retries attempt : Z) (todo : nat) :
  Ella.gets (Ella.attempts server url max_retries attempt todo).1
  = repeat url (length (Ella.gets
                          (Ella.attempts server url max_retries attempt todo).1))
  /\ length (Ella.gets (Ella.attempts server url max_retries attempt todo).1)
     <= todo.
Proof.
  revert attempt. induction todo as [|todo IH]; intros attempt; [done|].
  rewrite attempts_step. destruct (IH (attempt + 1)%Z) as [IH1 IH2].
  destruct (EllaLog.goes_on (server attempt)); cbn [fst].
  - destruct (wait_after_quiet max_retries attempt (server attempt)) as [Hw _].
    unfold Ella.gets in *. rewrite !omap_app, Hw. simpl.
    split; [by rewrite <- IH1|lia].
  - simpl. split; [done|lia].
Qed.

(** X1.  Whatever the server answers, [get_page] requests only the URL it
    was given, and at most [max_retries] times; with [max_retries <= 0] it
    requests nothing. *)
Theorem get_page_request_bound (server : Z -> Ella.Response) (url : string)
    (max_retries : Z) :
  Forall (fun u => u = url) (Ella.gets (Ella.get_page server url max_retries).1)
  /\ length (Ella.gets (Ella.get_page server url max_retries).1)
     <= Z.to_nat max_retries.
Proof.
  unfold Ella.get_page.
  destruct (attempts_gets server url max_retries 0 (Z.to_nat max_retries))
    as [H1 H2].
  split; [|done]. rewrite H1. apply Forall_forall. intros u Hu.
  by apply list_elem_of_In, repeat_spec in Hu.
Qed.

Lemma attempts_delays (server : Z -> Ella.Response) (url : string)
    (max_retries attempt : Z) (todo : nat) :
  EllaLog.delays (Ella.attempts server url max_retries attempt todo).1
  = map (fun k => (2 + (attempt + Z.of_nat k))%Z)
      (seq 0 (length (Ella.gets
                        (Ella.attempts server url max_retries attempt todo).1))).
Proof.
  revert attempt. induction todo as [|todo IH]; intros attempt; [done|].
  rewrite attempts_step. specialize (IH (attempt + 1)%Z).
  destruct (EllaLog.goes_on (server attempt)); cbn [fst].
  - destruct (wait_after_quiet max_retries attempt (server attempt))
      as [Hw Hd].
    unfold Ella.gets, EllaLog.delays in *. rewrite !omap_app, Hw, Hd. simpl.
    rewrite IH. f_equal; [f_equal; lia|].
    rewrite <- seq_shift, map_map. apply map_ext. intros k. f_equal. lia.
  - simpl. f_equal. f_equal. lia.
Qed.

Lemma attempts_log (server : Z -> Ella.Response) (url : string)
    (max_retries attempt : Z) (todo : nat) :
  (Ella.attempts server url max_retries attempt todo).1
  = flat_map
      (fun k : nat =>
         [Ella.Delay (2 + (attempt + Z.of_nat k)); Ella.Get url]
           ++ (if EllaLog.goes_on (server (attempt + Z.of_nat k)%Z)
               then EllaLog.wait_after max_retries (attempt + Z.of_nat k)
                      (server (attempt + Z.of_nat k)%Z)
               else []))
      (seq 0 (length (Ella.gets
                        (Ella.attempts server url max_retries attempt todo).1))).
Proof.
  revert attempt. induction todo as [|todo IH]; intros attempt; [done|].
  rewrite attempts_step. specialize (IH (attempt + 1)%Z).
  destruct (EllaLog.goes_on (server attempt)) eqn:Hgo; cbn [fst].
  - destruct (wait_after_quiet max_retries attempt (server attempt))
      as [Hw _].
    unfold Ella.gets in *. rewrite !omap_app, Hw. cbn [omap app length].
    simpl length. cbn [seq flat_map]. rewrite flat_map_seq_S.
    change (Z.of_nat 0) with 0%Z. rewrite Z.add_0_r, Hgo.
    cbn [app]. do 2 f_equal. f_equal.
    rewrite IH at 1. apply flat_map_ext. intros k.
    by replace (attempt + 1 + Z.of_nat k)%Z
      with (attempt + Z.of_nat (S k))%Z by lia.
  - simpl. change (Z.of_nat 0) with 0%Z. by rewrite Z.add_0_r, Hgo.
Qed.

(** X2.  Whatever the server answers, every request of [get_page] comes
    right after a wait that grows by a second per attempt: 2 seconds
    before the first request, 3 before the second, and so on.  The events
    of [get_page] are, attempt by attempt, that wait, the request, and,
    when the attempt is retried, the wait that follows it (5 seconds after
    a 403, else the backoff, which the last attempt skips); the waits that
    follow hold no request and no wait of the first kind. *)
Theorem get_page_progressive_delay (server : Z -> Ella.Response)
    (url : string) (max_retries : Z) :
  (Ella.get_page server url max_retries).1
  = flat_map
      (fun k : nat =>
         [Ella.Delay (2 + Z.of_nat k); Ella.Get url]
           ++ (if EllaLog.goes_on (server (Z.of_nat k))
               then EllaLog.wait_after max_retries (Z.of_nat k)
                      (server (Z.of_nat k))
               else []))
      (seq 0 (length (Ella.gets (Ella.get_page server url max_retries).1))) /\
  (forall k r, Ella.gets (EllaLog.wait_after max_retries k r) = [] /\
               EllaLog.delays (EllaLog.wait_after max_retries k r) = []) /\
  EllaLog.delays (Ella.get_page server url max_retries).1
  = map (fun k => (2 + Z.of_nat k)%Z)
      (seq 0 (length (Ella.gets (Ella.get_page server url max_retries).1))).
Proof.
  split_and!.
  - unfold Ella.get_page. rewrite attempts_log at 1.
    apply flat_map_ext. intros k. by rewrite Z.add_0_l.
  - intros k r. apply wait_after_quiet.
  - unfold Ella.get_page. rewrite attempts_delays. apply map_ext. intros k. lia.
Qed.

(** The attempts up to the first one that does not go on. *)
Lemma attempts_first_final (server : Z -> Ella.Response) (url : string)
    (max_retries : Z) (k : nat) (attempt : Z) (todo : nat) :
  k < todo ->
  (forall j, j < k -> EllaLog.goes_on (server (attempt + Z.of_nat j)%Z) = true) ->
  EllaLog.goes_on (server (attempt + Z.of_nat k)%Z) = false ->
  (Ella.attempts server url max_retries attempt todo).2
  = EllaLog.returned (server (attempt + Z.of_nat k)%Z) /\
  length (Ella.gets (Ella.attempts server url max_retries attempt todo).1)
  = S k.
Proof.
  revert attempt todo. induction k as [|k IH]; intros attempt todo Hk Hgo Hstop.
  - destruct todo as [|todo]; [lia|]. rewrite attempts_step.
    replace (attempt + Z.of_nat 0)%Z with attempt in * by lia.
    by rewrite Hstop.
  - destruct todo as [|todo]; [lia|]. rewrite attempts_step.
    pose proof (Hgo 0 ltac:(lia)) as H0.
    replace (attempt + Z.of_nat 0)%Z with attempt in H0 by lia.
    rewrite H0. cbn [fst snd].
    destruct (IH (attempt + 1)%Z todo) as [IH1 IH2]; [lia| |..].
    + intros j Hj. replace (attempt + 1 + Z.of_nat j)%Z
        with (attempt + Z.of_nat (S j))%Z by lia. apply Hgo. lia.
    + by replace (attempt + 1 + Z.of_nat k)%Z
        with (attempt + Z.of_nat (S k))%Z by lia.
    + replace (attempt + 1 + Z.of_nat k)%Z
        with (attempt + Z.of_nat (S k))%Z in IH1 by lia.
      split; [done|].
      destruct (wait_after_quiet max_retries attempt (server attempt)) as [Hw _].
      unfold Ella.gets in *. rewrite !omap_app, Hw. simpl. by rewrite IH2.
Qed.

(** X3.  [get_page] stops at the first attempt that neither raises nor is
    answered with a 403 or another error status than 404: it has then issued
    one request per attempt so far, and returns the page of that response, or
    [None] when the response is a 404, which is not retried. *)
Theorem get_page_stops_at_first_answer (server : Z -> Ella.Response)
    (url : string) (max_retries : Z) (k : nat) :
  (Z.of_nat k < max_retries)%Z ->
  (forall j, j < k -> EllaLog.goes_on (server (Z.of_nat j)) = true) ->
  EllaLog.goes_on (server (Z.of_nat k)) = false ->
  (Ella.get_page server url max_retries).2
  = EllaLog.returned (server (Z.of_nat k)) /\
  length (Ella.gets (Ella.get_page server url max_retries).1) = S k.
Proof.
  intros Hk Hgo Hstop. unfold Ella.get_page.
  apply (attempts_first_final server url max_retries k 0).
  - lia.
  - intros j Hj. rewrite Z.add_0_l. by apply Hgo.
  - by rewrite Z.add_0_l.
Qed.

(** X3 on a server that answers a 503, then times out, then serves the
    page: three requests, and the page. *)
Lemma get_page_stops_at_first_answer_witness :
  (Ella.get_page EllaLog.server_recovers Fixture.home 3).2
  = Some "<html>Ella</html>" /\
  length (Ella.gets (Ella.get_page EllaLog.server_recovers Fixture.home 3).1)
  = 3.
Proof.
  apply (get_page_stops_at_first_answer EllaLog.server_recovers Fixture.home
           3 2).
  - lia.
  - intros j Hj. destruct j as [|[|j]]; [reflexivity|reflexivity|lia].
  - reflexivity.
Defined.

Lemma attempts_result_sound (server : Z -> Ella.Response) (url : string)
    (max_retries attempt : Z) (todo : nat) (content : string) :
  (Ella.attempts server url max_retries attempt todo).2 = Some content ->
  exists k code,
    k < todo /\
    server (attempt + Z.of_nat k)%Z = Ella.Status code content /\
    Ella.raises_for_status code = false.
Proof.
  revert attempt. induction todo as [|todo IH]; intros attempt; [done|].
  rewrite attempts_step.
  destruct (EllaLog.goes_on (server attempt)) eqn:Hgo; cbn [snd].
  - intros H. apply IH in H as (k & code & Hk & Hs & Hr).
    exists (S k), code. split; [lia|]. split; [|done].
    by replace (attempt + Z.of_nat (S k))%Z
      with (attempt + 1 + Z.of_nat k)%Z by lia.
  - intros H. exists 0. rewrite Z.add_0_r.
    destruct (server attempt) as [code c| | |]; try done.
    exists code. simpl in *. split; [lia|].
    destruct (code =? 403)%Z eqn:H403; [done|].
    destruct (code =? 404)%Z eqn:H404; [done|].
    simpl in Hgo. injection H as ->. done.
Qed.

(** X4.  A page that [get_page] returns is the body of a response of one of
    its attempts, and of one whose status is no error status: nothing is
    returned from a 4xx or 5xx response, or beyond [max_retries] attempts. *)
Theorem get_page_result_sound (server : Z -> Ella.Response) (url : string)
    (max_retries : Z) (content : string) :
  (Ella.get_page server url max_retries).2 = Some content ->
  exists k code,
    (0 <= k < max_retries)%Z /\
    server k = Ella.Status code content /\
    (code < 400 \/ 600 <= code)%Z.
Proof.
  unfold Ella.get_page. intros H.
  apply attempts_result_sound in H as (k & code & Hk & Hs & Hr).
  exists (Z.of_nat k), code. rewrite Z.add_0_l in Hs.
  split; [lia|]. split; [done|].
  unfold Ella.raises_for_status in Hr.
  apply andb_false_iff in Hr as [Hr|Hr]; [left|right]; lia.
Qed.

Lemma get_page_result_sound_witness :
  exists k code,
    (0 <= k < 3)%Z /\
    EllaLog.server_recovers k = Ella.Status code "<html>Ella</html>" /\
    (code < 400 \/ 600 <= code)%Z.
Proof.
  apply (get_page_result_sound EllaLog.server_recovers Fixture.home 3).
  reflexivity.
Defined.

Lemma attempts_forbidden (server : Z -> Ella.Response) (url : string)
    (max_retries : Z) (todo : nat) (attempt : Z) :
  (forall k, (attempt <= k)%Z -> exists content,
     server k = Ella.Status 403 content) ->
  Ella.attempts server url max_retries attempt todo
  = (flat_map (fun k => [Ella.Delay (2 + (attempt + Z.of_nat k));
                         Ella.Get url; Ella.ForbiddenWait 5])
       (seq 0 todo), None).
Proof.
  revert attempt. induction todo as [|todo IH]; intros attempt Hall; [done|].
  rewrite attempts_step. destruct (Hall attempt ltac:(lia)) as [c Hc].
  rewrite Hc. simpl EllaLog.goes_on. cbn iota.
  rewrite IH by (intros k Hk; apply Hall; lia).
  cbn [fst snd seq flat_map]. unfold EllaLog.wait_after. simpl (403 =? 403)%Z.
  cbn iota. rewrite Z.add_0_r. f_equal. simpl. do 3 f_equal.
  rewrite flat_map_seq_S.
  apply flat_map_ext. intros k. do 2 f_equal. lia.
Qed.

(** X5.  When every attempt is answered with a 403, [get_page] makes all
    [max_retries] attempts, waits 5 seconds after each of them, the last one
    too, never takes the backoff of the other failures, and returns [None]. *)
Theorem get_page_forbidden (server : Z -> Ella.Response) (url : string)
    (max_retries : Z) :
  (forall k, (0 <= k)%Z -> exists content, server k = Ella.Status 403 content) ->
  Ella.get_page server url max_retries
  = (flat_map (fun k => [Ella.Delay (2 + Z.of_nat k); Ella.Get url;
                         Ella.ForbiddenWait 5])
       (seq 0 (Z.to_nat max_retries)), None).
Proof.
  intros Hall. unfold Ella.get_page. by rewrite attempts_forbidden.
Qed.

Lemma get_page_forbidden_witness :
  Ella.get_page EllaLog.server_403 Fixture.home 2
  = ([Ella.Delay 2; Ella.Get Fixture.home; Ella.ForbiddenWait 5;
      Ella.Delay 3; Ella.Get Fixture.home; Ella.ForbiddenWait 5], None).
Proof.
  apply (get_page_forbidden EllaLog.server_403 Fixture.home 2).
  intros k _. by exists "Forbidden".
Defined.

(** ** scrape_srilanka.py: what the records and the images directory hold *)

Section SrilankaRecords.
Import ScrapeSrilanka.
Context (cfg : Config) (env : Env).

Lemma download_image_files (fs : gset string) (url : string) :
  fs ⊆ (download_image env fs url).2 /\
  forall p, (download_image env fs url).1 = Some p ->
            p ∈ (download_image env fs url).2.
Proof.
  unfold download_image.
  destruct (image_get env url); [|by split].
  destruct (file_open env _); [|by split].
  destruct (file_write env _ _); simpl.
  - split; [apply union_subseteq_r|]. intros p [= <-].
    by apply elem_of_union_l, elem_of_singleton.
  - split; [apply union_subseteq_r|done].
Qed.

(** What the images loop adds to [downloaded], to the directory and to the
    log. *)
Lemma download_loop_adds (images : list string) (fs : gset string)
    (downloaded : list (string * string)) (log : list Request) :
  exists new,
    (download_loop env images fs downloaded log).1.1 = downloaded ++ new /\
    map fst new `sublist_of` images /\
    fs ⊆ (download_loop env images fs downloaded log).1.2 /\
    Forall (fun up => allowed env up.1 = true /\ up.2 <> EmptyString /\
                      up.2 ∈ (download_loop env images fs downloaded log).1.2)
      new.
Proof.
  revert fs downloaded log.
  induction images as [|img rest IH]; intros fs downloaded log.
  - exists []. simpl. by rewrite app_nil_r.
  - cbn [download_loop]. destruct (allowed env img) eqn:Hrob.
    + pose proof (download_image_files fs img) as [Hsub Hin].
      destruct (download_image env fs img) as [saved fs'] eqn:Hdl.
      simpl in Hsub, Hin.
      destruct saved as [p|]; simpl.
      * destruct (PyStr.truthy p) eqn:Hp.
        -- destruct (IH fs' (downloaded ++ [(img, p)])
                       (log ++ [ImageGet img])) as (new & -> & Hs & Hf & Hall).
           exists ((img, p) :: new). rewrite <- app_assoc.
           split_and!; [done|by apply sublist_skip|by etrans|].
           apply Forall_cons. split; [|done]. simpl.
           split_and!; [done|by destruct p|]. apply Hf. by apply Hin.
        -- destruct (IH fs' downloaded (log ++ [ImageGet img]))
             as (new & -> & Hs & Hf & Hall).
           exists new. split_and!; [done|by apply sublist_cons|by etrans|done].
      * destruct (IH fs' downloaded (log ++ [ImageGet img]))
          as (new & -> & Hs & Hf & Hall).
        exists new. split_and!; [done|by apply sublist_cons|by etrans|done].
    + destruct (IH fs downloaded log) as (new & -> & Hs & Hf & Hall).
      exists new. split_and!; [done|by apply sublist_cons|done..].
Qed.

(** The record of a page, its downloads and the state after it. *)
Lemma write_page_downloads (s : State) (url : string) (q' : list string)
    (soup : Soup) (imgs links : gset string) :
  exists r,
    out_f (write_page cfg env s url q' soup imgs links) = out_f s ++ [r] /\
    rec_url r = url /\
    rec_title r = soup_title soup /\
    rec_all_images r = elements imgs /\
    rec_outbound_links_count r = size links /\
    map fst (rec_downloaded_images r) `sublist_of` rec_all_images r /\
    files s ⊆ files (write_page cfg env s url q' soup imgs links) /\
    Forall (fun up => allowed env up.1 = true /\ up.2 <> EmptyString /\
                      up.2 ∈ files (write_page cfg env s url q' soup imgs links))
      (rec_downloaded_images r) /\
    (DOWNLOAD_IMAGES cfg = false ->
       rec_downloaded_images r = [] /\
       files (write_page cfg env s url q' soup imgs links) = files s /\
       requests (write_page cfg env s url q' soup imgs links)
       = requests s ++ [PageGet url]).
Proof.
  unfold write_page, download_images.
  destruct (DOWNLOAD_IMAGES cfg) eqn:Hon; cbn [andb].
  - destruct (bool_decide _).
    + destruct (download_loop_adds (elements imgs)
                  (files s) [] (requests s ++ [PageGet url]))
        as (new & Hnew & Hs & Hf & Hall).
      destruct (download_loop env _ (files s) [] _) as [[downloaded fs'] log'].
      simpl in *. subst downloaded.
      eexists. split; [done|]. simpl. split_and!; try done.
    + eexists. split; [done|]. simpl.
      split_and!; try done. apply sublist_nil_l.
  - eexists. split; [done|]. simpl.
    split_and!; try done. apply sublist_nil_l.
Qed.

(** A property of records that every page gives its record holds of all the
    records of the output. *)
Lemma records_invariant (P : PageRecord -> Prop) (start_url : string)
    (fs : gset string) (n : nat) :
  (forall s url q' soup imgs links r,
     q s = url :: q' -> url ∉ visited s -> same_domain env url = true ->
     allowed env url = true -> session_get env url = Some soup ->
     find_all_images env soup url = Some imgs ->
     find_all_links env soup url = Some links ->
     out_f (write_page cfg env s url q' soup imgs links) = out_f s ++ [r] ->
     P r) ->
  Forall P (out_f (iterate cfg env n (init start_url fs))).
Proof.
  intros HP. apply iterate_invariant; [by apply Forall_nil|].
  intros s1 s2 Hall _ Hstep. iteration_cases Hstep; try done.
  destruct (write_page_downloads s1 url q' soup imgs links) as (r & Hout & _).
  rewrite Hout. apply Forall_app. split; [done|]. apply Forall_singleton.
  by eapply HP.
Qed.

End SrilankaRecords.

(** X6.  Every record that scrape_srilanka.py's [crawl] writes is for a page
    of the site that robots.txt allows, whose GET succeeded and whose
    images and links were found without an exception, and carries that
    page's title, all its image URLs and the number of its same-domain
    links. *)
Theorem crawl_records_of_fetched_pages (cfg : ScrapeSrilanka.Config)
    (env : ScrapeSrilanka.Env) (start_url : string) (fs : gset string)
    (n : nat) :
  Forall (fun r =>
            ScrapeSrilanka.same_domain env (ScrapeSrilanka.rec_url r) = true /\
            ScrapeSrilanka.allowed env (ScrapeSrilanka.rec_url r) = true /\
            exists soup imgs links,
              ScrapeSrilanka.session_get env (ScrapeSrilanka.rec_url r)
              = Some soup /\
              ScrapeSrilanka.find_all_images env soup
                (ScrapeSrilanka.rec_url r) = Some imgs /\
              ScrapeSrilanka.find_all_links env soup
                (ScrapeSrilanka.rec_url r) = Some links /\
              ScrapeSrilanka.rec_title r = ScrapeSrilanka.soup_title soup /\
              ScrapeSrilanka.rec_all_images r = elements imgs /\
              ScrapeSrilanka.rec_outbound_links_count r = size links)
    (ScrapeSrilanka.out_f
       (ScrapeSrilanka.iterate cfg env n (ScrapeSrilanka.init start_url fs))).
Proof.
  apply records_invariant.
  intros s url q' soup imgs links r Hq Hvis Hdom Hrob Hget Himgs Hlinks Hout.
  destruct (write_page_downloads cfg env s url q' soup imgs links)
    as (r' & Hout' & Hurl & Ht & Hi & Hl & _).
  rewrite Hout in Hout'. apply app_inj_tail in Hout' as [_ <-].
  rewrite Hurl. split_and!; [done..|]. by exists soup, imgs, links.
Qed.

(** X7.  In every record of scrape_srilanka.py, [downloaded_images] lists
    only images of [all_images], in the same order and each at most once,
    only images that robots.txt allows, and with a non-empty saved path. *)
Theorem crawl_downloaded_images_listed (cfg : ScrapeSrilanka.Config)
    (env : ScrapeSrilanka.Env) (start_url : string) (fs : gset string)
    (n : nat) :
  Forall (fun r =>
            map fst (ScrapeSrilanka.rec_downloaded_images r)
              `sublist_of` ScrapeSrilanka.rec_all_images r /\
            NoDup (map fst (ScrapeSrilanka.rec_downloaded_images r)) /\
            Forall (fun up => ScrapeSrilanka.allowed env up.1 = true /\
                              up.2 <> EmptyString)
              (ScrapeSrilanka.rec_downloaded_images r))
    (ScrapeSrilanka.out_f
       (ScrapeSrilanka.iterate cfg env n (ScrapeSrilanka.init start_url fs))).
Proof.
  apply records_invariant.
  intros s url q' soup imgs links r Hq Hvis Hdom Hrob Hget Himgs Hlinks Hout.
  destruct (write_page_downloads cfg env s url q' soup imgs links)
    as (r' & Hout' & _ & _ & Hi & _ & Hsub & _ & Hall & _).
  rewrite Hout in Hout'. apply app_inj_tail in Hout' as [_ <-].
  split_and!; [done| |].
  - eapply sublist_NoDup; [|done]. rewrite Hi. apply NoDup_elements.
  - eapply Forall_impl; [done|]. intros up (? & ? & _). done.
Qed.

(** ** scrape_srilanka.py: requests, queue and images directory *)

Lemma image_gets_snoc_page (log : list ScrapeSrilanka.Request) (url : string) :
  image_gets (log ++ [ScrapeSrilanka.PageGet url]) = image_gets log.
Proof. unfold image_gets. rewrite omap_app. simpl. by rewrite app_nil_r. Qed.

(** X8.  With [DOWNLOAD_IMAGES = False], scrape_srilanka.py's [crawl] never
    requests an image, leaves the images directory as it found it, and
    writes every record with an empty [downloaded_images]. *)
Theorem crawl_without_image_download (cfg : ScrapeSrilanka.Config)
    (env : ScrapeSrilanka.Env) (start_url : string) (fs : gset string)
    (n : nat) :
  ScrapeSrilanka.DOWNLOAD_IMAGES cfg = false ->
  image_gets (ScrapeSrilanka.requests
                (ScrapeSrilanka.iterate cfg env n
                   (ScrapeSrilanka.init start_url fs))) = [] /\
  ScrapeSrilanka.files
    (ScrapeSrilanka.iterate cfg env n (ScrapeSrilanka.init start_url fs)) = fs /\
  Forall (fun r => ScrapeSrilanka.rec_downloaded_images r = [])
    (ScrapeSrilanka.out_f
       (ScrapeSrilanka.iterate cfg env n (ScrapeSrilanka.init start_url fs))).
Proof.
  intros Hoff.
  apply (iterate_invariant cfg env (fun s =>
    image_gets (ScrapeSrilanka.requests s) = [] /\
    ScrapeSrilanka.files s = fs /\
    Forall (fun r => ScrapeSrilanka.rec_downloaded_images r = [])
      (ScrapeSrilanka.out_f s))).
  - by split_and!.
  - intros s1 s2 (Hlog & Hfs & Hrec) _ Hstep.
    iteration_cases Hstep; simpl; try done.
    + by rewrite image_gets_snoc_page.
    + destruct (write_page_downloads cfg env s1 url q' soup imgs links)
        as (r & Hout & _ & _ & _ & _ & _ & _ & _ & Hno).
      destruct (Hno Hoff) as (Hd & -> & ->).
      rewrite image_gets_snoc_page, Hout.
      split_and!; [done..|]. apply Forall_app. split; [done|].
      by apply Forall_singleton.
    + by rewrite image_gets_snoc_page.
Qed.

Lemma crawl_without_image_download_witness :
  image_gets (ScrapeSrilanka.requests
                (ScrapeSrilanka.iterate cfg_no_images Fixture.env 5
                   (ScrapeSrilanka.init Fixture.home ∅))) = [] /\
  ScrapeSrilanka.files
    (ScrapeSrilanka.iterate cfg_no_images Fixture.env 5
       (ScrapeSrilanka.init Fixture.home ∅)) = ∅ /\
  Forall (fun r => ScrapeSrilanka.rec_downloaded_images r = [])
    (ScrapeSrilanka.out_f
       (ScrapeSrilanka.iterate cfg_no_images Fixture.env 5
          (ScrapeSrilanka.init Fixture.home ∅))).
Proof.
  apply (crawl_without_image_download cfg_no_images Fixture.env Fixture.home
           ∅ 5).
  reflexivity.
Defined.

(** X9.  The records of scrape_srilanka.py come in the order in which their
    pages were requested, and only requested pages have a record: the URLs
    of the output are a subsequence of the page requests. *)
Theorem crawl_records_in_request_order (cfg : ScrapeSrilanka.Config)
    (env : ScrapeSrilanka.Env) (start_url : string) (fs : gset string)
    (n : nat) :
  map ScrapeSrilanka.rec_url
    (ScrapeSrilanka.out_f
       (ScrapeSrilanka.iterate cfg env n (ScrapeSrilanka.init start_url fs)))
  `sublist_of`
  ScrapeSrilanka.page_gets
    (ScrapeSrilanka.requests
       (ScrapeSrilanka.iterate cfg env n (ScrapeSrilanka.init start_url fs))).
Proof.
  apply (iterate_invariant cfg env (fun s =>
    map ScrapeSrilanka.rec_url (ScrapeSrilanka.out_f s)
    `sublist_of` ScrapeSrilanka.page_gets (ScrapeSrilanka.requests s))).
  - simpl. apply sublist_nil_l.
  - intros s1 s2 Hsub _ Hstep. iteration_cases Hstep; simpl; try done.
    + rewrite page_gets_snoc. by apply sublist_inserts_r.
    + pose proof (write_page_fields cfg env s1 url q' soup imgs links) as Hf.
      cbv zeta in Hf.
      destruct Hf as (_ & _ & _ & (r & -> & Hurl & _) & (dl & -> & _)).
      rewrite page_gets_images, page_gets_snoc, map_app. simpl. rewrite Hurl.
      by apply sublist_app.
    + rewrite page_gets_snoc. by apply sublist_inserts_r.
Qed.

(** X10.  scrape_srilanka.py never queues a link of another domain, nor an
    empty one: every URL in the queue is the seed or a non-empty same-domain
    URL. *)
Theorem crawl_queue_same_domain (cfg : ScrapeSrilanka.Config)
    (env : ScrapeSrilanka.Env) (start_url : string) (fs : gset string)
    (n : nat) :
  Forall (fun u => u = start_url \/
                   (ScrapeSrilanka.same_domain env u = true /\
                    u <> EmptyString))
    (ScrapeSrilanka.q
       (ScrapeSrilanka.iterate cfg env n (ScrapeSrilanka.init start_url fs))).
Proof.
  apply (iterate_invariant cfg env (fun s =>
    Forall (fun u => u = start_url \/
                     (ScrapeSrilanka.same_domain env u = true /\
                      u <> EmptyString)) (ScrapeSrilanka.q s))).
  - simpl. apply Forall_singleton. by left.
  - intros s1 s2 Hall _ Hstep.
    assert (Htail : forall url q', ScrapeSrilanka.q s1 = url :: q' ->
              Forall (fun u => u = start_url \/
                        (ScrapeSrilanka.same_domain env u = true /\
                         u <> EmptyString)) q').
    { intros url q' Hq. rewrite Hq in Hall. by apply Forall_cons in Hall as [_ ?]. }
    iteration_cases Hstep; simpl; try by eapply Htail.
    pose proof (write_page_fields cfg env s1 url q' soup imgs links) as Hf.
    cbv zeta in Hf. destruct Hf as (_ & -> & _).
    rewrite enqueue_spec. apply Forall_app. split; [by eapply Htail|].
    apply Forall_forall. intros u Hu.
    apply list_elem_of_filter in Hu as [_ Hu].
    apply elem_of_elements in Hu.
    apply (find_all_links_from_spec env _ _ _ _ u Hlinks) in Hu
      as [Hu|(href & _ & _ & Ht & Hd)].
    + by apply elem_of_empty in Hu.
    + right. split; [done|]. by destruct u.
Qed.

(** X11.  The images directory only grows during scrape_srilanka.py's
    [crawl], and every [saved_path] of the output names a file that is in it
    when the crawl is over. *)
Theorem crawl_saved_files_exist (cfg : ScrapeSrilanka.Config)
    (env : ScrapeSrilanka.Env) (start_url : string) (fs : gset string)
    (n : nat) :
  fs ⊆ ScrapeSrilanka.files
         (ScrapeSrilanka.iterate cfg env n (ScrapeSrilanka.init start_url fs))
  /\
  Forall (fun r =>
            Forall (fun up =>
                      up.2 ∈ ScrapeSrilanka.files
                               (ScrapeSrilanka.iterate cfg env n
                                  (ScrapeSrilanka.init start_url fs)))
              (ScrapeSrilanka.rec_downloaded_images r))
    (ScrapeSrilanka.out_f
       (ScrapeSrilanka.iterate cfg env n (ScrapeSrilanka.init start_url fs))).
Proof.
  apply (iterate_invariant cfg env (fun s =>
    fs ⊆ ScrapeSrilanka.files s /\
    Forall (fun r => Forall (fun up => up.2 ∈ ScrapeSrilanka.files s)
                       (ScrapeSrilanka.rec_downloaded_images r))
      (ScrapeSrilanka.out_f s))).
  - split; [done|]. by apply Forall_nil.
  - intros s1 s2 (Hsub & Hall) _ Hstep. iteration_cases Hstep; simpl; try done.
    destruct (write_page_downloads cfg env s1 url q' soup imgs links)
      as (r & Hout & _ & _ & _ & _ & _ & Hgrow & Hnew & _).
    split; [by etrans|]. rewrite Hout. apply Forall_app. split.
    + eapply Forall_impl; [exact Hall|]. intros r0 Hr0. simpl in Hr0.
      eapply Forall_impl; [exact Hr0|]. intros up Hup. by apply Hgrow.
    + apply Forall_singleton. eapply Forall_impl; [exact Hnew|].
      intros up (_ & _ & ?). done.
Qed.

Lemma find_all_links_from_size (env : ScrapeSrilanka.Env)
    (hrefs : list string) (base : string) (links result : gset string) :
  ScrapeSrilanka.find_all_links_from env hrefs base links = Some result ->
  size result <= size links + length hrefs.
Proof.
  revert links. induction hrefs as [|href rest IH]; intros links;
    cbn [ScrapeSrilanka.find_all_links_from length].
  - intros [= <-]. lia.
  - destruct (ScrapeSrilanka.normalize_url env base (Some href)) as [[u|]|];
      cbn [mbind option_bind]; [| |done].
    + destruct (PyStr.truthy u && ScrapeSrilanka.same_domain env u).
      * intros Hres. specialize (IH ({[u]} ∪ links) Hres).
        pose proof (size_union_alt {[u]} links) as Hs.
        assert (size (links ∖ {[u]}) <= size links)
          by (apply subseteq_size, subseteq_difference_l; done).
        rewrite size_singleton in Hs. lia.
      * intros Hres. specialize (IH links Hres). lia.
    + intros Hres. specialize (IH links Hres). lia.
Qed.

Lemma find_all_images_from_spec (env : ScrapeSrilanka.Env)
    (srcs : list (option string)) (base : string) (imgs result : gset string)
    (u : string) :
  ScrapeSrilanka.find_all_images_from env srcs base imgs = Some result ->
  u ∈ result ->
  u ∈ imgs \/
  exists src, src ∈ srcs /\
    ScrapeSrilanka.normalize_url env base src = Some (Some u) /\
    u <> EmptyString.
Proof.
  revert imgs. induction srcs as [|src rest IH]; intros imgs;
    cbn [ScrapeSrilanka.find_all_images_from].
  - intros [= <-]. by left.
  - destruct (ScrapeSrilanka.normalize_url env base src) as [[v|]|] eqn:Hn;
      cbn [mbind option_bind]; [| |done].
    + destruct (PyStr.truthy v) eqn:Hv.
      * intros Hres H. apply (IH _ Hres) in H as [H|(s & Hs & Hrest)].
        -- apply elem_of_union in H as [H|H]; [|by left].
           apply elem_of_singleton in H as ->. right. exists src.
           split_and!; [by left|done|by destruct v].
        -- right. exists s. split; [by right|done].
      * intros Hres H. apply (IH _ Hres) in H as [H|(s & Hs & Hrest)];
          [by left|].
        right. exists s. split; [by right|done].
    + intros Hres H. apply (IH _ Hres) in H as [H|(s & Hs & Hrest)];
        [by left|].
      right. exists s. split; [by right|done].
Qed.

Lemma find_all_images_from_size (env : ScrapeSrilanka.Env)
    (srcs : list (option string)) (base : string) (imgs result : gset string) :
  ScrapeSrilanka.find_all_images_from env srcs base imgs = Some result ->
  size result <= size imgs + length srcs.
Proof.
  revert imgs. induction srcs as [|src rest IH]; intros imgs;
    cbn [ScrapeSrilanka.find_all_images_from length].
  - intros [= <-]. lia.
  - destruct (ScrapeSrilanka.normalize_url env base src) as [[u|]|];
      cbn [mbind option_bind]; [| |done].
    + destruct (PyStr.truthy u).
      * intros Hres. specialize (IH ({[u]} ∪ imgs) Hres).
        pose proof (size_union_alt {[u]} imgs) as Hs.
        assert (size (imgs ∖ {[u]}) <= size imgs)
          by (apply subseteq_size, subseteq_difference_l; done).
        rewrite size_singleton in Hs. lia.
      * intros Hres. specialize (IH imgs Hres). lia.
    + intros Hres. specialize (IH imgs Hres). lia.
Qed.

(** X12.  When it returns, [find_all_links] returns at most one link per
    anchor, and only non-empty same-domain URLs, each the normalization of
    an href of the page; [find_all_images] returns at most one URL per
    <img>, each non-empty and the normalization of the source of an <img>
    of the page.  Either raises only when [normalize_url] raises on an
    href, or on the source of an image, of the page. *)
Theorem find_all_links_images_bounds (env : ScrapeSrilanka.Env)
    (soup : ScrapeSrilanka.Soup) (base : string) :
  match ScrapeSrilanka.find_all_links env soup base with
  | Some links =>
      size links <= length (ScrapeSrilanka.soup_hrefs soup) /\
      (forall u, u ∈ links ->
         ScrapeSrilanka.same_domain env u = true /\ u <> EmptyString /\
         exists href, href ∈ ScrapeSrilanka.soup_hrefs soup /\
           ScrapeSrilanka.normalize_url env base (Some href) = Some (Some u))
  | None =>
      exists href, href ∈ ScrapeSrilanka.soup_hrefs soup /\
        ScrapeSrilanka.normalize_url env base (Some href) = None
  end /\
  match ScrapeSrilanka.find_all_images env soup base with
  | Some imgs =>
      size imgs <= length (ScrapeSrilanka.soup_img_srcs soup) /\
      (forall u, u ∈ imgs ->
         u <> EmptyString /\
         exists src, src ∈ ScrapeSrilanka.soup_img_srcs soup /\
           ScrapeSrilanka.normalize_url env base src = Some (Some u))
  | None =>
      exists src, src ∈ ScrapeSrilanka.soup_img_srcs soup /\
        ScrapeSrilanka.normalize_url env base src = None
  end.
Proof.
  unfold ScrapeSrilanka.find_all_links, ScrapeSrilanka.find_all_images.
  split.
  - destruct (ScrapeSrilanka.find_all_links_from env _ base ∅)
      as [links|] eqn:Hlinks.
    + split.
      * pose proof (find_all_links_from_size env _ base ∅ links Hlinks) as H.
        by rewrite size_empty in H.
      * intros u Hu.
        apply (find_all_links_from_spec env _ _ _ _ u Hlinks) in Hu
          as [Hu|(href & Hin & Hn & Ht & Hd)].
        -- by apply elem_of_empty in Hu.
        -- split_and!; [done|by destruct u|by exists href].
    + by apply find_all_links_from_raises in Hlinks.
  - destruct (ScrapeSrilanka.find_all_images_from env _ base ∅)
      as [imgs|] eqn:Himgs.
    + split.
      * pose proof (find_all_images_from_size env _ base ∅ imgs Himgs) as H.
        by rewrite size_empty in H.
      * intros u Hu.
        apply (find_all_images_from_spec env _ _ _ _ u Himgs) in Hu
          as [Hu|(src & Hin & Hn & Hne)].
        -- by apply elem_of_empty in Hu.
        -- split; [done|by exists src].
    + by apply find_all_images_from_raises in Himgs.
Qed.

(** ** scrape_srilanka.py: a crawl that runs out of queue has seen it all *)

Section SrilankaClosure.
Import ScrapeSrilanka.
Context (cfg : Config) (env : Env).

(** Every URL in [visited] was requested as a page or denied by robots. *)
Lemma visited_requested_or_denied (start_url : string) (fs : gset string)
    (n : nat) (u : string) :
  u ∈ visited (iterate cfg env n (init start_url fs)) ->
  u ∈ page_gets (requests (iterate cfg env n (init start_url fs))) \/
  allowed env u = false.
Proof.
  revert u.
  apply (iterate_invariant cfg env (fun s =>
    forall u, u ∈ visited s ->
              u ∈ page_gets (requests s) \/ allowed env u = false)).
  - intros u Hu. by apply elem_of_empty in Hu.
  - intros s1 s2 Hinv _ Hstep. iteration_cases Hstep; simpl; try done.
    + intros u Hu. apply elem_of_union in Hu as [Hu|Hu]; [|by apply Hinv].
      apply elem_of_singleton in Hu as ->. by right.
    + intros u Hu. rewrite page_gets_snoc.
      apply elem_of_union in Hu as [Hu|Hu].
      * apply elem_of_singleton in Hu as ->. left.
        apply elem_of_app. right. by left.
      * destruct (Hinv u Hu); [left|by right]. apply elem_of_app. by left.
    + pose proof (write_page_fields cfg env s1 url q' soup imgs links) as Hf.
      cbv zeta in Hf. destruct Hf as (-> & _ & _ & _ & (dl & -> & _)).
      intros u Hu. rewrite page_gets_images, page_gets_snoc.
      apply elem_of_union in Hu as [Hu|Hu].
      * apply elem_of_singleton in Hu as ->. left.
        apply elem_of_app. right. by left.
      * destruct (Hinv u Hu); [left|by right]. apply elem_of_app. by left.
    + intros u Hu. rewrite page_gets_snoc.
      destruct (Hinv u Hu); [left|by right]. apply elem_of_app. by left.
Qed.

(** Every link of a recorded page is in [visited], still in the queue, or
    was requested. *)
Lemma links_visited_or_queued (start_url : string) (fs : gset string)
    (n : nat) :
  Forall (fun r => forall soup links u,
            session_get env (rec_url r) = Some soup ->
            find_all_links env soup (rec_url r) = Some links ->
            u ∈ links ->
            u ∈ visited (iterate cfg env n (init start_url fs)) \/
            u ∈ q (iterate cfg env n (init start_url fs)) \/
            u ∈ page_gets (requests (iterate cfg env n (init start_url fs))))
    (out_f (iterate cfg env n (init start_url fs))).
Proof.
  apply (iterate_invariant cfg env (fun s =>
    Forall (fun r => forall soup links u,
              session_get env (rec_url r) = Some soup ->
              find_all_links env soup (rec_url r) = Some links ->
              u ∈ links ->
              u ∈ visited s \/ u ∈ q s \/ u ∈ page_gets (requests s))
      (out_f s))).
  - by apply Forall_nil.
  - intros s1 s2 Hinv _ Hstep.
    assert (Hpop : forall url q' (vis : gset string) (log : list Request),
              q s1 = url :: q' -> visited s1 ⊆ vis ->
              (forall v, v ∈ page_gets (requests s1) -> v ∈ page_gets log) ->
              (url ∈ vis \/ same_domain env url = false
               \/ url ∈ page_gets log) ->
              Forall (fun r => forall soup links u,
                        session_get env (rec_url r) = Some soup ->
                        find_all_links env soup (rec_url r) = Some links ->
                        u ∈ links ->
                        u ∈ vis \/ u ∈ q' \/ u ∈ page_gets log) (out_f s1)).
    { intros url q' vis log Hq Hsub Hlog Hurl.
      eapply Forall_impl; [exact Hinv|].
      intros r Hr soup links u Hget Hlinks Hu. simpl in Hr.
      destruct (Hr soup links u Hget Hlinks Hu) as [Hv|[Hv|Hv]];
        [left; by apply Hsub| |right; right; by apply Hlog].
      rewrite Hq in Hv. apply elem_of_cons in Hv as [->|Hv];
        [|by right; left].
      destruct Hurl as [Hurl|[Hurl|Hurl]]; [by left| |by right; right].
      apply (find_all_links_from_spec env _ _ _ _ url Hlinks) in Hu
        as [Hu|(_ & _ & _ & _ & Hd)].
      - by apply elem_of_empty in Hu.
      - by rewrite Hurl in Hd. }
    assert (Hsnoc : forall url v, v ∈ page_gets (requests s1) ->
              v ∈ page_gets (requests s1 ++ [PageGet url])).
    { intros url v Hv. rewrite page_gets_snoc. apply elem_of_app. by left. }
    iteration_cases Hstep; simpl.
    + apply (Hpop url q'); [done..|by left].
    + apply (Hpop url q'); [done..|by right; left].
    + apply (Hpop url q'); [done|apply union_subseteq_r|done|].
      left. by apply elem_of_union_l, elem_of_singleton.
    + apply (Hpop url q'); [done|apply union_subseteq_r|apply Hsnoc|].
      left. by apply elem_of_union_l, elem_of_singleton.
    + pose proof (write_page_fields cfg env s1 url q' soup imgs links) as Hf.
      cbv zeta in Hf.
      destruct Hf as (-> & -> & _ & (r & -> & Hurl & _) & (dl & -> & _)).
      rewrite enqueue_spec. apply Forall_app. split.
      * eapply Forall_impl.
        { apply (Hpop url q' ({[url]} ∪ visited s1)
                   ((requests s1 ++ [PageGet url]) ++ map ImageGet dl));
            [done|apply union_subseteq_r| |].
          - intros v Hv. rewrite page_gets_images. by apply Hsnoc.
          - left. by apply elem_of_union_l, elem_of_singleton. }
        intros r0 Hr0 soup0 links0 u Hget0 Hlinks0 Hu. simpl in Hr0.
        destruct (Hr0 soup0 links0 u Hget0 Hlinks0 Hu) as [?|[?|?]];
          [by left| |by right; right].
        right. left. apply elem_of_app. by left.
      * apply Forall_singleton. intros soup0 links0 u Hget0 Hlinks0 Hu.
        rewrite Hurl in Hget0, Hlinks0. rewrite Hget in Hget0.
        injection Hget0 as <-. rewrite Hlinks in Hlinks0.
        injection Hlinks0 as <-.
        destruct (decide (u ∈ visited s1)) as [Hv|Hv].
        -- left. by apply elem_of_union_r.
        -- right. left. apply elem_of_app. right.
           apply list_elem_of_filter. split; [done|].
           by apply elem_of_elements.
    + apply (Hpop url q'); [done|done|apply Hsnoc|].
      right. right. rewrite page_gets_snoc. apply elem_of_app. right. by left.
Qed.

End SrilankaClosure.

(** X13.  When scrape_srilanka.py's [crawl] stops because the queue is
    empty, it has followed every link it found: each same-domain link of each
    recorded page was itself requested, or was denied by robots.txt. *)
Theorem crawl_exhausts_links (cfg : ScrapeSrilanka.Config)
    (env : ScrapeSrilanka.Env) (start_url : string) (fs : gset string)
    (n : nat) :
  ScrapeSrilanka.q
    (ScrapeSrilanka.iterate cfg env n (ScrapeSrilanka.init start_url fs)) = [] ->
  Forall (fun r => forall soup links u,
            ScrapeSrilanka.session_get env (ScrapeSrilanka.rec_url r)
            = Some soup ->
            ScrapeSrilanka.find_all_links env soup (ScrapeSrilanka.rec_url r)
            = Some links ->
            u ∈ links ->
            u ∈ ScrapeSrilanka.page_gets
                  (ScrapeSrilanka.requests
                     (ScrapeSrilanka.iterate cfg env n
                        (ScrapeSrilanka.init start_url fs))) \/
            ScrapeSrilanka.allowed env u = false)
    (ScrapeSrilanka.out_f
       (ScrapeSrilanka.iterate cfg env n (ScrapeSrilanka.init start_url fs))).
Proof.
  intros Hq. eapply Forall_impl; [apply links_visited_or_queued|].
  intros r Hr soup links u Hget Hlinks Hu. simpl in Hr.
  destruct (Hr soup links u Hget Hlinks Hu) as [Hv|[Hv|Hv]].
  - by apply visited_requested_or_denied.
  - rewrite Hq in Hv. by apply elem_of_nil in Hv.
  - by left.
Qed.

(** X13 on the fixture, whose crawl ends after two pages with the queue
    empty: the links of the start page were fetched ([/beaches]) or denied
    ([/admin]). *)
Lemma crawl_exhausts_links_witness :
  Forall (fun r => forall soup links u,
            ScrapeSrilanka.session_get Fixture.env (ScrapeSrilanka.rec_url r)
            = Some soup ->
            ScrapeSrilanka.find_all_links Fixture.env soup
              (ScrapeSrilanka.rec_url r) = Some links ->
            u ∈ links ->
            u ∈ ScrapeSrilanka.page_gets
                  (ScrapeSrilanka.requests
                     (ScrapeSrilanka.iterate Fixture.cfg Fixture.env 8
                        (ScrapeSrilanka.init Fixture.home ∅))) \/
            ScrapeSrilanka.allowed Fixture.env u = false)
    (ScrapeSrilanka.out_f
       (ScrapeSrilanka.iterate Fixture.cfg Fixture.env 8
          (ScrapeSrilanka.init Fixture.home ∅))).
Proof.
  apply (crawl_exhausts_links Fixture.cfg Fixture.env Fixture.home ∅ 8).
  vm_compute. reflexivity.
Defined.

(** ** thecommonwanderer.py: the budget counts every URL looked at *)

(** X14.  In thecommonwanderer.py, [visited] never holds more than
    [MAX_PAGES] URLs, and the output never holds more records than [visited]
    holds URLs: the page count that [crawl] prints is within the budget and
    at least the number of pages scraped. *)
Theorem cw_visited_within_budget (max_pages : nat)
    (env : CommonWanderer.Env) (start_pages : list string) (n : nat) :
  length (CommonWanderer.fout
            (CommonWanderer.iterate max_pages env n
               (CommonWanderer.init start_pages)))
  <= size (CommonWanderer.visited
             (CommonWanderer.iterate max_pages env n
                (CommonWanderer.init start_pages))) /\
  size (CommonWanderer.visited
          (CommonWanderer.iterate max_pages env n
             (CommonWanderer.init start_pages)))
  <= max_pages.
Proof.
  apply (cw_iterate_invariant max_pages env (fun s =>
    length (CommonWanderer.fout s) <= size (CommonWanderer.visited s) /\
    size (CommonWanderer.visited s) <= max_pages)).
  - unfold CommonWanderer.init.
    cbn [CommonWanderer.fout CommonWanderer.visited length].
    rewrite size_empty. lia.
  - intros s1 s2 [H1 H2] Hc Hstep.
    apply cw_loop_cond_true in Hc as [_ Hlt].
    destruct Hstep as [Hstep|Hstep]; inversion Hstep; subst; clear Hstep;
      simpl; rewrite ?length_app; simpl;
      try (pose proof (size_visited_add url (CommonWanderer.visited s1)
                         ltac:(done)); lia).
    + pose proof (size_visited_mono url (CommonWanderer.visited s1)).
      split; [lia|].
      destruct (decide (url ∈ CommonWanderer.visited s1)) as [Hin|Hin].
      * rewrite (subseteq_union_1_L {[url]} (CommonWanderer.visited s1))
          by (by apply singleton_subseteq_l). lia.
      * rewrite size_visited_add by done. lia.
Qed.

Lemma cw_skip_run (max_pages : nat) (env : CommonWanderer.Env)
    (skipped rest : list string) (vis : gset string)
    (out : list CommonWanderer.PageRecord) (log : list CommonWanderer.Request)
    (fuel : nat) :
  NoDup skipped ->
  (forall u, u ∈ skipped -> u ∉ vis) ->
  size vis + length skipped = max_pages ->
  Forall (fun u => CommonWanderer.same_site env u = false \/
                   CommonWanderer.rp_can_fetch env u = Some false) skipped ->
  length skipped <= fuel ->
  exists s,
    CommonWanderer.crawl_loop max_pages env fuel
      {| CommonWanderer.visited := vis; CommonWanderer.q := skipped ++ rest;
         CommonWanderer.fout := out; CommonWanderer.requests := log |}
    = CommonWanderer.Done s /\
    CommonWanderer.requests s = log /\ CommonWanderer.fout s = out /\
    CommonWanderer.q s = rest.
Proof.
  revert vis fuel.
  induction skipped as [|u sk IH]; intros vis fuel Hnd Hfresh Hsize Hall Hfuel.
  - simpl in *.
    assert (Hc : CommonWanderer.loop_cond max_pages
              {| CommonWanderer.visited := vis; CommonWanderer.q := rest;
                 CommonWanderer.fout := out; CommonWanderer.requests := log |}
            = false).
    { unfold CommonWanderer.loop_cond. apply andb_false_iff. right.
      apply Nat.ltb_ge. simpl. lia. }
    eexists. split; [destruct fuel; simpl; by rewrite Hc|done].
  - destruct fuel as [|fuel]; [simpl in Hfuel; lia|].
    apply NoDup_cons in Hnd as [Hu Hnd].
    apply Forall_cons in Hall as [Hskip Hall].
    assert (Hvis : u ∉ vis) by (apply Hfresh; by left).
    cbn [CommonWanderer.crawl_loop]. unfold CommonWanderer.loop_cond.
    cbn [CommonWanderer.q CommonWanderer.visited app].
    rewrite bool_decide_eq_true_2 by done.
    replace (size vis <? max_pages)%nat with true
      by (symmetry; apply Nat.ltb_lt; simpl in Hsize; lia).
    cbn [andb]. unfold CommonWanderer.loop_body.
    cbn [CommonWanderer.q CommonWanderer.visited CommonWanderer.fout
         CommonWanderer.requests].
    rewrite bool_decide_eq_false_2 by done.
    assert (Hnext : exists s,
              CommonWanderer.crawl_loop max_pages env fuel
                {| CommonWanderer.visited := {[u]} ∪ vis;
                   CommonWanderer.q := sk ++ rest;
                   CommonWanderer.fout := out;
                   CommonWanderer.requests := log |}
              = CommonWanderer.Done s /\
              CommonWanderer.requests s = log /\
              CommonWanderer.fout s = out /\ CommonWanderer.q s = rest).
    { apply IH; [done| | |done|simpl in Hfuel; lia].
      - intros v Hv Hin. apply elem_of_union in Hin as [Hin|Hin].
        + apply elem_of_singleton in Hin as ->. done.
        + apply (Hfresh v); [by right|done].
      - rewrite size_visited_add by done. simpl in Hsize. lia. }
    destruct Hskip as [Hsite|Hrob].
    + by rewrite Hsite.
    + destruct (CommonWanderer.same_site env u); [|done]. by rewrite Hrob.
Qed.

(** X15.  In thecommonwanderer.py a URL that is skipped, for being off the
    site or denied by robots.txt, still goes into [visited] and so uses up
    budget: when the queue starts with [MAX_PAGES] distinct such URLs, the
    crawl ends without a single request or record, and what was queued
    behind them is never looked at. *)
Theorem cw_skipped_urls_use_budget (max_pages : nat)
    (env : CommonWanderer.Env) (skipped rest : list string) (fuel : nat) :
  NoDup skipped -> length skipped = max_pages ->
  Forall (fun u => CommonWanderer.same_site env u = false \/
                   CommonWanderer.rp_can_fetch env u = Some false) skipped ->
  max_pages <= fuel ->
  exists s,
    CommonWanderer.crawl max_pages env fuel (skipped ++ rest)
    = CommonWanderer.Done s /\
    CommonWanderer.requests s = [] /\ CommonWanderer.fout s = [] /\
    CommonWanderer.q s = rest.
Proof.
  intros Hnd Hlen Hall Hfuel. unfold CommonWanderer.crawl, CommonWanderer.init.
  apply cw_skip_run; [done| |rewrite size_empty; lia|done|lia].
  intros u _. apply not_elem_of_empty.
Qed.

Lemma cw_skipped_urls_use_budget_witness :
  exists s,
    CommonWanderer.crawl 2 Fixture.cw_env 2 (cw_off_site ++ cw_on_site)
    = CommonWanderer.Done s /\
    CommonWanderer.requests s = [] /\ CommonWanderer.fout s = [] /\
    CommonWanderer.q s = cw_on_site.
Proof.
  apply (cw_skipped_urls_use_budget 2 Fixture.cw_env cw_off_site cw_on_site 2).
  - apply NoDup_cons. split.
    + intros H. apply list_elem_of_singleton in H. discriminate H.
    + apply NoDup_singleton.
  - reflexivity.
  - apply Forall_cons. split; [left; reflexivity|].
    apply Forall_singleton. left. reflexivity.
  - lia.
Defined.

(** ** [extract_images] *)

Lemma lstrip_first (s : string) (c : ascii) :
  PyStr2.first_char (PyStr2.lstrip s) = Some c -> PyStr2.is_space c = false.
Proof.
  induction s as [|d s IH]; simpl; [done|].
  destruct (PyStr2.is_space d) eqn:Hd; [done|]. simpl. by intros [= <-].
Qed.

Lemma rstrip_last (s : string) (c : ascii) :
  PyStr2.last_char (PyStr2.rstrip s) = Some c -> PyStr2.is_space c = false.
Proof.
  induction s as [|d s IH]; simpl; [done|].
  destruct (PyStr2.rstrip s) as [|e r] eqn:Hr.
  - destruct (PyStr2.is_space d) eqn:Hd; [done|]. simpl. by intros [= <-].
  - done.
Qed.

Lemma rstrip_first (s : string) (c : ascii) :
  PyStr2.first_char (PyStr2.rstrip s) = Some c -> PyStr2.first_char s = Some c.
Proof.
  destruct s as [|d s]; simpl; [done|].
  destruct (PyStr2.rstrip s); [|done].
  by destruct (PyStr2.is_space d).
Qed.

(** [strip] leaves no white space at either end. *)
Lemma strip_ends (s : string) (c : ascii) :
  PyStr2.first_char (PyStr2.strip s) = Some c \/
  PyStr2.last_char (PyStr2.strip s) = Some c ->
  PyStr2.is_space c = false.
Proof.
  unfold PyStr2.strip. intros [H|H].
  - apply rstrip_first in H. by eapply lstrip_first.
  - by eapply rstrip_last.
Qed.

Lemma startswith_app (p s : string) : PyStr.startswith (p +:+ s) p = true.
Proof.
  induction p as [|c p IH]; [by destruct s|].
  rewrite append_cons. simpl. by rewrite Ascii.eqb_refl.
Qed.

Lemma absolute_src_http (src src' : string) :
  EllaImages.absolute_src src = Some src' ->
  PyStr.startswith src' "http" = true.
Proof.
  unfold EllaImages.absolute_src.
  destruct (PyStr.startswith src "//"); [by intros [= <-]|].
  destruct (PyStr.startswith src "/"); [by intros [= <-]|].
  destruct (PyStr.startswith src "http") eqn:H; [|done].
  by intros [= <-].
Qed.

Lemma images_of_tags_length (tags : list EllaImages.ImgTag) :
  length (EllaImages.images_of_tags tags) <= length tags.
Proof.
  induction tags as [|img rest IH]; simpl; [lia|].
  destruct (EllaImages.tag_src img) as [src|]; [|lia].
  destruct (PyStr.truthy src); [|lia].
  destruct (EllaImages.absolute_src src) as [src'|]; [|lia].
  destruct (EllaImages.looks_like_icon src'); simpl; lia.
Qed.

Lemma slice_list_length {A : Type} (n : Z) (l : list A) :
  length (PyStr2.slice_list n l) <= length l /\
  ((0 <= n)%Z -> length (PyStr2.slice_list n l) <= Z.to_nat n).
Proof.
  unfold PyStr2.slice_list. destruct (Z.ltb_spec n 0).
  - rewrite length_take. split; lia.
  - rewrite length_take. split; lia.
Qed.

(** X16.  [extract_images] returns nothing for a missing element, never
    more images than the element has <img> tags, and for a limit that is not
    negative never more than the limit.  The limit counts tags, not images:
    only the first [limit] tags are looked at, so tags that are skipped use
    it up. *)
Theorem extract_images_limit (soup : option (list EllaImages.ImgTag))
    (img_tags more : list EllaImages.ImgTag) (limit : Z) :
  EllaImages.extract_images None limit = [] /\
  length (EllaImages.extract_images (Some img_tags) limit)
    <= length img_tags /\
  ((0 <= limit)%Z ->
     length (EllaImages.extract_images soup limit) <= Z.to_nat limit) /\
  (Z.of_nat (length img_tags) = limit ->
     EllaImages.extract_images (Some (img_tags ++ more)) limit
     = EllaImages.extract_images (Some img_tags) limit).
Proof.
  split_and!.
  - done.
  - simpl. etrans; [apply images_of_tags_length|].
    apply slice_list_length.
  - intros Hlimit. destruct soup as [tags|]; simpl; [|lia].
    etrans; [apply images_of_tags_length|]. by apply slice_list_length.
  - intros Hlen. simpl. unfold PyStr2.slice_list.
    destruct (Z.ltb_spec limit 0); [lia|].
    replace (Z.to_nat limit) with (length img_tags) by lia.
    by rewrite take_app_length, firstn_all.
Qed.

(** X17.  Every image that [extract_images] returns has a URL that starts
    with [http] and holds none of [16x16], [32x32], [icon] and [logo], and
    an alt text and a title without white space at either end. *)
Theorem extract_images_urls (soup : option (list EllaImages.ImgTag))
    (limit : Z) :
  Forall (fun img =>
            PyStr.startswith (EllaImages.url img) "http" = true /\
            Forall (fun dim => PyStr2.contains (EllaImages.url img) dim = false)
              ["16x16"; "32x32"; "icon"; "logo"] /\
            (forall c,
               PyStr2.first_char (EllaImages.alt img) = Some c \/
               PyStr2.last_char (EllaImages.alt img) = Some c \/
               PyStr2.first_char (EllaImages.title img) = Some c \/
               PyStr2.last_char (EllaImages.title img) = Some c ->
               PyStr2.is_space c = false))
    (EllaImages.extract_images soup limit).
Proof.
  destruct soup as [tags|]; simpl; [|by apply Forall_nil].
  generalize (PyStr2.slice_list limit tags). clear tags.
  intros tags. induction tags as [|img rest IH]; simpl; [by apply Forall_nil|].
  destruct (EllaImages.tag_src img) as [src|]; [|done].
  destruct (PyStr.truthy src); [|done].
  destruct (EllaImages.absolute_src src) as [src'|] eqn:Habs; [|done].
  destruct (EllaImages.looks_like_icon src') eqn:Hicon; [done|].
  apply Forall_cons. split; [|done]. simpl. split_and!.
  - by eapply absolute_src_http.
  - unfold EllaImages.looks_like_icon in Hicon. simpl in Hicon.
    repeat (apply orb_false_iff in Hicon as [? Hicon]).
    repeat (apply Forall_cons; split; [done|]). by apply Forall_nil.
  - intros c [H|[H|[H|H]]]; eapply strip_ends; eauto.
Qed.

(** ** [flatten_data_for_csv] *)

Lemma flatten_row_spec (item : gmap string EllaImages.Value) :
  EllaImages.well_formed item = true ->
  exists row,
    EllaImages.flatten_row item = Some row /\
    row !! "images" = None /\
    row !! "total_images"
    = Some (EllaImages.VInt (Z.of_nat (length (EllaImages.images_of item)))) /\
    (forall k, k ∉ EllaImages.touched_keys -> row !! k = item !! k).
Proof.
  unfold EllaImages.well_formed, EllaImages.flatten_row, EllaImages.images_of.
  assert (Hother : forall k (a b c d : EllaImages.Value)
            (m : gmap string EllaImages.Value),
            k ∉ EllaImages.touched_keys ->
            (<["total_images" := a]> (<["image_titles" := b]>
              (<["image_alt_texts" := c]> (<["image_urls" := d]> m)))) !! k
            = m !! k).
  { intros k a b c d m Hk. unfold EllaImages.touched_keys in Hk.
    rewrite !lookup_insert_ne; [done|..];
      intros <-; apply Hk; repeat constructor. }
  destruct (item !! "images") as [v|] eqn:Himg.
  - destruct v as [s|z|imgs]; try done. intros _.
    destruct imgs as [|i imgs]; simpl.
    + eexists. split; [done|]. split_and!.
      * apply lookup_delete_eq.
      * rewrite lookup_delete_ne by done. by rewrite lookup_insert_eq.
      * intros k Hk. rewrite lookup_delete_ne.
        -- by apply Hother.
        -- intros <-. apply Hk. by left.
    + eexists. split; [done|]. split_and!.
      * apply lookup_delete_eq.
      * rewrite lookup_delete_ne by done. by rewrite lookup_insert_eq.
      * intros k Hk. rewrite lookup_delete_ne.
        -- by apply Hother.
        -- intros <-. apply Hk. by left.
  - intros _. eexists. split; [done|]. split_and!.
    + rewrite !lookup_insert_ne by done. done.
    + by rewrite lookup_insert_eq.
    + intros k Hk. by apply Hother.
Qed.

(** X18.  When the ['images'] of every item is a list, as the scraper
    builds them, or is missing, [flatten_data_for_csv] returns one row per
    item, in order.  A row has no ['images'] key; its [total_images] is the
    number of images of the item, all of them and not only the five that are
    exported; and every key of the item other than the five that the
    function writes or deletes is carried over with its value. *)
Theorem flatten_data_rows (all_data : list (gmap string EllaImages.Value)) :
  Forall (fun item => EllaImages.well_formed item = true) all_data ->
  exists rows,
    EllaImages.flatten_data_for_csv all_data = Some rows /\
    Forall2 (fun item row =>
               row !! "images" = None /\
               row !! "total_images"
               = Some (EllaImages.VInt
                         (Z.of_nat (length (EllaImages.images_of item)))) /\
               (forall k, k ∉ EllaImages.touched_keys ->
                          row !! k = item !! k))
      all_data rows.
Proof.
  unfold EllaImages.flatten_data_for_csv.
  induction all_data as [|item rest IH]; intros Hwf.
  - exists []. split; [done|]. constructor.
  - apply Forall_cons in Hwf as [Hitem Hrest].
    destruct (flatten_row_spec item Hitem) as (row & Hrow & Hfacts).
    destruct (IH Hrest) as (rows & Hrows & Hall).
    exists (row :: rows). split.
    + simpl. rewrite Hrow. simpl. rewrite Hrows. done.
    + by constructor.
Qed.

Lemma flatten_data_rows_witness :
  exists rows,
    EllaImages.flatten_data_for_csv EllaImages.sample_items = Some rows /\
    Forall2 (fun item row =>
               row !! "images" = None /\
               row !! "total_images"
               = Some (EllaImages.VInt
                         (Z.of_nat (length (EllaImages.images_of item)))) /\
               (forall k, k ∉ EllaImages.touched_keys ->
                          row !! k = item !! k))
      EllaImages.sample_items rows.
Proof.
  apply (flatten_data_rows EllaImages.sample_items).
  apply Forall_cons. split; [reflexivity|].
  apply Forall_singleton. reflexivity.
Defined.

(** ** scrape/sl_tourism_scrape.py: file names and deduplication *)

Lemma all_chars_impl (p q : ascii -> bool) (s : string) :
  (forall c, p c = true -> q c = true) ->
  PyStr3.all_chars p s = true -> PyStr3.all_chars q s = true.
Proof.
  intros Hpq. induction s as [|c s IH]; simpl; [done|].
  intros [Hc Hs]%andb_prop. rewrite (Hpq _ Hc). simpl. by apply IH.
Qed.

Lemma all_chars_slice_to (p : ascii -> bool) (n : N) (s : string) :
  PyStr3.all_chars p s = true ->
  PyStr3.all_chars p (PyStr.slice_to n s) = true.
Proof.
  revert n. induction s as [|c s IH]; intros n; simpl; [done|].
  intros [Hc Hs]%andb_prop. destruct (n =? 0)%N; simpl; [done|].
  rewrite Hc. simpl. by apply IH.
Qed.

Lemma all_chars_lstrip_underscores (p : ascii -> bool) (s : string) :
  PyStr3.all_chars p s = true ->
  PyStr3.all_chars p (PyStr3.lstrip_underscores s) = true.
Proof.
  induction s as [|c s IH]; simpl; [done|].
  intros Hcs. destruct (Ascii.eqb c "_"); [|done].
  apply andb_prop in Hcs as [_ Hs]. by apply IH.
Qed.

Lemma all_chars_rstrip_underscores (p : ascii -> bool) (s : string) :
  PyStr3.all_chars p s = true ->
  PyStr3.all_chars p (PyStr3.rstrip_underscores s) = true.
Proof.
  induction s as [|c s IH]; simpl; [done|].
  intros [Hc Hs]%andb_prop. specialize (IH Hs).
  destruct (PyStr3.rstrip_underscores s) as [|d r].
  - destruct (Ascii.eqb c "_"); simpl; [done|]. by rewrite Hc.
  - change (p c && PyStr3.all_chars p (String d r) = true).
    by rewrite Hc, IH.
Qed.

Lemma all_chars_sub_reserved (s : string) :
  PyStr3.all_chars (fun c => negb (SlTourism.is_reserved c))
    (SlTourism.sub_reserved s) = true.
Proof.
  induction s as [|c s IH]; simpl; [done|].
  rewrite IH, andb_true_r.
  destruct (SlTourism.is_reserved c) eqn:Hc; [done|]. by rewrite Hc.
Qed.

Lemma all_chars_sub_spaces (in_run : bool) (s : string) :
  PyStr3.all_chars (fun c => negb (SlTourism.is_reserved c)) s = true ->
  PyStr3.all_chars
    (fun c => negb (SlTourism.is_reserved c) && negb (PyStr2.is_space c))
    (SlTourism.sub_spaces_from in_run s) = true.
Proof.
  revert in_run. induction s as [|c s IH]; intros in_run; [done|].
  cbn [PyStr3.all_chars SlTourism.sub_spaces_from].
  intros [Hc Hs]%andb_prop.
  destruct (PyStr2.is_space c) eqn:Hsp.
  - destruct in_run; [by apply IH|].
    cbn [PyStr3.all_chars]. rewrite (IH true Hs). reflexivity.
  - cbn [PyStr3.all_chars]. by rewrite Hc, Hsp, (IH false Hs).
Qed.

Lemma underscore_start (c : ascii) (s : string) :
  PyStr.startswith (String c s) "_" = Ascii.eqb c "_".
Proof.
  cbn [PyStr.startswith].
  destruct (Ascii.eqb_spec "_" c), (Ascii.eqb_spec c "_");
    try congruence; by destruct s.
Qed.

Lemma lstrip_underscores_start (s : string) :
  PyStr.startswith (PyStr3.lstrip_underscores s) "_" = false.
Proof.
  induction s as [|c s IH]; [done|].
  cbn [PyStr3.lstrip_underscores].
  destruct (Ascii.eqb c "_") eqn:Hc; [exact IH|].
  by rewrite underscore_start.
Qed.

Lemma rstrip_underscores_start (s : string) :
  PyStr.startswith s "_" = false ->
  PyStr.startswith (PyStr3.rstrip_underscores s) "_" = false.
Proof.
  destruct s as [|c s]; [done|].
  rewrite underscore_start. intros Hc.
  cbn [PyStr3.rstrip_underscores]. rewrite Hc.
  destruct (PyStr3.rstrip_underscores s); by rewrite underscore_start.
Qed.

Lemma rstrip_underscores_end (s : string) :
  PyStr2.last_char (PyStr3.rstrip_underscores s) <> Some "_"%char.
Proof.
  induction s as [|c s IH]; [done|].
  cbn [PyStr3.rstrip_underscores].
  destruct (PyStr3.rstrip_underscores s) as [|d r].
  - destruct (Ascii.eqb_spec c "_") as [->|Hc]; [done|].
    cbn [PyStr2.last_char]. by intros [= ->].
  - exact IH.
Qed.

Lemma slice_to_start (n : N) (s p : string) :
  PyStr.startswith s p = false ->
  PyStr.startswith (PyStr.slice_to n s) p = false.
Proof.
  revert n s. induction p as [|c p IH]; intros n s H; [by destruct s|].
  destruct s as [|d s]; [done|].
  cbn [PyStr.slice_to]. destruct (n =? 0)%N; [done|].
  cbn [PyStr.startswith] in *.
  destruct (Ascii.eqb c d); [by apply IH|done].
Qed.

Lemma slice_to_whole (n : N) (s : string) :
  String.length s <= N.to_nat n -> PyStr.slice_to n s = s.
Proof.
  revert n. induction s as [|c s IH]; intros n; simpl; [done|].
  intros Hn. destruct (N.eqb_spec n 0) as [->|Hn0]; [simpl in Hn; lia|].
  f_equal. apply IH. lia.
Qed.

(** X19 (sl_tourism_scrape.py, safe_filename): whatever the input and
    whatever [unquote] makes of it, the name returned is not empty, has at
    most 180 characters, holds none of the nine reserved characters and no
    white space, and does not start with an underscore; it does not end
    with one either unless it was cut at 180 characters. *)
Theorem safe_filename_spec (unquote : string -> string) (s : string) :
  let name := SlTourism.safe_filename unquote s in
  name <> "" /\
  String.length name <= 180 /\
  PyStr3.all_chars
    (fun c => negb (SlTourism.is_reserved c) && negb (PyStr2.is_space c))
    name = true /\
  PyStr.startswith name "_" = false /\
  (String.length name < 180 -> PyStr2.last_char name <> Some "_"%char).
Proof.
  cbv zeta. unfold SlTourism.safe_filename.
  set (t := PyStr3.strip_underscores _).
  assert (Hchars : PyStr3.all_chars
            (fun c => negb (SlTourism.is_reserved c)
                      && negb (PyStr2.is_space c)) t = true).
  { apply all_chars_rstrip_underscores, all_chars_lstrip_underscores,
      all_chars_sub_spaces, all_chars_sub_reserved. }
  assert (Hstart : PyStr.startswith t "_" = false).
  { apply rstrip_underscores_start, lstrip_underscores_start. }
  assert (Hend : PyStr2.last_char t <> Some "_"%char).
  { apply rstrip_underscores_end. }
  clearbody t. destruct t as [|c t].
  { cbn [PyStr.truthy].
    split_and!; [done|simpl; lia|reflexivity|reflexivity|done]. }
  cbn [PyStr.truthy]. split_and!.
  - done.
  - apply (slice_to_length 180).
  - by apply all_chars_slice_to.
  - by apply slice_to_start.
  - intros Hlen.
    destruct (decide (String.length (String c t) <= 180)) as [Hle|Hgt].
    + by rewrite (slice_to_whole 180) by exact Hle.
    + exfalso. clear Hchars Hstart Hend.
      assert (Hall : forall (n : N) (u : string),
                 N.to_nat n <= String.length u ->
                 String.length (PyStr.slice_to n u) = N.to_nat n).
      { intros n u. revert n. induction u as [|d u IH]; intros n; simpl.
        - lia.
        - intros Hn. destruct (N.eqb_spec n 0) as [->|Hn0]; [done|].
          simpl. rewrite IH; lia. }
      rewrite (Hall 180%N) in Hlen; [|lia]. simpl in Hlen. lia.
Qed.

Section DedupeFacts.
Context {A : Type} (key : A -> string).

Lemma dedupe_from_spec (items : list A) (seen : gset string) (out : list A) :
  exists kept,
    SlTourism.dedupe_from key items seen out = out ++ kept /\
    kept `sublist_of` items /\
    NoDup (key <$> kept) /\
    (forall x, x ∈ kept -> key x ∉ seen) /\
    (forall x, x ∈ items -> key x ∈ seen \/ key x ∈ key <$> kept) /\
    (forall pre x post, items = pre ++ x :: post ->
       key x ∉ seen -> key x ∉ key <$> pre -> x ∈ kept).
Proof.
  revert seen out. induction items as [|y rest IH]; intros seen out.
  - exists []. cbn [SlTourism.dedupe_from]. rewrite app_nil_r.
    split_and!; try done.
    + apply NoDup_nil_2.
    + intros x Hx. by apply elem_of_nil in Hx.
    + intros x Hx. by apply elem_of_nil in Hx.
    + intros [|? ?] x post Heq; discriminate Heq.
  - cbn [SlTourism.dedupe_from]. case_bool_decide as Hy.
    + destruct (IH ({[key y]} ∪ seen) (out ++ [y]))
        as (kept & Heq & Hsub & Hnd & Hfresh & Hcov & Hfirst).
      exists (y :: kept). split_and!.
      * by rewrite Heq, <- app_assoc.
      * by apply sublist_skip.
      * rewrite fmap_cons. apply NoDup_cons_2; [|done].
        intros (z & Hkz & Hz)%list_elem_of_fmap.
        apply (Hfresh z Hz). rewrite <- Hkz.
        apply elem_of_union_l, elem_of_singleton. reflexivity.
      * intros x [->|Hx]%elem_of_cons; [done|].
        intros Hs. apply (Hfresh x Hx). by apply elem_of_union_r.
      * intros x [->|Hx]%elem_of_cons.
        { right. rewrite fmap_cons. apply elem_of_cons. by left. }
        destruct (Hcov x Hx) as [[Hk|Hk]%elem_of_union|Hk].
        { apply elem_of_singleton in Hk. right. rewrite fmap_cons, Hk.
          apply elem_of_cons. by left. }
        { by left. }
        { right. rewrite fmap_cons. apply elem_of_cons. by right. }
      * intros [|z pre] x post Hitems Hseen Hpre.
        { injection Hitems as -> ->. apply elem_of_cons. by left. }
        injection Hitems as -> ->. rewrite fmap_cons in Hpre.
        apply not_elem_of_cons in Hpre as [Hne Hpre].
        apply elem_of_cons. right. eapply Hfirst; [reflexivity| |done].
        intros [Hk|Hk]%elem_of_union; [|done].
        by apply elem_of_singleton in Hk.
    + destruct (IH seen out)
        as (kept & Heq & Hsub & Hnd & Hfresh & Hcov & Hfirst).
      exists kept. split_and!; try done.
      * by apply sublist_cons.
      * intros x [->|Hx]%elem_of_cons; [|by apply Hcov].
        by left.
      * intros [|z pre] x post Hitems Hseen Hpre.
        { injection Hitems as -> ->. done. }
        injection Hitems as -> ->. rewrite fmap_cons in Hpre.
        apply not_elem_of_cons in Hpre as [Hne Hpre].
        eapply Hfirst; [reflexivity|done|done].
Qed.

Lemma dedupe_from_nodup (items : list A) (seen : gset string)
    (out : list A) :
  NoDup (key <$> items) ->
  (forall x, x ∈ items -> key x ∉ seen) ->
  SlTourism.dedupe_from key items seen out = out ++ items.
Proof.
  revert seen out. induction items as [|y rest IH]; intros seen out Hnd Hs.
  - cbn [SlTourism.dedupe_from]. by rewrite app_nil_r.
  - cbn [SlTourism.dedupe_from]. rewrite fmap_cons in Hnd.
    apply NoDup_cons in Hnd as [Hy Hnd].
    rewrite bool_decide_true by (apply Hs, elem_of_cons; by left).
    rewrite IH; [by rewrite <- app_assoc|done|].
    intros x Hx [Hk|Hk]%elem_of_union.
    + apply elem_of_singleton in Hk. apply Hy. rewrite <- Hk.
      by apply list_elem_of_fmap_2.
    + apply (Hs x); [apply elem_of_cons; by right|done].
Qed.

End DedupeFacts.

(** X20 (sl_tourism_scrape.py, collect_attraction_links lines 125-130;
    scrape_ft_travel.py, parse_listing lines 114-119): the deduplication
    loop keeps a sub-list of its input in the input's order, in which no
    key occurs twice and every key of the input occurs; an item before
    which no item has the same key is kept (the first of each key
    survives), a list without repeated keys comes back unchanged, and
    deduplicating twice changes nothing more. *)
Theorem dedupe_spec {A : Type} (key : A -> string) (items : list A) :
  let out := SlTourism.dedupe key items in
  out `sublist_of` items /\
  NoDup (key <$> out) /\
  (forall x, x ∈ items -> key x ∈ key <$> out) /\
  (forall pre x post, items = pre ++ x :: post ->
     key x ∉ key <$> pre -> x ∈ out) /\
  (NoDup (key <$> items) -> out = items) /\
  SlTourism.dedupe key out = out.
Proof.
  cbv zeta. unfold SlTourism.dedupe.
  destruct (dedupe_from_spec key items ∅ [])
    as (kept & Heq & Hsub & Hnd & _ & Hcov & Hfirst).
  change ([] ++ kept) with kept in Heq. rewrite Heq. split_and!.
  - done.
  - done.
  - intros x Hx. destruct (Hcov x Hx) as [Hk|Hk]; [|done].
    by apply elem_of_empty in Hk.
  - intros pre x post Hitems Hpre. eapply Hfirst; [done| |done].
    apply not_elem_of_empty.
  - intros Hnd'. rewrite <- Heq.
    rewrite dedupe_from_nodup; [done|done|].
    intros x _. apply not_elem_of_empty.
  - rewrite dedupe_from_nodup; [done|done|].
    intros x _. apply not_elem_of_empty.
Qed.

Lemma dedupe_id_spec (links : list string) :
  NoDup (SlTourism.dedupe id links) /\
  forall l, l ∈ SlTourism.dedupe id links <-> l ∈ links.
Proof.
  unfold SlTourism.dedupe.
  destruct (dedupe_from_spec id links ∅ [])
    as (kept & Heq & Hsub & Hnd & _ & Hcov & _).
  change ([] ++ kept) with kept in Heq. rewrite Heq.
  rewrite list_fmap_id in Hnd. split; [done|].
  intros l. split.
  - intros Hl. by eapply elem_of_sublist.
  - intros Hl. destruct (Hcov l Hl) as [Hk|Hk].
    + by apply elem_of_empty in Hk.
    + by rewrite list_fmap_id in Hk.
Qed.

Section CollectFacts.
Variable env : SlTourism.Env.

(** A listing page on which [urljoin] raises: on one of its non-empty
    "view more" hrefs or on the href of one of its tiles. *)
Lemma page_links_raises (soup : SlTourism.ListingSoup) :
  SlTourism.page_links env soup = None <->
  (exists h, Some h ∈ SlTourism.view_more_hrefs soup /\ h <> EmptyString /\
             SlTourism.urljoin env SlTourism.BASE h = None) \/
  (exists h, h ∈ SlTourism.attraction_hrefs soup /\
             SlTourism.urljoin env SlTourism.BASE h = None).
Proof.
  assert (Hmore : forall hrefs,
            SlTourism.view_more_links env hrefs = None <->
            exists h, Some h ∈ hrefs /\ h <> EmptyString /\
                      SlTourism.urljoin env SlTourism.BASE h = None).
  { induction hrefs as [|href rest IH]; cbn [SlTourism.view_more_links].
    - split; [done|]. by intros (h & ?%elem_of_nil & _).
    - assert (Hskip : (exists h, Some h ∈ rest /\ h <> EmptyString /\
                         SlTourism.urljoin env SlTourism.BASE h = None) ->
                      exists h, Some h ∈ href :: rest /\ h <> EmptyString /\
                         SlTourism.urljoin env SlTourism.BASE h = None).
      { intros (h & Hh & Hrest). exists h. split; [by right|done]. }
      destruct href as [h0|].
      + destruct (PyStr.truthy h0) eqn:Ht.
        * destruct (SlTourism.urljoin env SlTourism.BASE h0) as [u|] eqn:Hu;
            cbn [mbind option_bind].
          -- destruct (SlTourism.view_more_links env rest) as [links|];
               cbn [mbind option_bind].
             ++ split; [done|].
                intros (h & [Heq|Hh]%elem_of_cons & Hne & Hnone).
                ** injection Heq as ->. by rewrite Hu in Hnone.
                ** assert (Some links = None) as Hn
                     by (apply IH; by exists h).
                   done.
             ++ split; [|done]. intros _. apply Hskip. by apply IH.
          -- split; [|done]. intros _. exists h0.
             split_and!; [by left|by destruct h0|done].
        * rewrite IH. split; [apply Hskip|].
          intros (h & [Heq|Hh]%elem_of_cons & Hne & Hnone).
          -- injection Heq as ->. by destruct h0.
          -- by exists h.
      + rewrite IH. split; [apply Hskip|].
        intros (h & [Heq|Hh]%elem_of_cons & Hne & Hnone); [done|].
        by exists h. }
  assert (Htiles : forall hrefs,
            SlTourism.tile_links env hrefs = None <->
            exists h, h ∈ hrefs /\
                      SlTourism.urljoin env SlTourism.BASE h = None).
  { induction hrefs as [|h0 rest IH]; cbn [SlTourism.tile_links].
    - split; [done|]. by intros (h & ?%elem_of_nil & _).
    - destruct (SlTourism.urljoin env SlTourism.BASE h0) as [u|] eqn:Hu;
        cbn [mbind option_bind].
      + destruct (SlTourism.tile_links env rest) as [links|];
          cbn [mbind option_bind].
        * split; [done|]. intros (h & [->|Hh]%elem_of_cons & Hnone).
          -- by rewrite Hu in Hnone.
          -- assert (Some links = None) as Hn by (apply IH; by exists h).
             done.
        * split; [|done]. intros _.
          destruct (proj1 IH eq_refl) as (h & Hh & Hnone).
          exists h. split; [by right|done].
      + split; [|done]. intros _. exists h0. split; [by left|done]. }
  unfold SlTourism.page_links. rewrite <- Hmore, <- Htiles.
  destruct (SlTourism.view_more_links env _) as [more|];
    cbn [mbind option_bind]; [|by split; [left|]].
  destruct (SlTourism.tile_links env _) as [tiles|];
    cbn [mbind option_bind].
  - split; [done|]. by intros [?|?].
  - split; [by right|done].
Qed.

Lemma pages_loop_spec (ps : list Z) (base : string) (links : list string)
    (fetched : list string) :
  exists pages,
    (SlTourism.pages_loop env ps base links fetched).2 = fetched ++ pages /\
    pages `sublist_of` (SlTourism.page_url base <$> ps) /\
    Forall (fun u => SlTourism.can_fetch_url env u = true) pages /\
    match (SlTourism.pages_loop env ps base links fetched).1 with
    | Some links' =>
        Forall (fun u => exists soup,
                  SlTourism.get_soup env u = Some soup /\
                  is_Some (SlTourism.page_links env soup)) pages /\
        exists more,
          links' = links ++ more /\
          forall l, l ∈ more <->
                    exists u soup new,
                      u ∈ pages /\
                      SlTourism.get_soup env u = Some soup /\
                      SlTourism.page_links env soup = Some new /\
                      l ∈ new
    | None =>
        exists u, last pages = Some u /\
          (SlTourism.get_soup env u = None \/
           exists soup, SlTourism.get_soup env u = Some soup /\
                        SlTourism.page_links env soup = None)
    end.
Proof.
  revert links fetched. induction ps as [|p ps IH]; intros links fetched.
  - exists []. cbn [SlTourism.pages_loop fst snd]. rewrite app_nil_r.
    split_and!; [done|done|by apply Forall_nil|by apply Forall_nil|].
    exists []. rewrite app_nil_r. split; [done|].
    intros l. split.
    + by intros ?%elem_of_nil.
    + by intros (u & soup & new & ?%elem_of_nil & _).
  - cbn [SlTourism.pages_loop]. rewrite fmap_cons.
    destruct (SlTourism.can_fetch_url env (SlTourism.page_url base p))
      eqn:Hrob; cbn [negb].
    + destruct (SlTourism.get_soup env (SlTourism.page_url base p))
        as [soup|] eqn:Hget.
      * destruct (SlTourism.page_links env soup) as [new|] eqn:Hnew.
        -- destruct
             (IH (links ++ new) (fetched ++ [SlTourism.page_url base p]))
             as (pages & Hlog & Hsub & Hall & Hres).
           exists (SlTourism.page_url base p :: pages). split_and!.
           { by rewrite Hlog, <- app_assoc. }
           { by apply sublist_skip. }
           { by apply Forall_cons. }
           destruct (SlTourism.pages_loop env ps base _ _).1 as [links'|].
           { destruct Hres as (Hsome & more & -> & Hmore).
             split.
             { apply Forall_cons. split; [|done]. exists soup.
               split; [done|]. by rewrite Hnew. }
             exists (new ++ more).
             split; [by rewrite <- app_assoc|].
             intros l. rewrite elem_of_app, Hmore. split.
             - intros [Hl|(u & soup' & new' & Hu & Hgu & Hnu & Hl)].
               + exists (SlTourism.page_url base p), soup, new.
                 split_and!; [apply elem_of_cons; by left|done..].
               + exists u, soup', new'.
                 split_and!; [apply elem_of_cons; by right|done..].
             - intros (u & soup' & new' & [->|Hu]%elem_of_cons & Hgu & Hnu
                       & Hl).
               + left. rewrite Hget in Hgu. injection Hgu as <-.
                 rewrite Hnew in Hnu. by injection Hnu as <-.
               + right. by exists u, soup', new'. }
           { destruct Hres as (u & Hlast & Hgu). exists u. split; [|done].
             destruct pages as [|v pages]; [done|]. exact Hlast. }
        -- exists [SlTourism.page_url base p]. cbn [fst snd]. split_and!.
           { done. }
           { apply sublist_skip, sublist_nil_l. }
           { by apply Forall_singleton. }
           exists (SlTourism.page_url base p). split; [done|].
           right. by exists soup.
      * exists [SlTourism.page_url base p]. cbn [fst snd]. split_and!.
        { done. }
        { apply sublist_skip, sublist_nil_l. }
        { by apply Forall_singleton. }
        exists (SlTourism.page_url base p). split; [done|]. by left.
    + destruct (IH links fetched) as (pages & Hlog & Hsub & Hall & Hres).
      exists pages. split_and!; [done|by apply sublist_cons|done|done].
Qed.

End CollectFacts.

(** X21 (sl_tourism_scrape.py, collect_attraction_links): the function
    first fetches the listing URL itself, without asking robots.txt, to
    count the pages; every listing page it fetches after that was allowed
    by robots.txt, and with a positive max_pages there are at most
    max_pages of them (none at all with a negative one).  When it returns,
    the result has no duplicates and holds exactly the links of the pages
    fetched after the first, and every fetch succeeded.  When it raises,
    the exception comes from the last page it requested: the fetch of
    that page failed, or the page was fetched and [urljoin] raised on one
    of its hrefs (a non-empty "view more" href or the href of a tile),
    which nothing catches. *)
Theorem collect_attraction_links_spec (env : SlTourism.Env)
    (listing_url : string) (max_pages : option Z) :
  let run := SlTourism.collect_attraction_links env listing_url max_pages in
  exists pages,
    run.2 = listing_url :: pages /\
    Forall (fun u => SlTourism.can_fetch_url env u = true) pages /\
    (forall m, max_pages = Some m ->
       ((0 < m)%Z -> length pages <= Z.to_nat m) /\
       ((m < 0)%Z -> pages = [])) /\
    match run.1 with
    | Some out =>
        NoDup out /\
        Forall (fun u => is_Some (SlTourism.get_soup env u))
          (listing_url :: pages) /\
        forall l, l ∈ out <->
                  exists u soup new,
                    u ∈ pages /\
                    SlTourism.get_soup env u = Some soup /\
                    SlTourism.page_links env soup = Some new /\
                    l ∈ new
    | None =>
        exists u, last (listing_url :: pages) = Some u /\
          (SlTourism.get_soup env u = None \/
           exists soup,
             SlTourism.get_soup env u = Some soup /\
             pages <> [] /\
             ((exists h, Some h ∈ SlTourism.view_more_hrefs soup /\
                         h <> EmptyString /\
                         SlTourism.urljoin env SlTourism.BASE h = None) \/
              (exists h, h ∈ SlTourism.attraction_hrefs soup /\
                         SlTourism.urljoin env SlTourism.BASE h = None)))
    end.
Proof.
  cbv zeta. unfold SlTourism.collect_attraction_links,
    SlTourism.get_total_pages.
  destruct (SlTourism.get_soup env listing_url) as [soup0|] eqn:Hget0;
    cbn [mbind option_bind fst snd].
  2:{ exists []. split_and!; [done|by apply Forall_nil| |].
      - intros m _. split; [simpl; lia|done].
      - exists listing_url. split; [done|by left]. }
  set (total0 := match SlTourism.page_numbers soup0 with
                 | [] => 1%Z
                 | n :: nums => SlTourism.max_of n nums
                 end).
  set (total := match SlTourism.max_pages_truthy max_pages with
                | Some m => Z.min total0 m
                | None => total0
                end).
  destruct (pages_loop_spec env (SlTourism.range_1 total)
              (PyStr3.before_char "?" listing_url) [] [listing_url])
    as (pages & Hlog & Hsub & Hall & Hres).
  assert (Hlen : length pages <= Z.to_nat total).
  { apply sublist_length in Hsub.
    unfold SlTourism.range_1 in Hsub.
    by rewrite !length_fmap, length_seq in Hsub. }
  assert (Hbound : forall m, max_pages = Some m ->
            ((0 < m)%Z -> length pages <= Z.to_nat m) /\
            ((m < 0)%Z -> pages = [])).
  { intros m ->. subst total. cbn [SlTourism.max_pages_truthy] in Hlen.
    split; intros Hm.
    - destruct (Z.eqb_spec m 0) as [->|_]; [lia|]. lia.
    - destruct (Z.eqb_spec m 0) as [->|_]; [lia|].
      apply length_zero_iff_nil. lia. }
  exists pages.
  destruct (SlTourism.pages_loop env _ _ _ _) as [[links|] fetched];
    cbn [fst snd] in *.
  - destruct Hres as (Hsome & more & Hlinks & Hmore).
    change ([] ++ more) with more in Hlinks. subst links.
    destruct (dedupe_id_spec more) as [Hnd Hin].
    split_and!; [done|done|done|done| |].
    + apply Forall_cons. split; [by rewrite Hget0|].
      eapply Forall_impl; [exact Hsome|]. intros u (soup & -> & _). done.
    + intros l. by rewrite Hin, Hmore.
  - destruct Hres as (u & Hlast & Hgu).
    split_and!; [done|done|done|].
    exists u. split.
    + destruct pages as [|v pages]; [done|]. exact Hlast.
    + destruct Hgu as [Hgu|(soup & Hgu & Hnone)]; [by left|].
      right. exists soup. split_and!; [done| |by apply page_links_raises].
      by destruct pages.
Qed.

(** ** scrape/scrape_ft_travel.py *)

Lemma fromkeys_spec (l d : list string) :
  NoDup d ->
  NoDup (FtTravel.fromkeys l d) /\
  forall x, x ∈ FtTravel.fromkeys l d <-> x ∈ d \/ x ∈ l.
Proof.
  revert d. induction l as [|k l IH]; intros d Hd; cbn [FtTravel.fromkeys].
  - split; [done|]. intros x. split; [by left|].
    intros [Hx|Hx]; [done|by apply elem_of_nil in Hx].
  - case_bool_decide as Hk.
    + destruct (IH d Hd) as [Hnd Hin]. split; [done|].
      intros x. rewrite Hin, elem_of_cons. split.
      * intros [Hx|Hx]; [by left|by right; right].
      * intros [Hx|[->|Hx]]; [by left|by left|by right].
    + assert (Hd' : NoDup (d ++ [k])).
      { apply NoDup_app. split_and!; [done| |apply NoDup_singleton].
        intros x Hx ->%list_elem_of_singleton. done. }
      destruct (IH _ Hd') as [Hnd Hin]. split; [done|].
      intros x. rewrite Hin, elem_of_app, list_elem_of_singleton, elem_of_cons.
      tauto.
Qed.

Section FtFacts.
Variable env : FtTravel.Env.

(** [image_urls] raises exactly when [urljoin] raises on a non-empty
    source. *)
Lemma image_urls_raises (srcs : list (option string)) :
  FtTravel.image_urls env srcs = None <->
  exists s, Some s ∈ srcs /\ s <> "" /\
            FtTravel.urljoin env FtTravel.BASE s = None.
Proof.
  induction srcs as [|src srcs IH]; cbn [FtTravel.image_urls].
  - split; [done|]. by intros (s & ?%elem_of_nil & _).
  - assert (Hskip : (exists s, Some s ∈ srcs /\ s <> "" /\
                       FtTravel.urljoin env FtTravel.BASE s = None) ->
                    exists s, Some s ∈ src :: srcs /\ s <> "" /\
                       FtTravel.urljoin env FtTravel.BASE s = None).
    { intros (s & Hs & Hrest). exists s. split; [by right|done]. }
    destruct src as [s0|].
    + destruct (PyStr.truthy s0) eqn:Ht.
      * destruct (FtTravel.urljoin env FtTravel.BASE s0) as [u|] eqn:Hu;
          cbn [mbind option_bind].
        -- destruct (FtTravel.image_urls env srcs) as [imgs|];
             cbn [mbind option_bind].
           ++ split; [done|].
              intros (s & [Heq|Hs]%elem_of_cons & Hne & Hnone).
              ** injection Heq as ->. by rewrite Hu in Hnone.
              ** assert (Some imgs = None) as Hn by (apply IH; by exists s).
                 done.
           ++ split; [|done]. intros _. apply Hskip. by apply IH.
        -- split; [|done]. intros _. exists s0.
           split_and!; [by left|by destruct s0|done].
      * rewrite IH. split; [apply Hskip|].
        intros (s & [Heq|Hs]%elem_of_cons & Hne & Hnone).
        -- injection Heq as ->. by destruct s0.
        -- by exists s.
    + rewrite IH. split; [apply Hskip|].
      intros (s & [Heq|Hs]%elem_of_cons & Hne & Hnone); [done|].
      by exists s.
Qed.

Lemma image_urls_spec (srcs : list (option string)) (imgs : list string)
    (x : string) :
  FtTravel.image_urls env srcs = Some imgs ->
  x ∈ imgs <->
  exists s, Some s ∈ srcs /\ s <> "" /\
            FtTravel.urljoin env FtTravel.BASE s = Some x.
Proof.
  revert imgs. induction srcs as [|src srcs IH]; intros imgs;
    cbn [FtTravel.image_urls].
  - intros [= <-]. split; [by intros ?%elem_of_nil|].
    by intros (s & ?%elem_of_nil & _).
  - destruct src as [s|].
    + destruct s as [|c s]; cbn [PyStr.truthy].
      * intros Himgs. rewrite (IH _ Himgs). split.
        { intros (s & Hs & Hne & Hx). exists s.
          split_and!; [apply elem_of_cons; by right|done|done]. }
        { intros (s & [Hs|Hs]%elem_of_cons & Hne & Hx).
          - by injection Hs as ->.
          - by exists s. }
      * destruct (FtTravel.urljoin env FtTravel.BASE (String c s))
          as [u|] eqn:Hu; cbn [mbind option_bind]; [|done].
        destruct (FtTravel.image_urls env srcs) as [rest|];
          cbn [mbind option_bind]; [|done].
        intros [= <-]. rewrite elem_of_cons, (IH rest eq_refl). split.
        { intros [->|(s' & Hs & Hne & Hx)].
          - exists (String c s).
            split_and!; [apply elem_of_cons; by left|done|done].
          - exists s'. split_and!; [apply elem_of_cons; by right|done|done]. }
        { intros (s' & [Hs|Hs]%elem_of_cons & Hne & Hx).
          - injection Hs as ->. rewrite Hu in Hx. injection Hx as ->.
            by left.
          - right. by exists s'. }
    + intros Himgs. rewrite (IH _ Himgs). split.
      * intros (s & Hs & Hne & Hx). exists s.
        split_and!; [apply elem_of_cons; by right|done|done].
      * intros (s & [Hs|Hs]%elem_of_cons & Hne & Hx); [done|by exists s].
Qed.

Lemma fetch_article_details_world (url : string) (w : FtTravel.World) :
  FtTravel.files (FtTravel.fetch_article_details env url w).2
  = FtTravel.files w /\
  (FtTravel.can_fetch env url = false /\
   FtTravel.fetch_article_details env url w
   = (Some FtTravel.empty_details, w) \/
   FtTravel.can_fetch env url = true /\
   FtTravel.requests (FtTravel.fetch_article_details env url w).2
   = FtTravel.requests w ++ [FtTravel.ArticleGet url]).
Proof.
  unfold FtTravel.fetch_article_details.
  destruct (FtTravel.can_fetch env url); cbn [negb].
  - destruct (FtTravel.page_get env url); cbn [fst snd];
      (split; [done|by right]).
  - split; [done|by left].
Qed.

(** When [fetch_article_details] raises, the page was allowed and fetched,
    and [urljoin] raised on the source of one of its images. *)
Lemma fetch_article_details_raises (url : string) (w : FtTravel.World) :
  (FtTravel.fetch_article_details env url w).1 = None ->
  FtTravel.can_fetch env url = true /\
  exists soup s,
    FtTravel.page_get env url = Some soup /\
    Some s ∈ FtTravel.img_srcs soup /\ s <> "" /\
    FtTravel.urljoin env FtTravel.BASE s = None.
Proof.
  unfold FtTravel.fetch_article_details.
  destruct (FtTravel.can_fetch env url); cbn [negb]; [|done].
  destruct (FtTravel.page_get env url) as [soup|]; cbn [fst snd]; [|done].
  destruct (FtTravel.image_urls env (FtTravel.img_srcs soup))
    as [imgs|] eqn:Himgs; cbn [mbind option_bind]; [done|].
  intros _. split; [done|].
  apply image_urls_raises in Himgs as (s & Hs & Hne & Hnone).
  by exists soup, s.
Qed.

End FtFacts.

(** X22 (scrape_ft_travel.py, fetch_article_details): the function never
    touches the images directory.  For a URL that robots.txt denies it
    makes no request and returns the empty result; otherwise it makes
    exactly one request, to the URL itself, and returns the empty result
    when that request fails.  On a page that was fetched it raises
    exactly when [urljoin] raises on the non-empty source of one of the
    page's img tags (line 154 is outside the [try]); when it returns,
    the images are pairwise distinct, and they are exactly the URLs joined
    from the non-empty sources of the page's img tags. *)
Theorem fetch_article_details_spec (env : FtTravel.Env) (url : string)
    (w : FtTravel.World) :
  let run := FtTravel.fetch_article_details env url w in
  FtTravel.files run.2 = FtTravel.files w /\
  (if FtTravel.can_fetch env url
   then FtTravel.requests run.2
        = FtTravel.requests w ++ [FtTravel.ArticleGet url]
   else run = (Some FtTravel.empty_details, w)) /\
  match FtTravel.page_get env url with
  | Some soup =>
      FtTravel.can_fetch env url = true ->
      match run.1 with
      | Some details =>
          FtTravel.description details = FtTravel.article_body soup /\
          NoDup (FtTravel.article_images details) /\
          forall x, x ∈ FtTravel.article_images details <->
                    exists s, Some s ∈ FtTravel.img_srcs soup /\ s <> "" /\
                              FtTravel.urljoin env FtTravel.BASE s = Some x
      | None =>
          exists s, Some s ∈ FtTravel.img_srcs soup /\ s <> "" /\
                    FtTravel.urljoin env FtTravel.BASE s = None
      end
  | None => run.1 = Some FtTravel.empty_details
  end /\
  (run.1 = None <->
   FtTravel.can_fetch env url = true /\
   exists soup s,
     FtTravel.page_get env url = Some soup /\
     Some s ∈ FtTravel.img_srcs soup /\ s <> "" /\
     FtTravel.urljoin env FtTravel.BASE s = None).
Proof.
  cbv zeta. split_and!.
  - apply fetch_article_details_world.
  - destruct (fetch_article_details_world env url w)
      as [_ [[-> ->]|[-> Hreq]]]; done.
  - unfold FtTravel.fetch_article_details.
    destruct (FtTravel.can_fetch env url); cbn [negb].
    + destruct (FtTravel.page_get env url) as [soup|]; cbn [fst snd];
        [|done].
      intros _.
      destruct (FtTravel.image_urls env (FtTravel.img_srcs soup))
        as [imgs|] eqn:Himgs; cbn [mbind option_bind].
      * destruct (fromkeys_spec imgs []) as [Hnd Hin]; [apply NoDup_nil_2|].
        split_and!; [done|done|].
        intros x. cbn [FtTravel.article_images].
        rewrite Hin, <- (image_urls_spec env _ _ x Himgs).
        split; [|by right].
        intros [Hx|Hx]; [by apply elem_of_nil in Hx|done].
      * by apply image_urls_raises.
    + by destruct (FtTravel.page_get env url).
  - split; [apply fetch_article_details_raises|].
    intros (Hrob & soup & s & Hget & Hs & Hne & Hnone).
    unfold FtTravel.fetch_article_details. rewrite Hrob, Hget. cbn [negb fst].
    assert (FtTravel.image_urls env (FtTravel.img_srcs soup) = None) as ->
      by (apply image_urls_raises; by exists s).
    done.
Qed.

Lemma size_create (p : string) (fs : gset string) :
  size ({[p]} ∪ fs) <= S (size fs).
Proof.
  destruct (decide (p ∈ fs)) as [Hin|Hout].
  - rewrite (subseteq_union_1_L {[p]} fs); [lia|].
    by apply singleton_subseteq_l.
  - by rewrite size_visited_add.
Qed.

Lemma pretty_N_char_digit (x : N) :
  FtTravel.is_digit (pretty_N_char x) = true.
Proof. unfold pretty_N_char. repeat case_match; reflexivity. Qed.

Lemma pretty_N_go_digits (x : N) (s : string) :
  PyStr3.all_chars FtTravel.is_digit s = true ->
  PyStr3.all_chars FtTravel.is_digit (pretty_N_go x s) = true.
Proof.
  revert s. induction (N.lt_wf_0 x) as [x _ IH]; intros s Hs.
  destruct (decide (0 < x)%N) as [Hx|Hx].
  - rewrite pretty_N_go_step by done. apply IH.
    + apply N.div_lt; lia.
    + cbn [PyStr3.all_chars]. by rewrite pretty_N_char_digit, Hs.
  - assert (x = 0%N) as -> by lia. by rewrite pretty_N_go_0.
Qed.

Lemma pretty_nat_digits (n : nat) :
  PyStr3.all_chars FtTravel.is_digit (pretty n) = true.
Proof.
  unfold pretty, pretty_nat, pretty, pretty_N.
  case_decide; [reflexivity|]. by apply pretty_N_go_digits.
Qed.

Lemma digits_split (d1 d2 e1 e2 : string) :
  PyStr3.all_chars FtTravel.is_digit d1 = true ->
  PyStr3.all_chars FtTravel.is_digit d2 = true ->
  PyStr.startswith e1 "." = true ->
  PyStr.startswith e2 "." = true ->
  d1 +:+ e1 = d2 +:+ e2 -> d1 = d2.
Proof.
  assert (Hdot : forall e c d, PyStr.startswith e "." = true ->
            e = String c d -> FtTravel.is_digit c = true -> False).
  { intros e c d He ->. cbn [PyStr.startswith] in He.
    destruct (Ascii.eqb_spec "." c) as [<-|]; [|done]. by intros [=]. }
  revert d2. induction d1 as [|c d1 IH]; intros [|c' d2] H1 H2 He1 He2 Heq.
  - done.
  - change (e1 = String c' (d2 +:+ e2)) in Heq.
    cbn [PyStr3.all_chars] in H2. apply andb_prop in H2 as [Hc _].
    destruct (Hdot _ _ _ He1 Heq Hc).
  - change (String c (d1 +:+ e1) = e2) in Heq.
    cbn [PyStr3.all_chars] in H1. apply andb_prop in H1 as [Hc _].
    destruct (Hdot _ _ _ He2 (eq_sym Heq) Hc).
  - rewrite !append_cons in Heq. injection Heq as -> Heq.
    cbn [PyStr3.all_chars] in H1, H2.
    apply andb_prop in H1 as [_ H1]. apply andb_prop in H2 as [_ H2].
    f_equal. by apply IH.
Qed.

Section FtDownload.
Variable env : FtTravel.Env.

Lemma target_inj (title_prefix : string) (i j : nat) (u v p : string) :
  FtTravel.ext_law env ->
  FtTravel.target env title_prefix i u = Some p ->
  FtTravel.target env title_prefix j v = Some p ->
  i = j.
Proof.
  intros Hlaw. unfold FtTravel.target.
  destruct (FtTravel.url_ext env u) as [e1|] eqn:H1; [|done].
  destruct (FtTravel.url_ext env v) as [e2|] eqn:H2; [|done].
  cbn [mbind option_bind]. intros [= <-] [= Heq].
  unfold FtTravel.out_path, FtTravel.fname in Heq.
  repeat apply (inj (String.app _)) in Heq.
  assert (Hext : forall url e, FtTravel.url_ext env url = Some e ->
            PyStr.startswith (if PyStr.truthy e then e else ".jpg") "."
            = true).
  { intros url e He. destruct (Hlaw url e He) as [->|Hdot]; [done|].
    by destruct e. }
  symmetry. apply (inj pretty).
  eapply digits_split; [apply pretty_nat_digits..| | |exact Heq].
  - by eapply Hext.
  - by eapply Hext.
Qed.

Lemma download_one_spec (idx : nat) (url title_prefix : string)
    (w : FtTravel.World) :
  let r := FtTravel.download_one env idx url title_prefix w in
  exists evs,
    FtTravel.requests r.2
    = FtTravel.requests w ++ (FtTravel.ImageGet <$> evs) /\
    (evs = [] \/
     evs = [url] /\
     exists p, FtTravel.target env title_prefix idx url = Some p /\
               p ∉ FtTravel.files w) /\
    FtTravel.files w ⊆ FtTravel.files r.2 /\
    size (FtTravel.files r.2) <= size (FtTravel.files w) + length evs /\
    forall p, r.1 = Some p ->
              p ∈ FtTravel.files r.2 /\
              FtTravel.target env title_prefix idx url = Some p.
Proof.
  cbv zeta. unfold FtTravel.download_one, FtTravel.target.
  destruct (FtTravel.url_ext env url) as [e|]; cbn [mbind option_bind].
  2:{ exists []. cbn [fst snd fmap list_fmap]. rewrite app_nil_r.
      split_and!; [done|by left|done|lia|done]. }
  set (outp := FtTravel.out_path _).
  case_bool_decide as Hex.
  { exists []. cbn [fst snd fmap list_fmap]. rewrite app_nil_r.
    split_and!; [done|by left|done|lia|].
    by intros p [= <-]. }
  destruct (FtTravel.image_get env url) as [[]|];
    [destruct (FtTravel.file_open env outp) as [[]|];
     [destruct (FtTravel.write_chunks env url outp) as [[]|]|]|];
    exists [url]; cbn [fst snd FtTravel.request FtTravel.create
                       FtTravel.files FtTravel.requests fmap list_fmap length].
  - split_and!; [done|right; split; [done|by exists outp]|
                 apply union_subseteq_r| |].
    + etrans; [apply size_create|lia].
    + intros p [= <-]. split; [|done].
      apply elem_of_union_l, elem_of_singleton. reflexivity.
  - split_and!; [done|right; split; [done|by exists outp]|
                 apply union_subseteq_r| |done].
    etrans; [apply size_create|lia].
  - split_and!; [done|right; split; [done|by exists outp]|done|lia|done].
  - split_and!; [done|right; split; [done|by exists outp]|done|lia|done].
Qed.

Lemma download_one_cached (idx : nat) (url title_prefix p : string)
    (w : FtTravel.World) :
  FtTravel.target env title_prefix idx url = Some p ->
  p ∈ FtTravel.files w ->
  FtTravel.download_one env idx url title_prefix w = (Some p, w).
Proof.
  unfold FtTravel.download_one, FtTravel.target.
  destruct (FtTravel.url_ext env url) as [e|]; [|done].
  cbn [mbind option_bind]. intros [= <-] Hin.
  by rewrite bool_decide_true.
Qed.

Lemma download_from_spec (idx : nat) (urls : list string)
    (title_prefix : string) (acc : list string) (w : FtTravel.World) :
  let r := FtTravel.download_from env idx urls title_prefix acc w in
  exists new evs,
    r.1 = acc ++ new /\
    Some <$> new `sublist_of` FtTravel.targets_from env idx urls title_prefix /\
    FtTravel.requests r.2
    = FtTravel.requests w ++ (FtTravel.ImageGet <$> evs) /\
    evs `sublist_of` urls /\
    FtTravel.files w ⊆ FtTravel.files r.2 /\
    size (FtTravel.files r.2) <= size (FtTravel.files w) + length evs /\
    Forall (fun p => p ∈ FtTravel.files r.2) new.
Proof.
  cbv zeta. revert idx acc w.
  induction urls as [|url rest IH]; intros idx acc w.
  - exists [], []. cbn [FtTravel.download_from fst snd fmap list_fmap].
    rewrite !app_nil_r.
    split_and!; [done|done|done|done|done|simpl; lia|by apply Forall_nil].
  - cbn [FtTravel.download_from FtTravel.targets_from].
    destruct (download_one_spec idx url title_prefix w)
      as (ev1 & Hlog1 & Hev1 & Hfs1 & Hsize1 & Hres1).
    destruct (FtTravel.download_one env idx url title_prefix w)
      as [[p|] w1]; cbn [fst snd] in *.
    + destruct (Hres1 p eq_refl) as [Hp Htarget].
      destruct (IH (S idx) (acc ++ [p]) w1)
        as (new & evs & Hnew & Hsub & Hlog & Hevs & Hfs & Hsize & Hall).
      exists (p :: new), (ev1 ++ evs). split_and!.
      * by rewrite Hnew, <- app_assoc.
      * rewrite fmap_cons, Htarget. by apply sublist_skip.
      * by rewrite Hlog, Hlog1, fmap_app, app_assoc.
      * destruct Hev1 as [->|[-> _]]; [by apply sublist_cons|].
        by apply sublist_skip.
      * by etrans.
      * rewrite length_app. lia.
      * apply Forall_cons. split; [|done]. by apply Hfs.
    + destruct (IH (S idx) acc w1)
        as (new & evs & Hnew & Hsub & Hlog & Hevs & Hfs & Hsize & Hall).
      exists new, (ev1 ++ evs). split_and!.
      * done.
      * by apply sublist_cons.
      * by rewrite Hlog, Hlog1, fmap_app, app_assoc.
      * destruct Hev1 as [->|[-> _]]; [by apply sublist_cons|].
        by apply sublist_skip.
      * by etrans.
      * rewrite length_app. lia.
      * done.
Qed.

Lemma targets_from_length (idx : nat) (urls : list string)
    (title_prefix : string) :
  length (FtTravel.targets_from env idx urls title_prefix) = length urls.
Proof.
  revert idx. induction urls as [|url rest IH]; intros idx; [done|].
  cbn [FtTravel.targets_from length]. by rewrite IH.
Qed.

Lemma targets_from_index (idx : nat) (urls : list string)
    (title_prefix p : string) :
  Some p ∈ FtTravel.targets_from env idx urls title_prefix ->
  exists i url, idx <= i /\
                FtTravel.target env title_prefix i url = Some p.
Proof.
  revert idx. induction urls as [|url rest IH]; intros idx.
  - by intros ?%elem_of_nil.
  - cbn [FtTravel.targets_from]. intros [Hp|Hp]%elem_of_cons.
    + by exists idx, url.
    + destruct (IH _ Hp) as (i & u & Hi & Ht). exists i, u.
      split; [lia|done].
Qed.

Lemma targets_from_nodup (idx : nat) (urls : list string)
    (title_prefix : string) :
  FtTravel.ext_law env ->
  NoDup (omap id (FtTravel.targets_from env idx urls title_prefix)).
Proof.
  intros Hlaw. revert idx.
  induction urls as [|url rest IH]; intros idx; [apply NoDup_nil_2|].
  cbn [FtTravel.targets_from].
  destruct (FtTravel.target env title_prefix idx url) as [p|] eqn:Hp;
    cbn [omap list_omap id]; [|by apply IH].
  apply NoDup_cons_2; [|by apply IH].
  intros (t & Ht & Hin)%list_elem_of_omap. cbn [id] in Hin. subst t.
  destruct (targets_from_index _ _ _ _ Ht) as (i & u & Hi & Hti).
  assert (idx = i) by (by eapply target_inj). lia.
Qed.

Lemma targets_from_ext (idx : nat) (urls urls2 : list string)
    (title_prefix : string) :
  FtTravel.url_ext env <$> urls2 = FtTravel.url_ext env <$> urls ->
  FtTravel.targets_from env idx urls2 title_prefix
  = FtTravel.targets_from env idx urls title_prefix.
Proof.
  revert idx urls2. induction urls as [|url rest IH];
    intros idx [|url2 rest2] Heq; try done.
  rewrite !fmap_cons in Heq. injection Heq as Hext Heq.
  cbn [FtTravel.targets_from]. rewrite (IH _ _ Heq).
  unfold FtTravel.target. by rewrite Hext.
Qed.

Lemma download_from_cached (idx : nat) (urls : list string)
    (title_prefix : string) (acc ps : list string) (w : FtTravel.World) :
  FtTravel.targets_from env idx urls title_prefix = Some <$> ps ->
  Forall (fun p => p ∈ FtTravel.files w) ps ->
  FtTravel.download_from env idx urls title_prefix acc w = (acc ++ ps, w).
Proof.
  revert idx acc ps. induction urls as [|url rest IH];
    intros idx acc [|p ps] Heq Hall; try done.
  - cbn [FtTravel.download_from]. by rewrite app_nil_r.
  - cbn [FtTravel.targets_from] in Heq. rewrite fmap_cons in Heq.
    injection Heq as Hp Heq. apply Forall_cons in Hall as [Hin Hall].
    cbn [FtTravel.download_from].
    rewrite (download_one_cached _ _ _ p) by done.
    rewrite (IH _ _ ps) by done. by rewrite <- app_assoc.
Qed.

Lemma sublist_full {A : Type} (l k : list A) :
  l `sublist_of` k -> length l = length k -> l = k.
Proof.
  induction 1 as [|x l k Hsub IH|x l k Hsub IH]; intros Hlen.
  - done.
  - f_equal. apply IH. simpl in Hlen. lia.
  - apply sublist_length in Hsub. simpl in Hlen. lia.
Qed.

End FtDownload.

(** X23 (scrape_ft_travel.py, download_images): the function never
    raises.  It returns at most one path per URL and, for a max_per_item
    that is not negative, at most max_per_item paths; every path it
    returns names a file that is in the images directory afterwards.  The
    directory only grows, by at most one file per request; the requests
    are for URLs among the first max_per_item, in their order, each at
    most once per place in the list. *)
Theorem ft_download_images_spec (env : FtTravel.Env) (urls : list string)
    (title_prefix : string) (max_per_item : Z) (w : FtTravel.World) :
  let r := FtTravel.download_images env urls title_prefix max_per_item w in
  length r.1 <= length urls /\
  ((0 <= max_per_item)%Z -> length r.1 <= Z.to_nat max_per_item) /\
  Forall (fun p => p ∈ FtTravel.files r.2) r.1 /\
  FtTravel.files w ⊆ FtTravel.files r.2 /\
  exists evs,
    FtTravel.requests r.2
    = FtTravel.requests w ++ (FtTravel.ImageGet <$> evs) /\
    evs `sublist_of` PyStr2.slice_list max_per_item urls /\
    size (FtTravel.files r.2) <= size (FtTravel.files w) + length evs.
Proof.
  cbv zeta. unfold FtTravel.download_images.
  destruct (download_from_spec env 0 (PyStr2.slice_list max_per_item urls)
              title_prefix [] w)
    as (new & evs & Hnew & Hsub & Hlog & Hevs & Hfs & Hsize & Hall).
  change ([] ++ new) with new in Hnew. rewrite Hnew.
  assert (Hlen : length new
                 <= length (PyStr2.slice_list max_per_item urls)).
  { apply sublist_length in Hsub.
    by rewrite length_fmap, targets_from_length in Hsub. }
  assert (Hslice : length (PyStr2.slice_list max_per_item urls)
                   <= length urls).
  { unfold PyStr2.slice_list. destruct (max_per_item <? 0)%Z;
      rewrite length_take; lia. }
  split_and!.
  - lia.
  - intros Hmax. etrans; [exact Hlen|].
    unfold PyStr2.slice_list.
    destruct (Z.ltb_spec max_per_item 0); [lia|].
    rewrite length_take. lia.
  - done.
  - done.
  - by exists evs.
Qed.

(** X24 (scrape_ft_travel.py, download_images): a file that is already
    there is taken for the image.  After a run in which every URL gave a
    file, a second run with the same title prefix and URLs of the same
    extensions (the same URLs, or those of another article with that
    title prefix) makes no request, leaves the directory as it is and
    returns the files of the first run. *)
Theorem ft_download_images_cached (env : FtTravel.Env)
    (urls urls2 : list string) (title_prefix : string) (max_per_item : Z)
    (w : FtTravel.World) :
  let r := FtTravel.download_images env urls title_prefix max_per_item w in
  length r.1 = length (PyStr2.slice_list max_per_item urls) ->
  FtTravel.url_ext env <$> PyStr2.slice_list max_per_item urls2
  = FtTravel.url_ext env <$> PyStr2.slice_list max_per_item urls ->
  FtTravel.download_images env urls2 title_prefix max_per_item r.2 = r.
Proof.
  cbv zeta. unfold FtTravel.download_images. intros Hlen Hext.
  destruct (download_from_spec env 0 (PyStr2.slice_list max_per_item urls)
              title_prefix [] w)
    as (new & evs & Hnew & Hsub & _ & _ & _ & _ & Hall).
  change ([] ++ new) with new in Hnew. rewrite Hnew in Hlen.
  apply sublist_full in Hsub;
    [|by rewrite length_fmap, targets_from_length].
  rewrite (download_from_cached env 0 _ title_prefix [] new).
  - rewrite <- Hnew. by destruct (FtTravel.download_from _ _ _ _ _ _).
  - by rewrite (targets_from_ext env 0 _ _ title_prefix Hext).
  - done.
Qed.

Lemma ft_download_images_cached_witness :
  FtTravel.download_images FtTravel.sample_env
    ["https://www.ft.lk/img/other.png"] "Ella_a" 6
    (FtTravel.download_images FtTravel.sample_env
       ["https://www.ft.lk/thumb/a.png"] "Ella_a" 6 FtTravel.empty_world).2
  = FtTravel.download_images FtTravel.sample_env
      ["https://www.ft.lk/thumb/a.png"] "Ella_a" 6 FtTravel.empty_world.
Proof.
  apply (ft_download_images_cached FtTravel.sample_env
           ["https://www.ft.lk/thumb/a.png"]
           ["https://www.ft.lk/img/other.png"] "Ella_a" 6
           FtTravel.empty_world); reflexivity.
Defined.

(** X25 (scrape_ft_travel.py, download_images): as the extension that
    os.path.splitext returns is empty or starts with a dot, the paths of
    one call are pairwise distinct: no image of an article is taken for
    another image of the same article. *)
Theorem ft_download_images_distinct (env : FtTravel.Env)
    (urls : list string) (title_prefix : string) (max_per_item : Z)
    (w : FtTravel.World) :
  FtTravel.ext_law env ->
  NoDup (FtTravel.download_images env urls title_prefix max_per_item w).1.
Proof.
  intros Hlaw. unfold FtTravel.download_images.
  destruct (download_from_spec env 0 (PyStr2.slice_list max_per_item urls)
              title_prefix [] w)
    as (new & evs & Hnew & Hsub & _).
  change ([] ++ new) with new in Hnew. rewrite Hnew.
  eapply sublist_NoDup;
    [apply (targets_from_nodup env 0 (PyStr2.slice_list max_per_item urls)
              title_prefix Hlaw)|].
  assert (Hnew' : new = omap id (Some <$> new)).
  { clear. induction new as [|p new IH]; [done|].
    rewrite fmap_cons. cbn [omap list_omap id]. by f_equal. }
  rewrite Hnew'. clear Hnew'.
  induction Hsub as [|x l k Hsub IH|x l k Hsub IH].
  - done.
  - destruct x; cbn [omap list_omap id]; [by apply sublist_skip|done].
  - destruct x; cbn [omap list_omap id]; [by apply sublist_cons|done].
Qed.

Lemma ft_download_images_distinct_witness :
  NoDup (FtTravel.download_images FtTravel.sample_env
           ["https://www.ft.lk/thumb/a.png"; "https://www.ft.lk/img/1.jpeg"]
           "Ella_a" 6 FtTravel.empty_world).1.
Proof.
  apply (ft_download_images_distinct FtTravel.sample_env).
  intros url e. unfold FtTravel.sample_env, FtTravel.url_ext,
    FtTravel.sample_ext.
  repeat case_match; intros [= <-]; auto.
Defined.





Section FtMain.
Variable env : FtTravel.Env.



End FtMain.


(** ** scrape/scrape_srilanka.py: the file name of a downloaded image *)

Lemma length_append (a b : string) :
  String.length (a +:+ b) = String.length a + String.length b.
Proof.
  induction a as [|c a IH]; [done|].
  rewrite append_cons. simpl. by rewrite IH.
Qed.

Lemma append_cancel_r (a b c : string) : a +:+ c = b +:+ c -> a = b.
Proof.
  revert b. induction a as [|x a IH]; intros [|y b] Heq.
  - done.
  - apply (f_equal String.length) in Heq.
    rewrite !length_append in Heq. simpl in Heq. lia.
  - apply (f_equal String.length) in Heq.
    rewrite !length_append in Heq. simpl in Heq. lia.
  - rewrite !append_cons in Heq. injection Heq as -> Heq.
    f_equal. by apply IH.
Qed.

Lemma candidate_inj (base ext : string) (i j : nat) :
  SrilankaNames.candidate base ext i = SrilankaNames.candidate base ext j ->
  i = j.
Proof.
  unfold SrilankaNames.candidate. intros Heq.
  do 2 apply (inj (String.app _)) in Heq.
  apply append_cancel_r in Heq. by apply (inj pretty).
Qed.

Lemma candidates_bound (fs : gset string) (base ext : string) (i n : nat) :
  (forall j, i <= j < i + n -> SrilankaNames.candidate base ext j ∈ fs) ->
  n <= size fs.
Proof.
  intros Hall.
  set (l := SrilankaNames.candidate base ext <$> seq i n).
  assert (Hnd : NoDup l).
  { apply NoDup_fmap_2; [|apply NoDup_seq].
    intros a b. apply candidate_inj. }
  assert (Hsub : (list_to_set l : gset string) ⊆ fs).
  { intros p Hp. apply elem_of_list_to_set in Hp.
    apply list_elem_of_fmap in Hp as (j & -> & Hj).
    apply Hall. apply elem_of_seq in Hj. lia. }
  apply subseteq_size in Hsub.
  rewrite size_list_to_set in Hsub by done.
  subst l. by rewrite length_fmap, length_seq in Hsub.
Qed.

Lemma avoid_collisions_some (fuel : nat) (fs : gset string)
    (base ext : string) (i : nat) (out_path p : string) :
  SrilankaNames.avoid_collisions fuel fs base ext i out_path = Some p ->
  (p ∉ fs) /\
  (out_path ∉ fs -> p = out_path) /\
  (out_path ∈ fs ->
     exists k, i <= k < i + fuel /\
               p = SrilankaNames.candidate base ext k /\
               forall j, i <= j < k ->
                         SrilankaNames.candidate base ext j ∈ fs).
Proof.
  revert i out_path. induction fuel as [|fuel IH]; intros i out_path;
    [by cbn [SrilankaNames.avoid_collisions]|].
  cbn [SrilankaNames.avoid_collisions]. case_bool_decide as Hin.
  - intros Hrun. destruct (IH _ _ Hrun) as (Hp & Hfresh & Hbusy).
    split_and!; [done|done|]. intros _.
    destruct (decide (SrilankaNames.candidate base ext i ∈ fs)) as [Hc|Hc].
    + destruct (Hbusy Hc) as (k & Hk & -> & Hall).
      exists k. split; [lia|]. split; [done|].
      intros j Hj. destruct (decide (j = i)) as [->|]; [done|].
      apply Hall. lia.
    + exists i. split; [lia|]. split; [by apply Hfresh|]. intros j Hj. lia.
  - intros [= <-]. split_and!; done.
Qed.

Lemma avoid_collisions_none (fuel : nat) (fs : gset string)
    (base ext : string) (i : nat) (out_path : string) :
  SrilankaNames.avoid_collisions (S fuel) fs base ext i out_path = None ->
  forall j, i <= j < i + fuel -> SrilankaNames.candidate base ext j ∈ fs.
Proof.
  revert i out_path. induction fuel as [|fuel IH]; intros i out_path Hrun j Hj;
    [lia|].
  cbn [SrilankaNames.avoid_collisions] in Hrun.
  destruct (bool_decide (out_path ∈ fs)); [|done].
  destruct (bool_decide (SrilankaNames.candidate base ext i ∈ fs)) eqn:Hc;
    [|done].
  apply bool_decide_eq_true in Hc.
  destruct (decide (j = i)) as [->|]; [done|].
  apply (IH (S i) (SrilankaNames.candidate base ext i)); [|lia].
  cbn [SrilankaNames.avoid_collisions]. by rewrite bool_decide_true.
Qed.

Lemma avoid_collisions_more (fuel more : nat) (fs : gset string)
    (base ext : string) (i : nat) (out_path p : string) :
  SrilankaNames.avoid_collisions fuel fs base ext i out_path = Some p ->
  SrilankaNames.avoid_collisions (fuel + more) fs base ext i out_path
  = Some p.
Proof.
  revert i out_path. induction fuel as [|fuel IH]; intros i out_path;
    [by cbn [SrilankaNames.avoid_collisions]|].
  cbn [SrilankaNames.avoid_collisions Nat.add].
  destruct (bool_decide (out_path ∈ fs)); [apply IH|done].
Qed.

(** X27 (scrape_srilanka.py, download_image lines 93-98): the loop that
    avoids name collisions ends, after at most one test per file of the
    directory and two more, with a path that names no existing file.
    That path is the first name itself when it is free; otherwise it is
    the name with the least suffix _i, i from 1, that is free, all names
    with smaller suffixes being taken. *)
Theorem download_image_fresh_path (fs : gset string)
    (out_path base ext : string) (more : nat) :
  exists p,
    SrilankaNames.fresh_path (size fs + 2 + more) fs out_path base ext
    = Some p /\
    (p ∉ fs) /\
    (out_path ∉ fs -> p = out_path) /\
    (out_path ∈ fs ->
       exists k, 1 <= k <= size fs + 1 /\
                 p = SrilankaNames.candidate base ext k /\
                 forall j, 1 <= j < k ->
                           SrilankaNames.candidate base ext j ∈ fs).
Proof.
  unfold SrilankaNames.fresh_path.
  destruct (SrilankaNames.avoid_collisions (size fs + 2) fs base ext 1
              out_path) as [p|] eqn:Hrun.
  - exists p. destruct (avoid_collisions_some _ _ _ _ _ _ _ Hrun)
      as (Hp & Hfree & Hbusy).
    split_and!; [by apply avoid_collisions_more|done|done|].
    intros Hin. destruct (Hbusy Hin) as (k & Hk & -> & Hall).
    exists k. split; [|by split]. split; [lia|].
    destruct (decide (k <= size fs + 1)) as [|Hgt]; [done|].
    assert (size fs + 1 <= size fs); [|lia].
    apply (candidates_bound fs base ext 1). intros j Hj. apply Hall. lia.
  - replace (size fs + 2) with (S (size fs + 1)) in Hrun by lia.
    assert (size fs + 1 <= size fs); [|lia].
    apply (candidates_bound fs base ext 1).
    by apply (avoid_collisions_none _ _ _ _ _ _ Hrun).
Qed.

(** ** scrape/sl_tourism_scrape.py: [parse_attraction_page] and [main] *)

Lemma add_new_spec (x : string) (l : list string) :
  NoDup l ->
  NoDup (PyStr4.add_new x l) /\
  forall y, y ∈ PyStr4.add_new x l <-> y = x \/ y ∈ l.
Proof.
  intros Hl. unfold PyStr4.add_new. case_bool_decide as Hx.
  - split; [done|]. intros y. split; [by right|].
    by intros [->|Hy].
  - split.
    + apply NoDup_app. split_and!; [done| |apply NoDup_singleton].
      intros y Hy ->%list_elem_of_singleton. done.
    + intros y. rewrite elem_of_app, list_elem_of_singleton. tauto.
Qed.

Lemma sl_page_requests_app (l k : list SlAttraction.Request) :
  SlAttraction.page_requests (l ++ k)
  = SlAttraction.page_requests l ++ SlAttraction.page_requests k.
Proof. apply omap_app. Qed.

Lemma sl_image_requests_app (l k : list SlAttraction.Request) :
  SlAttraction.image_requests (l ++ k)
  = SlAttraction.image_requests l ++ SlAttraction.image_requests k.
Proof. apply omap_app. Qed.

Lemma sl_requests_of_images (urls : list string) :
  SlAttraction.page_requests (SlAttraction.ImageGet <$> urls) = [] /\
  SlAttraction.image_requests (SlAttraction.ImageGet <$> urls) = urls.
Proof.
  induction urls as [|u urls [IH1 IH2]]; [done|].
  rewrite fmap_cons. unfold SlAttraction.page_requests,
    SlAttraction.image_requests in *.
  cbn [omap list_omap]. by rewrite IH1, IH2.
Qed.

Lemma sl_requests_of_pages (urls : list string) :
  SlAttraction.page_requests (SlAttraction.PageGet <$> urls) = urls /\
  SlAttraction.image_requests (SlAttraction.PageGet <$> urls) = [].
Proof.
  induction urls as [|u urls [IH1 IH2]]; [done|].
  rewrite fmap_cons. unfold SlAttraction.page_requests,
    SlAttraction.image_requests in *.
  cbn [omap list_omap]. by rewrite IH1, IH2.
Qed.

Section SlAttractionFacts.
Variable env : SlAttraction.Env.

Lemma images_from_srcs_spec (srcs : list (option string))
    (images result : list string) :
  SlAttraction.images_from_srcs env srcs images = Some result ->
  NoDup images ->
  NoDup result /\
  forall x, x ∈ result <->
            x ∈ images \/
            exists s, Some s ∈ srcs /\ s <> "" /\
                      SlAttraction.urljoin env SlTourism.BASE s = Some x.
Proof.
  revert images. induction srcs as [|src srcs IH]; intros images Hres Hnd;
    cbn [SlAttraction.images_from_srcs] in Hres.
  - injection Hres as <-. split; [done|]. intros x. split; [by left|].
    intros [Hx|(s & Hs%elem_of_nil & _)]; done.
  - destruct src as [[|c s]|]; cbn [PyStr.truthy] in Hres.
    + destruct (IH images Hres Hnd) as [Hn Hin]. split; [done|].
      intros x. rewrite Hin. split.
      * intros [Hx|(s & Hs & Hne & Hx)]; [by left|].
        right. exists s. split_and!; [apply elem_of_cons; by right|done|done].
      * intros [Hx|(s & [Hs|Hs]%elem_of_cons & Hne & Hx)]; [by left| |].
        -- by injection Hs as ->.
        -- right. by exists s.
    + destruct (SlAttraction.urljoin env SlTourism.BASE (String c s))
        as [u|] eqn:Hu; cbn [mbind option_bind] in Hres; [|done].
      destruct (add_new_spec u images Hnd) as [Hn1 Hin1].
      destruct (IH _ Hres Hn1) as [Hn Hin]. split; [done|].
      intros x. rewrite Hin, Hin1. split.
      * intros [[->|Hx]|(s' & Hs & Hne & Hx)].
        { right. exists (String c s).
          split_and!; [apply elem_of_cons; by left|done|done]. }
        { by left. }
        { right. exists s'.
          split_and!; [apply elem_of_cons; by right|done|done]. }
      * intros [Hx|(s' & [Hs|Hs]%elem_of_cons & Hne & Hx)].
        { left. by right. }
        { injection Hs as ->. rewrite Hu in Hx. injection Hx as ->.
          left. by left. }
        { right. by exists s'. }
    + destruct (IH images Hres Hnd) as [Hn Hin]. split; [done|].
      intros x. rewrite Hin. split.
      * intros [Hx|(s & Hs & Hne & Hx)]; [by left|].
        right. exists s. split_and!; [apply elem_of_cons; by right|done|done].
      * intros [Hx|(s & [Hs|Hs]%elem_of_cons & Hne & Hx)]; [by left|done|].
        right. by exists s.
Qed.

Lemma images_from_hrefs_spec (hrefs : list string)
    (images result : list string) :
  SlAttraction.images_from_hrefs env hrefs images = Some result ->
  NoDup images ->
  NoDup result /\
  forall x, x ∈ result <->
            x ∈ images \/
            exists h, h ∈ hrefs /\ SlAttraction.is_image_link h = true /\
                      SlAttraction.urljoin env SlTourism.BASE h = Some x.
Proof.
  revert images. induction hrefs as [|href hrefs IH]; intros images Hres Hnd;
    cbn [SlAttraction.images_from_hrefs] in Hres.
  - injection Hres as <-. split; [done|]. intros x. split; [by left|].
    intros [Hx|(s & Hs%elem_of_nil & _)]; done.
  - destruct (SlAttraction.is_image_link href) eqn:Hlink.
    + destruct (SlAttraction.urljoin env SlTourism.BASE href)
        as [u|] eqn:Hu; cbn [mbind option_bind] in Hres; [|done].
      destruct (add_new_spec u images Hnd) as [Hn1 Hin1].
      destruct (IH _ Hres Hn1) as [Hn Hin]. split; [done|].
      intros x. rewrite Hin, Hin1. split.
      * intros [[->|Hx]|(h & Hh & Hl & Hx)].
        { right. exists href.
          split_and!; [apply elem_of_cons; by left|done|done]. }
        { by left. }
        { right. exists h.
          split_and!; [apply elem_of_cons; by right|done|done]. }
      * intros [Hx|(h & [->|Hh]%elem_of_cons & Hl & Hx)].
        { left. by right. }
        { rewrite Hu in Hx. injection Hx as ->. left. by left. }
        { right. by exists h. }
    + destruct (IH images Hres Hnd) as [Hn Hin]. split; [done|].
      intros x. rewrite Hin. split.
      * intros [Hx|(h & Hh & Hl & Hx)]; [by left|].
        right. exists h.
        split_and!; [apply elem_of_cons; by right|done|done].
      * intros [Hx|(h & [->|Hh]%elem_of_cons & Hl & Hx)].
        { by left. }
        { by rewrite Hlink in Hl. }
        { right. by exists h. }
Qed.

Lemma external_from_spec (hrefs : list string) (external_urls : list string) :
  NoDup external_urls ->
  NoDup (SlAttraction.external_from hrefs external_urls) /\
  forall x, x ∈ SlAttraction.external_from hrefs external_urls <->
            x ∈ external_urls \/
            x ∈ hrefs /\ PyStr.startswith x "http" = true /\
            PyStr2.contains x SlTourism.BASE = false.
Proof.
  revert external_urls.
  induction hrefs as [|href hrefs IH]; intros external_urls Hnd;
    cbn [SlAttraction.external_from].
  - split; [done|]. intros x. split; [by left|].
    intros [Hx|[Hx%elem_of_nil _]]; done.
  - destruct (PyStr.startswith href "http") eqn:Hhttp;
      destruct (PyStr2.contains href SlTourism.BASE) eqn:Hbase;
      cbn [andb negb].
    2:{ destruct (add_new_spec href external_urls Hnd) as [Hn1 Hin1].
        destruct (IH _ Hn1) as [Hn Hin]. split; [done|].
        intros x. rewrite Hin, Hin1, elem_of_cons. split.
        - intros [[->|Hx]|(Hx & Hh & Hb)]; [right|by left|right]; by auto.
        - intros [Hx|([->|Hx] & Hh & Hb)]; [left; by right|left; by left|].
          right. by auto. }
    all: destruct (IH external_urls Hnd) as [Hn Hin]; split; [done|];
      intros x; rewrite Hin, elem_of_cons; split;
      [ intros [Hx|(Hx & Hh & Hb)]; [by left|right; by auto]
      | intros [Hx|([->|Hx] & Hh & Hb)]; [by left|congruence|right; by auto] ].
Qed.

Lemma sl_download_one_spec (idx : nat) (img_url title : string)
    (w : SlAttraction.World) :
  let r := SlAttraction.download_one env idx img_url title w in
  exists evs,
    SlAttraction.requests r.2
    = SlAttraction.requests w ++ (SlAttraction.ImageGet <$> evs) /\
    (evs = [] \/ evs = [img_url]) /\
    SlAttraction.files w ⊆ SlAttraction.files r.2 /\
    (evs = [] -> SlAttraction.files r.2 = SlAttraction.files w) /\
    forall p, r.1 = Some p -> p ∈ SlAttraction.files r.2.
Proof.
  cbv zeta. unfold SlAttraction.download_one.
  destruct (SlAttraction.url_ext env img_url) as [e|].
  2:{ exists []. cbn [fst snd fmap list_fmap]. rewrite app_nil_r.
      split_and!; [done|by left|done|done|done]. }
  set (outp := SlAttraction.outpath_of env title idx _).
  case_bool_decide as Hex.
  { exists []. cbn [fst snd fmap list_fmap]. rewrite app_nil_r.
    split_and!; [done|by left|done|done|]. by intros p [= <-]. }
  destruct (SlAttraction.image_get env img_url) as [[]|];
    [destruct (SlAttraction.file_open env outp) as [[]|];
     [destruct (SlAttraction.write_chunks env img_url outp) as [[]|]|]|];
    exists [img_url];
    cbn [fst snd SlAttraction.request SlAttraction.create
         SlAttraction.files SlAttraction.requests fmap list_fmap].
  - split_and!; [done|by right|apply union_subseteq_r|done|].
    intros p [= <-]. apply elem_of_union_l, elem_of_singleton. reflexivity.
  - split_and!; [done|by right|apply union_subseteq_r|done|done].
  - split_and!; [done|by right|done|done|done].
  - split_and!; [done|by right|done|done|done].
Qed.

Lemma sl_download_from_spec (idx : nat) (images : list string)
    (title : string) (downloaded : list string) (w : SlAttraction.World) :
  let r := SlAttraction.download_from env idx images title downloaded w in
  exists new evs,
    r.1 = downloaded ++ new /\
    length new <= length images /\
    SlAttraction.requests r.2
    = SlAttraction.requests w ++ (SlAttraction.ImageGet <$> evs) /\
    evs `sublist_of` images /\
    SlAttraction.files w ⊆ SlAttraction.files r.2 /\
    (evs = [] -> SlAttraction.files r.2 = SlAttraction.files w) /\
    Forall (fun p => p ∈ SlAttraction.files r.2) new.
Proof.
  cbv zeta. revert idx downloaded w.
  induction images as [|url rest IH]; intros idx downloaded w.
  - exists [], []. cbn [SlAttraction.download_from fst snd fmap list_fmap].
    rewrite !app_nil_r.
    split_and!; [done|done|done|done|done|done|by apply Forall_nil].
  - cbn [SlAttraction.download_from].
    destruct (sl_download_one_spec idx url title w)
      as (ev1 & Hlog1 & Hev1 & Hfs1 & Hsame1 & Hres1).
    destruct (SlAttraction.download_one env idx url title w)
      as [[p|] w1]; cbn [fst snd] in *.
    + destruct (IH (S idx) (downloaded ++ [p]) w1)
        as (new & evs & Hnew & Hlen & Hlog & Hevs & Hfs & Hsame & Hall).
      exists (p :: new), (ev1 ++ evs). split_and!.
      * by rewrite Hnew, <- app_assoc.
      * simpl. lia.
      * by rewrite Hlog, Hlog1, fmap_app, app_assoc.
      * destruct Hev1 as [-> | ->]; [by apply sublist_cons|].
        by apply sublist_skip.
      * by etrans.
      * intros [-> ->]%app_eq_nil. rewrite Hsame by done. by apply Hsame1.
      * apply Forall_cons. split; [|done]. by apply Hfs, Hres1.
    + destruct (IH (S idx) downloaded w1)
        as (new & evs & Hnew & Hlen & Hlog & Hevs & Hfs & Hsame & Hall).
      exists new, (ev1 ++ evs). split_and!.
      * done.
      * simpl. lia.
      * by rewrite Hlog, Hlog1, fmap_app, app_assoc.
      * destruct Hev1 as [-> | ->]; [by apply sublist_cons|].
        by apply sublist_skip.
      * by etrans.
      * intros [-> ->]%app_eq_nil. rewrite Hsame by done. by apply Hsame1.
      * done.
Qed.

(** What a call of [parse_attraction_page] does to the world. *)
Lemma parse_attraction_page_world (url : string) (download_images : bool)
    (max_images : Z) (w : SlAttraction.World) :
  let r := SlAttraction.parse_attraction_page env url download_images
             max_images w in
  SlAttraction.files w ⊆ SlAttraction.files r.2 /\
  exists evs,
    SlAttraction.requests r.2 = SlAttraction.requests w ++ evs /\
    SlAttraction.page_requests evs
    = (if SlAttraction.can_fetch_url env url then [url] else []) /\
    (download_images = false \/ SlAttraction.image_requests evs = [] ->
       SlAttraction.files r.2 = SlAttraction.files w) /\
    (download_images = false -> SlAttraction.image_requests evs = []) /\
    match r.1 with
    | Some (Some item) =>
        SlAttraction.can_fetch_url env url = true /\
        SlAttraction.source_url item = url /\
        SlAttraction.image_requests evs
          `sublist_of` PyStr2.slice_list max_images
                         (SlAttraction.image_urls item) /\
        length (SlAttraction.image_files item)
        <= length (PyStr2.slice_list max_images
                     (SlAttraction.image_urls item)) /\
        Forall (fun p => p ∈ SlAttraction.files r.2)
          (SlAttraction.image_files item)
    | _ => SlAttraction.image_requests evs = []
    end.
Proof.
  cbv zeta. unfold SlAttraction.parse_attraction_page.
  destruct (SlAttraction.can_fetch_url env url) eqn:Hrob; cbn [negb].
  2:{ cbn [fst snd]. split; [done|]. exists []. by rewrite app_nil_r. }
  destruct (SlAttraction.attraction_get env url) as [soup|].
  2:{ cbn [fst snd SlAttraction.request SlAttraction.files
           SlAttraction.requests].
      split; [done|]. by exists [SlAttraction.PageGet url]. }
  destruct (SlAttraction.title soup) as [title|].
  2:{ cbn [fst snd SlAttraction.request SlAttraction.files
           SlAttraction.requests].
      split; [done|]. by exists [SlAttraction.PageGet url]. }
  destruct (SlAttraction.page_images env soup) as [images|].
  2:{ cbn [fst snd SlAttraction.request SlAttraction.files
           SlAttraction.requests].
      split; [done|]. by exists [SlAttraction.PageGet url]. }
  destruct download_images.
  - destruct (sl_download_from_spec 0 (PyStr2.slice_list max_images images)
                title [] (SlAttraction.request (SlAttraction.PageGet url) w))
      as (new & evs & Hnew & Hlen & Hlog & Hevs & Hfs & Hsame & Hall).
    destruct (SlAttraction.download_from env 0 _ _ _ _) as [downloaded w2].
    cbn [fst snd SlAttraction.request SlAttraction.files
         SlAttraction.requests SlAttraction.source_url
         SlAttraction.image_urls SlAttraction.image_files] in *.
    change ([] ++ new) with new in Hnew. subst downloaded.
    destruct (sl_requests_of_images evs) as [Hp Hi].
    split; [done|].
    exists (SlAttraction.PageGet url :: (SlAttraction.ImageGet <$> evs)).
    split_and!.
    + by rewrite Hlog, <- app_assoc.
    + change (SlAttraction.page_requests
                (SlAttraction.PageGet url
                 :: (SlAttraction.ImageGet <$> evs)))
        with (url :: SlAttraction.page_requests
                        (SlAttraction.ImageGet <$> evs)).
      by rewrite Hp.
    + change (SlAttraction.image_requests
                (SlAttraction.PageGet url
                 :: (SlAttraction.ImageGet <$> evs)))
        with (SlAttraction.image_requests (SlAttraction.ImageGet <$> evs)).
      rewrite Hi. intros [? | ->]; [done|by apply Hsame].
    + done.
    + done.
    + done.
    + change (SlAttraction.image_requests
                (SlAttraction.PageGet url
                 :: (SlAttraction.ImageGet <$> evs)))
        with (SlAttraction.image_requests (SlAttraction.ImageGet <$> evs)).
      by rewrite Hi.
    + done.
    + done.
  - cbn [fst snd SlAttraction.request SlAttraction.files
         SlAttraction.requests SlAttraction.source_url
         SlAttraction.image_urls SlAttraction.image_files].
    split; [done|]. exists [SlAttraction.PageGet url].
    split_and!; try done.
    + apply sublist_nil_l.
    + simpl. lia.
Qed.

End SlAttractionFacts.

(** X28 (sl_tourism_scrape.py, parse_attraction_page): for a URL that
    robots.txt denies the function returns None without any request, and
    when the page cannot be fetched it returns None after that one
    request; it requests the page at most once and the directory only
    grows.  Without an item, or with download_images off, no image is
    requested and the directory is unchanged.  It raises only on a page
    that was fetched: one without a usable title, or one on whose image
    sources or image links [urljoin] raises.  In an item the image URLs,
    external URLs, e-mails and phones are each pairwise distinct; the
    image URLs are exactly those joined from the non-empty img sources and
    from the links ending in an image extension; every external URL is a
    link of the page that starts with http and does not contain the site's
    base; images are requested only among the first
    max_images_per_attraction image URLs, and every image file listed is
    in the directory afterwards. *)
Theorem parse_attraction_page_spec (env : SlAttraction.Env) (url : string)
    (download_images : bool) (max_images : Z) (w : SlAttraction.World) :
  let r := SlAttraction.parse_attraction_page env url download_images
             max_images w in
  SlAttraction.files w ⊆ SlAttraction.files r.2 /\
  (SlAttraction.can_fetch_url env url = false -> r = (Some None, w)) /\
  (SlAttraction.attraction_get env url = None -> r.1 = Some None) /\
  exists evs,
    SlAttraction.requests r.2 = SlAttraction.requests w ++ evs /\
    SlAttraction.page_requests evs `sublist_of` [url] /\
    (download_images = false ->
       SlAttraction.image_requests evs = [] /\
       SlAttraction.files r.2 = SlAttraction.files w) /\
    match r.1 with
    | Some (Some item) =>
        exists soup,
          SlAttraction.attraction_get env url = Some soup /\
          SlAttraction.can_fetch_url env url = true /\
          SlAttraction.source_url item = url /\
          NoDup (SlAttraction.image_urls item) /\
          NoDup (SlAttraction.external_urls item) /\
          NoDup (SlAttraction.emails item) /\
          NoDup (SlAttraction.phones item) /\
          (forall x, x ∈ SlAttraction.image_urls item <->
             (exists s, Some s ∈ SlAttraction.img_srcs soup /\ s <> "" /\
                        SlAttraction.urljoin env SlTourism.BASE s = Some x) \/
             (exists h, h ∈ SlAttraction.hrefs soup /\
                        SlAttraction.is_image_link h = true /\
                        SlAttraction.urljoin env SlTourism.BASE h = Some x))
          /\
          (forall x, x ∈ SlAttraction.external_urls item <->
             x ∈ SlAttraction.hrefs soup /\
             PyStr.startswith x "http" = true /\
             PyStr2.contains x SlTourism.BASE = false) /\
          SlAttraction.image_requests evs
            `sublist_of` PyStr2.slice_list max_images
                           (SlAttraction.image_urls item) /\
          length (SlAttraction.image_files item)
          <= length (PyStr2.slice_list max_images
                       (SlAttraction.image_urls item)) /\
          Forall (fun p => p ∈ SlAttraction.files r.2)
            (SlAttraction.image_files item)
    | _ =>
        SlAttraction.image_requests evs = [] /\
        SlAttraction.files r.2 = SlAttraction.files w
    end /\
    (r.1 = None ->
     SlAttraction.can_fetch_url env url = true /\
     exists soup,
       SlAttraction.attraction_get env url = Some soup /\
       (SlAttraction.title soup = None \/
        SlAttraction.page_images env soup = None)).
Proof.
  cbv zeta.
  destruct (parse_attraction_page_world env url download_images max_images w)
    as (Hfs & evs & Hlog & Hpage & Hsame & Hoff & Hitem).
  split; [done|].
  split.
  { intros Hrob. unfold SlAttraction.parse_attraction_page.
    by rewrite Hrob. }
  split.
  { intros Hget. unfold SlAttraction.parse_attraction_page.
    destruct (SlAttraction.can_fetch_url env url); cbn [negb]; [|done].
    by rewrite Hget. }
  exists evs. split; [done|].
  split.
  { rewrite Hpage. destruct (SlAttraction.can_fetch_url env url);
      [reflexivity|apply sublist_nil_l]. }
  split.
  { intros Hd. split; [by apply Hoff|]. apply Hsame. by left. }
  revert Hitem Hsame. unfold SlAttraction.parse_attraction_page.
  destruct (SlAttraction.can_fetch_url env url); cbn [negb fst snd].
  2:{ intros Himg Hsame. split; [|done]. split; [done|].
      apply Hsame. by right. }
  destruct (SlAttraction.attraction_get env url) as [soup|]; cbn [fst snd].
  2:{ intros Himg Hsame. split; [|done]. split; [done|].
      apply Hsame. by right. }
  destruct (SlAttraction.title soup) as [title|] eqn:Htitle; cbn [fst snd].
  2:{ intros Himg Hsame. split.
      - split; [done|]. apply Hsame. by right.
      - intros _. split; [done|]. exists soup. split; [done|by left]. }
  destruct (SlAttraction.page_images env soup) as [images|] eqn:Hpi;
    cbn [fst snd].
  2:{ intros Himg Hsame. split.
      - split; [done|]. apply Hsame. by right.
      - intros _. split; [done|]. exists soup. split; [done|by right]. }
  unfold SlAttraction.page_images in Hpi.
  destruct (SlAttraction.images_from_srcs env (SlAttraction.img_srcs soup) [])
    as [imgs1|] eqn:Hsrcs; cbn [mbind option_bind] in Hpi; [|done].
  destruct (images_from_srcs_spec env _ _ _ Hsrcs)
    as [Hnd1 Hin1]; [apply NoDup_nil_2|].
  destruct (images_from_hrefs_spec env _ _ _ Hpi Hnd1)
    as [Hnd2 Hin2].
  destruct (external_from_spec (SlAttraction.hrefs soup) [])
    as [Hnd3 Hin3]; [apply NoDup_nil_2|].
  destruct (fromkeys_spec (SlAttraction.emails_found soup) [])
    as [Hnd4 _]; [apply NoDup_nil_2|].
  destruct (fromkeys_spec (SlAttraction.phones_found soup) [])
    as [Hnd5 _]; [apply NoDup_nil_2|].
  match goal with
  | |- context [let '(_, _) := ?d in _] => destruct d as [downloaded w2]
  end.
  cbn [fst snd SlAttraction.source_url SlAttraction.image_urls
       SlAttraction.image_files SlAttraction.emails SlAttraction.phones
       SlAttraction.external_urls].
  intros (_ & _ & Hreq & Hlen & Hall) _.
  split; [|done].
  exists soup. split_and!; try done.
  - intros x. rewrite Hin2, Hin1. split.
    + intros [[Hx%elem_of_nil|Hs]|Hh]; [done|by left|by right].
    + intros [Hs|Hh]; [left; by right|by right].
  - intros x. rewrite Hin3. split.
    + intros [Hx%elem_of_nil|Hx]; done.
    + intros Hx. by right.
Qed.

Section SlMainFacts.
Variable env : SlAttraction.Env.

Lemma slice_list_2_length {A : Type} (l : list A) :
  length (PyStr2.slice_list 2 l) <= 2.
Proof.
  unfold PyStr2.slice_list. cbn [Z.ltb Z.compare].
  rewrite length_take. change (Z.to_nat 2) with 2. lia.
Qed.

Lemma results_from_spec (links : list string)
    (results : list SlAttraction.Item) (w : SlAttraction.World) :
  let r := SlAttraction.results_from env links results w in
  SlAttraction.files w ⊆ SlAttraction.files r.2 /\
  exists evs,
    SlAttraction.requests r.2 = SlAttraction.requests w ++ evs /\
    Forall (fun u => SlAttraction.can_fetch_url env u = true)
      (SlAttraction.page_requests evs) /\
    SlAttraction.page_requests evs `sublist_of` links /\
    forall res, r.1 = Some res ->
      exists new,
        res = results ++ new /\
        (SlAttraction.source_url <$> new)
          `sublist_of` SlAttraction.page_requests evs /\
        length (SlAttraction.image_requests evs) <= 2 * length new /\
        Forall (fun item =>
                  length (SlAttraction.image_files item) <= 2 /\
                  Forall (fun p => p ∈ SlAttraction.files r.2)
                    (SlAttraction.image_files item)) new.
Proof.
  cbv zeta. revert results w.
  induction links as [|link rest IH]; intros results w.
  - cbn [SlAttraction.results_from fst snd]. split; [done|].
    exists []. rewrite app_nil_r.
    split_and!; [done|apply Forall_nil_2|done|].
    intros res [= <-]. exists []. rewrite app_nil_r.
    split_and!; [done|done|simpl; lia|apply Forall_nil_2].
  - cbn [SlAttraction.results_from].
    destruct (parse_attraction_page_world env link true 2 w)
      as (Hfs1 & ev1 & Hlog1 & Hpage1 & _ & _ & Hitem1).
    assert (Hallow1 : Forall (fun u => SlAttraction.can_fetch_url env u = true)
                        (SlAttraction.page_requests ev1)).
    { rewrite Hpage1.
      destruct (SlAttraction.can_fetch_url env link) eqn:Hrob;
        [by apply Forall_singleton|apply Forall_nil_2]. }
    assert (Hsub1 : forall l, l `sublist_of` rest ->
              (SlAttraction.page_requests ev1 ++ l)
                `sublist_of` (link :: rest)).
    { intros l Hl. rewrite Hpage1.
      destruct (SlAttraction.can_fetch_url env link);
        [by apply sublist_skip|by apply sublist_cons]. }
    destruct (SlAttraction.parse_attraction_page env link true 2 w)
      as [[[item|]|] w1]; cbn [fst snd] in *.
    + destruct Hitem1 as (Hrob & Hsrc & Hreq & Hlen & Hfiles).
      destruct (IH (results ++ [item]) w1)
        as (Hfs & evs & Hlog & Hallow & Hsub & Hres).
      split; [by etrans|]. exists (ev1 ++ evs). split_and!.
      * by rewrite Hlog, Hlog1, app_assoc.
      * rewrite sl_page_requests_app. by apply Forall_app.
      * rewrite sl_page_requests_app. by apply Hsub1.
      * intros res Hr. destruct (Hres res Hr)
          as (new & -> & Hurls & Himg & Hall).
        exists (item :: new). split_and!.
        { by rewrite <- app_assoc. }
        { rewrite sl_page_requests_app, Hpage1, Hrob, fmap_cons, Hsrc.
          by apply sublist_skip. }
        { rewrite sl_image_requests_app, length_app. cbn [length].
          apply sublist_length in Hreq.
          pose proof (slice_list_2_length (SlAttraction.image_urls item)).
          lia. }
        { apply Forall_cons. split; [|done]. split.
          - pose proof (slice_list_2_length (SlAttraction.image_urls item)).
            lia.
          - eapply Forall_impl; [exact Hfiles|].
            intros p Hp. by apply Hfs. }
    + destruct (IH results w1) as (Hfs & evs & Hlog & Hallow & Hsub & Hres).
      split; [by etrans|]. exists (ev1 ++ evs). split_and!.
      * by rewrite Hlog, Hlog1, app_assoc.
      * rewrite sl_page_requests_app. by apply Forall_app.
      * rewrite sl_page_requests_app. by apply Hsub1.
      * intros res Hr. destruct (Hres res Hr)
          as (new & -> & Hurls & Himg & Hall).
        exists new. split_and!; [done| | |done].
        { rewrite sl_page_requests_app. by apply sublist_inserts_l. }
        { by rewrite sl_image_requests_app, Hitem1. }
    + split; [done|]. exists ev1. split_and!; [done|done| |done].
      rewrite <- (app_nil_r (SlAttraction.page_requests ev1)).
      apply Hsub1, sublist_nil_l.
Qed.

Lemma collect_attraction_links_log (listing : string) :
  let run := SlTourism.collect_attraction_links
               (SlAttraction.listing_env env) listing None in
  exists pages,
    run.2 = listing :: pages /\
    Forall (fun u => SlAttraction.can_fetch_url env u = true) pages /\
    forall links, run.1 = Some links -> NoDup links.
Proof.
  cbv zeta. unfold SlTourism.collect_attraction_links,
    SlTourism.get_total_pages.
  destruct (SlTourism.get_soup (SlAttraction.listing_env env) listing)
    as [soup0|]; cbn [mbind option_bind fst snd].
  2:{ exists []. split_and!; [done|apply Forall_nil_2|done]. }
  cbn [SlTourism.max_pages_truthy].
  match goal with
  | |- context [SlTourism.pages_loop _ ?ps ?b _ _] =>
      destruct (pages_loop_spec (SlAttraction.listing_env env) ps b []
                  [listing]) as (pages & Hlog & _ & Hall & Hres)
  end.
  exists pages.
  destruct (SlTourism.pages_loop _ _ _ _ _) as [[links|] fetched];
    cbn [fst snd] in *.
  - split_and!; [done|done|]. intros ? [= <-].
    by destruct (dedupe_id_spec links).
  - by split_and!.
Qed.

End SlMainFacts.

(** X29 (sl_tourism_scrape.py, main): apart from the home page, which is
    fetched twice without asking, every page the run requests (the
    listing, its further pages and the attraction pages) was allowed by
    robots.txt; when robots.txt denies the listing, the two fetches of
    the home page are all that happens.  The results are attractions with
    pairwise distinct source URLs, each one requested in this run, with at
    most two image files each, all of them in the images directory at the
    end; at most two images are requested per result, and the directory
    only grows. *)
Theorem sl_main_spec (env : SlAttraction.Env) (w : SlAttraction.World) :
  let r := SlAttraction.main env w in
  SlAttraction.files w ⊆ SlAttraction.files r.2 /\
  exists evs,
    SlAttraction.requests r.2 = SlAttraction.requests w ++ evs /\
    Forall (fun u => u = SlTourism.BASE \/
                     SlAttraction.can_fetch_url env u = true)
      (SlAttraction.page_requests evs) /\
    match r.1 with
    | SlAttraction.Refused =>
        evs = [SlAttraction.PageGet SlTourism.BASE;
               SlAttraction.PageGet SlTourism.BASE] /\
        SlAttraction.files r.2 = SlAttraction.files w
    | SlAttraction.Crashed =>
        length (SlAttraction.page_requests evs) >= 1
    | SlAttraction.Collected results =>
        NoDup (SlAttraction.source_url <$> results) /\
        (SlAttraction.source_url <$> results)
          `sublist_of` SlAttraction.page_requests evs /\
        length (SlAttraction.image_requests evs) <= 2 * length results /\
        Forall (fun item =>
                  length (SlAttraction.image_files item) <= 2 /\
                  Forall (fun p => p ∈ SlAttraction.files r.2)
                    (SlAttraction.image_files item)) results
    end.
Proof.
  cbv zeta. unfold SlAttraction.main.
  destruct (SlAttraction.find_category_links env 0) as [cats|].
  2:{ cbn [fst snd SlAttraction.request SlAttraction.files
           SlAttraction.requests].
      split; [done|]. exists [SlAttraction.PageGet SlTourism.BASE].
      split_and!; [done| |simpl; lia].
      apply Forall_singleton. by left. }
  destruct (SlAttraction.find_attractions_listing env 1) as [listing|].
  2:{ cbn [fst snd SlAttraction.request SlAttraction.files
           SlAttraction.requests].
      split; [done|].
      exists [SlAttraction.PageGet SlTourism.BASE;
              SlAttraction.PageGet SlTourism.BASE].
      split_and!; [by rewrite <- app_assoc| |simpl; lia].
      apply Forall_cons. split; [by left|].
      apply Forall_singleton. by left. }
  destruct (SlAttraction.can_fetch_url env listing) eqn:Hrob; cbn [negb].
  2:{ cbn [fst snd SlAttraction.request SlAttraction.files
           SlAttraction.requests].
      split; [done|].
      exists [SlAttraction.PageGet SlTourism.BASE;
              SlAttraction.PageGet SlTourism.BASE].
      split_and!; [by rewrite <- app_assoc| |done|done].
      apply Forall_cons. split; [by left|].
      apply Forall_singleton. by left. }
  destruct (collect_attraction_links_log env listing)
    as (pages & Hfetched & Hpages & Hnodup).
  destruct (SlTourism.collect_attraction_links _ listing None)
    as [links fetched]. cbn [fst snd] in Hfetched, Hnodup. subst fetched.
  cbn [SlAttraction.request SlAttraction.files SlAttraction.requests].
  rewrite <- !app_assoc.
  set (ev0 := [SlAttraction.PageGet SlTourism.BASE]
              ++ [SlAttraction.PageGet SlTourism.BASE]
              ++ (SlAttraction.PageGet <$> listing :: pages)).
  assert (Hpage0 : SlAttraction.page_requests ev0
                   = SlTourism.BASE :: SlTourism.BASE :: listing :: pages).
  { subst ev0. rewrite !sl_page_requests_app.
    by destruct (sl_requests_of_pages (listing :: pages)) as [-> _]. }
  assert (Hallow0 : Forall (fun u => u = SlTourism.BASE \/
                                     SlAttraction.can_fetch_url env u = true)
                      (SlAttraction.page_requests ev0)).
  { rewrite Hpage0. repeat (apply Forall_cons; split; [by auto|]).
    eapply Forall_impl; [exact Hpages|]. intros u Hu. by right. }
  assert (Himg0 : SlAttraction.image_requests ev0 = []).
  { subst ev0. rewrite !sl_image_requests_app.
    by destruct (sl_requests_of_pages (listing :: pages)) as [_ ->]. }
  assert (Hlen0 : length (SlAttraction.page_requests ev0) >= 1).
  { rewrite Hpage0. simpl. lia. }
  clearbody ev0. clear Hpage0.
  destruct links as [attraction_links|].
  2:{ cbn [fst snd SlAttraction.files SlAttraction.requests].
      split; [done|]. by exists ev0. }
  specialize (Hnodup attraction_links eq_refl).
  set (w0 := {| SlAttraction.files := SlAttraction.files w;
                SlAttraction.requests := SlAttraction.requests w ++ ev0 |}).
  destruct (results_from_spec env attraction_links [] w0)
    as (Hfs & evs & Hlog & Hallow & Hsub & Hres).
  destruct (SlAttraction.results_from env attraction_links [] w0)
    as [[results|] w1]; cbn [fst snd] in *.
  - split; [done|]. exists (ev0 ++ evs). split_and!.
    + by rewrite Hlog, app_assoc.
    + rewrite sl_page_requests_app. apply Forall_app. split; [done|].
      eapply Forall_impl; [exact Hallow|]. intros u Hu. by right.
    + destruct (Hres results eq_refl) as (new & -> & Hurls & _).
      cbn [app]. eapply sublist_NoDup; [exact Hnodup|]. by etrans.
    + destruct (Hres results eq_refl) as (new & -> & Hurls & _).
      cbn [app]. rewrite sl_page_requests_app. by apply sublist_inserts_l.
    + destruct (Hres results eq_refl) as (new & -> & _ & Himg & _).
      cbn [app]. by rewrite sl_image_requests_app, Himg0.
    + destruct (Hres results eq_refl) as (new & -> & _ & _ & Hall).
      done.
  - split; [done|]. exists (ev0 ++ evs). split_and!.
    + by rewrite Hlog, app_assoc.
    + rewrite sl_page_requests_app. apply Forall_app. split; [done|].
      eapply Forall_impl; [exact Hallow|]. intros u Hu. by right.
    + rewrite sl_page_requests_app, length_app. lia.
Qed.

(** ** The sample sites, run *)

(** The sample listing: page 2 is denied and skipped, the links of pages 1
    and 3 come back once each. *)
Example collect_attraction_links_sample :
  SlTourism.collect_attraction_links SlTourism.sample_env
    SlTourism.sample_listing None
  = (Some ["https://www.srilanka.travel/attraction/sigiriya";
           "https://www.srilanka.travel/attraction/ella";
           "https://www.srilanka.travel/attraction/galle"],
     ["https://www.srilanka.travel/tourist-attractions?lang=en";
      "https://www.srilanka.travel/tourist-attractions";
      "https://www.srilanka.travel/tourist-attractions?page=3"]).
Proof. vm_compute. reflexivity. Qed.

(** The second attraction has the title of the first, so its first image
    is taken for downloaded; the third has no usable title and the run
    ends there. *)
Example sl_main_sample :
  (SlAttraction.main SlAttraction.sample_env SlAttraction.empty_world).1
  = SlAttraction.Crashed /\
  SlAttraction.image_requests
    (SlAttraction.requests
       (SlAttraction.main SlAttraction.sample_env
          SlAttraction.empty_world).2)
  = ["https://www.srilanka.travel/img/ella.JPG";
     "https://www.srilanka.travel/photos/rock.PNG";
     "https://www.srilanka.travel/photos/rock.PNG"].
Proof. split; vm_compute; reflexivity. Qed.

(** The article that robots.txt denies keeps its row, with an empty
    description, and its thumbnail is downloaded all the same. *)
Example ft_main_sample :
  FtTravel.requests
    (FtTravel.main FtTravel.sample_env None true FtTravel.empty_world).2
  = [FtTravel.ListingGet "https://www.ft.lk/travel-tourism/27";
     FtTravel.ArticleGet "https://www.ft.lk/travel-tourism/a";
     FtTravel.ImageGet "https://www.ft.lk/thumb/a.png";
     FtTravel.ImageGet "https://www.ft.lk/img/1.jpeg";
     FtTravel.ImageGet "https://www.ft.lk/img/broken";
     FtTravel.ImageGet "https://www.ft.lk/thumb/b.png"].
Proof. vm_compute. reflexivity. Qed.

(** [safe_filename] on a title with reserved characters and blanks. *)
Example safe_filename_sample :
  SlTourism.safe_filename SlTourism.no_escapes
    "  Sigiriya: Lion   Rock / view?  "
  = "Sigiriya__Lion_Rock___view".
Proof. vm_compute. reflexivity. Qed.

(** An article page with a malformed image source ends [main] with the
    exception of [urljoin]: the page was requested, and nothing is
    saved. *)
Example ft_main_malformed :
  FtTravel.main FtTravel.sample_env_malformed None true FtTravel.empty_world
  = (FtTravel.Crashed,
     {| FtTravel.files := ∅;
        FtTravel.requests :=
          [FtTravel.ListingGet "https://www.ft.lk/travel-tourism/27";
           FtTravel.ArticleGet "https://www.ft.lk/travel-tourism/a"] |}).
Proof. vm_compute. reflexivity. Qed.
